(** * MegaDetector video pipeline: process_video.py

    A shallow embedding of [src/detection/process_video.py]: the options
    class, the single-video orchestrator [process_video], the folder
    orchestrator [process_video_folder], the per-video worker
    [process_single_video], the statements that follow the worker at module
    level, and the command-line reproduction [options_to_command].

    Python's effects are written out: a run is a function on a [World]
    (a file system, the log of what the run printed and which collaborators
    it called, and the number of uuids drawn so far) that returns the new
    world and either a value or a raised exception. *)

From Stdlib Require Import QArith ZArith.
From stdpp Require Import base strings list gmap pretty.

Open Scope Z_scope.
Open Scope string_scope.
Open Scope list_scope.

(** ** Paths (posixpath) *)

Definition path := string.

Definition startswith (s pre : string) : bool := String.prefix pre s.

Definition endswith (s suf : string) : bool :=
  let n := String.length s in
  let k := String.length suf in
  (k <=? n)%nat && String.eqb (String.substring (n - k) k s) suf.

Definition sep : Ascii.ascii := Ascii.ascii_of_nat 47.

(** [os.path.join(a, b)]: an absolute [b] replaces [a]; otherwise the two are
    glued with one separator unless [a] is empty or already ends in one. *)
Definition join (a b : path) : path :=
  if startswith b "/" then b
  else if String.eqb a "" || endswith a "/" then a +:+ b
  else a +:+ "/" +:+ b.

(** [posixpath.split] without the final stripping: the head up to and
    including the last separator, and the tail after it. *)
Fixpoint split_last_sep (p : path) : path * path :=
  match p with
  | EmptyString => ("", "")
  | String c r =>
      match split_last_sep r with
      | (EmptyString, t) =>
          if Ascii.eqb c sep then ("/", t) else ("", String c t)
      | (h, t) => (String c h, t)
      end
  end.

Definition basename (p : path) : path := snd (split_last_sep p).

Fixpoint all_sep (s : string) : bool :=
  match s with
  | EmptyString => true
  | String c r => Ascii.eqb c sep && all_sep r
  end.

Fixpoint rstrip_sep (s : string) : string :=
  match s with
  | EmptyString => ""
  | String c r =>
      match rstrip_sep r with
      | EmptyString => if Ascii.eqb c sep then "" else String c ""
      | r' => String c r'
      end
  end.

Definition dirname (p : path) : path :=
  let head := fst (split_last_sep p) in
  if all_sep head then head else rstrip_sep head.

(** [str.replace(old, new)] for a non-empty [old]: every non-overlapping
    occurrence, left to right.  [skip] counts the characters of a matched
    occurrence that are still to be dropped. *)
Fixpoint replace_from (old new : string) (skip : nat) (s : string) : string :=
  match s with
  | EmptyString => ""
  | String c r =>
      match skip with
      | S k => replace_from old new k r
      | O =>
          if startswith s old
          then new +:+ replace_from old new (String.length old - 1) r
          else String c (replace_from old new O r)
      end
  end.

Definition replace (s old new : string) : string := replace_from old new O s.

(** ** Exceptions

    The subclasses of Python's [Exception] that the orchestrator and the
    library calls it makes can raise.  [CollaboratorError] stands for any
    exception raised inside an external collaborator. *)

Inductive exn : Type :=
| NameError (name : string)
| UnboundLocalError (name : string)
| AttributeError (attr : string)
| AssertionError (msg : string)
| ValueError (msg : string)
| TypeError (msg : string)
| IndexError
| ZeroDivisionError
| FileNotFoundError (p : path)
| FileExistsError (p : path)
| IsADirectoryError (p : path)
| NotADirectoryError (p : path)
| JSONDecodeError (p : path)
| CollaboratorError (what : string).

Inductive outcome (A : Type) : Type :=
| Ok (a : A)
| Raise (e : exn).
Arguments Ok {A} a.
Arguments Raise {A} e.

(** ** os.makedirs

    [os.makedirs(name, exist_ok=True)] as the standard library defines it,
    over a map from paths to entries, of which [folder] is the directory:
    when the folder above [name] is missing it is made first, in the same
    way, and then [name] itself is made.  A path of separators only is the
    root, which is always there. *)

(** [os.path.split(p)]. *)
Definition path_split (p : path) : path * path := (dirname p, basename p).

(** The [head] and [tail] that [os.makedirs] works with: a name that ends
    in a separator is split a second time. *)
Definition head_and_tail (name : path) : path * path :=
  let '(head, tail) := path_split name in
  if String.eqb tail "" then path_split head else (head, tail).

(** The folders above [name], from the nearest on. *)
Fixpoint folders_above_from (fuel : nat) (name : path) : list path :=
  match fuel with
  | O => []
  | S fuel' =>
      let '(head, tail) := head_and_tail name in
      if negb (String.eqb head "") && negb (String.eqb tail "")
      then head :: folders_above_from fuel' head
      else []
  end.

Definition folders_above (name : path) : list path :=
  folders_above_from (String.length name) name.

Section Makedirs.

Context {A : Type} (folder : A) (is_folder : A → bool).

Definition is_root (p : path) : bool := negb (String.eqb p "") && all_sep p.

(** [os.path.exists(p)]. *)
Definition path_exists (p : path) (fs : gmap path A) : bool :=
  is_root p || match fs !! p with Some _ => true | None => false end.

(** [os.mkdir(name)] as [os.makedirs] calls it: an [OSError] is passed on
    unless [name] is a folder by then.  [head] is the folder above
    [name]; the empty [head] is the current folder. *)
Definition mkdir_exist_ok (name head : path) (fs : gmap path A)
    : outcome unit * gmap path A :=
  if String.eqb name "" then (Raise (FileNotFoundError name), fs)
  else if is_root name then (Ok tt, fs)
  else match fs !! name with
       | Some a =>
           if is_folder a then (Ok tt, fs)
           else (Raise (FileExistsError name), fs)
       | None =>
           if String.eqb head "" || is_root head
           then (Ok tt, <[name := folder]> fs)
           else match fs !! head with
                | Some a =>
                    if is_folder a then (Ok tt, <[name := folder]> fs)
                    else (Raise (NotADirectoryError name), fs)
                | None => (Raise (FileNotFoundError name), fs)
                end
       end.

(** [makedirs] calls itself on [head], which is shorter than [name]:
    [fuel] bounds the depth of the calls. *)
Fixpoint makedirs_from (fuel : nat) (name : path) (fs : gmap path A)
    : outcome unit * gmap path A :=
  let '(head, tail) := head_and_tail name in
  if negb (String.eqb head "") && negb (String.eqb tail "")
     && negb (path_exists head fs)
  then
    let '(made, fs1) :=
      match fuel with
      | S fuel' => makedirs_from fuel' head fs
      | O => (Ok tt, fs)
      end in
    match made with
    | Raise (FileExistsError _) | Ok _ =>
        if String.eqb tail "." then (Ok tt, fs1)
        else mkdir_exist_ok name head fs1
    | Raise e => (Raise e, fs1)
    end
  else mkdir_exist_ok name head fs.

Definition os_makedirs (name : path) (fs : gmap path A)
    : outcome unit * gmap path A :=
  makedirs_from (String.length name) name fs.

End Makedirs.

(** ** Detection results *)

Record detection := {
  category : string;
  conf : Q;
  bbox : list Q
}.

(** One entry of the list returned by the detector: the image and what was
    found in it. *)
Record im_result := {
  im_file : path;
  im_detections : list detection
}.

(** The value of [custom_metadata['video_frame_rate']]: one rate in the
    single-video path, the list of per-video rates in the folder path. *)
Inductive frame_rate :=
| RateOfVideo (Fs : Q)
| RatesOfVideos (Fs : list Q).

(** A results file as [write_results_to_file] lays it out. *)
Record results_doc := {
  doc_images : list im_result;
  doc_detector : string;
  doc_video_frame_rate : frame_rate
}.

(** What [process_video] hands back: the detector's list when detection ran,
    the parsed file when results were reused. *)
Inductive pv_results :=
| FromDetector (results : list im_result)
| FromJson (doc : results_doc).

(** ** File system

    A flat map from path strings to nodes; paths are compared as strings
    (no normalisation, no symbolic links). *)

Inductive content :=
| Blob
| ResultsFile (doc : results_doc).

Inductive node :=
| Dir
| File (c : content).

Abbreviation FS := (gmap path node).

Definition isfile (p : path) (fs : FS) : bool :=
  match fs !! p with Some (File _) => true | _ => false end.

Definition isdir (p : path) (fs : FS) : bool :=
  match fs !! p with Some Dir => true | _ => false end.

(** [p] lies strictly below directory [d]. *)
Definition below (d p : path) : bool :=
  startswith p (if endswith d "/" then d else d +:+ "/").

Definition in_tree (d p : path) : bool := String.eqb p d || below d p.

Definition is_dir (n : node) : bool :=
  match n with Dir => true | File _ => false end.

(** [os.makedirs(p, exist_ok=True)]. *)
Definition fs_makedirs (p : path) (fs : FS) : outcome unit * FS :=
  os_makedirs Dir is_dir p fs.
Arguments fs_makedirs : simpl never.

(** [os.remove(p)]. *)
Definition fs_remove (p : path) (fs : FS) : outcome unit * FS :=
  match fs !! p with
  | Some (File _) => (Ok tt, delete p fs)
  | Some Dir => (Raise (IsADirectoryError p), fs)
  | None => (Raise (FileNotFoundError p), fs)
  end.

(** [shutil.rmtree(d)]: the directory and everything below it. *)
Definition fs_rmtree (d : path) (fs : FS) : outcome unit * FS :=
  match fs !! d with
  | Some Dir => (Ok tt, filter (λ kv, in_tree d kv.1 = false) fs)
  | Some (File _) => (Raise (NotADirectoryError d), fs)
  | None => (Raise (FileNotFoundError d), fs)
  end.

(** [open(p); json.load(f)]. *)
Definition fs_json_load (p : path) (fs : FS) : outcome results_doc :=
  match fs !! p with
  | Some (File (ResultsFile d)) => Ok d
  | Some (File Blob) => Raise (JSONDecodeError p)
  | Some Dir => Raise (IsADirectoryError p)
  | None => Raise (FileNotFoundError p)
  end.

(** ** What a run leaves behind

    [message] has one constructor per [print] statement of the module, with
    the values substituted into its format string.  [event] adds the calls
    to the external collaborators and the file removals, with the arguments
    the orchestrator passed. *)

Inductive message :=
| LoadingResults (file : path)
| RenderingVideo (output_video_file : path) (rendering_fs Fs : Q)
| WarnDeletingRenderedFrames (folder : path) (e : exn)
| RecursivelyDeleting (folder : path)
| WarnRemovingExtractedFrames (folder : path) (e : exn)
| ExtractingFrames
| NoVideosFound (folder : path)
| NoFramesExtracted (folder : path)
| RunningMegaDetector
| ConvertingResults
| RenderingDetections (video output : path) (rendering_fs video_fs : Q)
| DeletingFrameCache
| WarnDeletingFrames (folder : path) (e : exn).

Inductive event :=
| Print (m : message)
| CallDetector (model_file : string) (image_file_names : list path)
    (confidence_threshold : option Q) (n_cores : option Z) (quiet : bool)
    (class_mapping_filename : option string)
| CallWriteResults (results : list im_result) (output_file : path)
    (relative_path_base : path) (detector_file : string)
    (video_frame_rate : frame_rate)
| CallAggregate (frames_json video_json : path)
| CallVisualize (detector_output_path out_dir images_dir : path)
    (confidence_threshold : option Q)
| CallFramesToVideo (frames : list path) (fs : Q) (output : path)
    (codec_spec : option string)
| CallRmtree (folder : path)
| CallRemove (file : path).

Record World := {
  fs : FS;
  log : list event;
  uuids_drawn : nat
}.

(** ** The run monad *)

Definition M (A : Type) : Type := World → World * outcome A.

Definition ret {A} (a : A) : M A := λ w, (w, Ok a).

Definition raise {A} (e : exn) : M A := λ w, (w, Raise e).

Definition bind {A B} (m : M A) (k : A → M B) : M B :=
  λ w, match m w with
       | (w', Ok a) => k a w'
       | (w', Raise e) => (w', Raise e)
       end.

Declare Scope run_scope.
Delimit Scope run_scope with run.
Notation "x <- m ;; k" := (bind m (λ x, k))
  (at level 100, m at next level, right associativity) : run_scope.
Notation "m ;; k" := (bind m (λ _, k))
  (at level 100, right associativity) : run_scope.
Open Scope run_scope.

(** [try: body / except Exception as e: handler e]. *)
Definition try_except {A} (body : M A) (handler : exn → M A) : M A :=
  λ w, match body w with
       | (w', Ok a) => (w', Ok a)
       | (w', Raise e) => handler e w'
       end.

(** [for x in l: f x], left at the first exception. *)
Fixpoint for_each {A} (l : list A) (f : A → M unit) : M unit :=
  match l with
  | [] => ret tt
  | x :: l' => f x ;; for_each l' f
  end.

Definition emit (e : event) : M unit :=
  λ w, ({| fs := fs w; log := log w ++ [e]; uuids_drawn := uuids_drawn w |},
        Ok tt).

Definition print (m : message) : M unit := emit (Print m).

(** A call that acts on the file system only. *)
Definition effect (A : Type) : Type := FS → outcome A * FS.

Definition call {A} (f : effect A) : M A :=
  λ w, let '(r, fs') := f (fs w) in
       ({| fs := fs'; log := log w; uuids_drawn := uuids_drawn w |}, r).

Definition inspect {A} (f : FS → A) : M A := λ w, (w, Ok (f (fs w))).

Definition assert (b : bool) (msg : string) : M unit :=
  if b then ret tt else raise (AssertionError msg).

Definition makedirs (p : path) : M unit := call (fs_makedirs p).

Definition os_remove (p : path) : M unit :=
  emit (CallRemove p) ;; call (fs_remove p).

Definition rmtree (p : path) : M unit :=
  emit (CallRmtree p) ;; call (fs_rmtree p).

Definition json_load (p : path) : M results_doc :=
  λ w, (w, fs_json_load p (fs w)).

(** ** Options (class ProcessVideoOptions)

    [None] is Python's [None].  The class has exactly these attributes. *)

Record ProcessVideoOptions := {
  model_file : string;
  input_video_file : string;
  output_json_file : option string;
  output_video_file : option string;
  frame_folder : option string;
  frame_rendering_folder : option string;
  render_output_video : bool;
  keep_rendered_frames : bool;
  keep_extracted_frames : bool;
  force_extracted_frame_folder_deletion : bool;
  force_rendered_frame_folder_deletion : bool;
  reuse_results_if_available : bool;
  reuse_frames_if_available : bool;
  recursive : bool;
  verbose : bool;
  fourcc : option string;
  rendering_confidence_threshold : option Q;
  json_confidence_threshold : option Q;
  frame_sample : option Z;
  n_cores : option Z;
  debug_max_frames : option Z;
  class_mapping_filename : option string
}.

(** The class-level defaults. *)
Definition default_options : ProcessVideoOptions := {|
  model_file := "MDV5A";
  input_video_file := "";
  output_json_file := None;
  output_video_file := None;
  frame_folder := None;
  frame_rendering_folder := None;
  render_output_video := false;
  keep_rendered_frames := false;
  keep_extracted_frames := false;
  force_extracted_frame_folder_deletion := false;
  force_rendered_frame_folder_deletion := false;
  reuse_results_if_available := false;
  reuse_frames_if_available := false;
  recursive := false;
  verbose := false;
  fourcc := None;
  rendering_confidence_threshold := None;
  json_confidence_threshold := Some (5 # 1000)%Q;
  frame_sample := None;
  n_cores := Some 1;
  debug_max_frames := Some (-1);
  class_mapping_filename := None
|}.

(** ** External collaborators

    The functions the module imports and does not define, each as an
    arbitrary effect on the file system, together with the values the
    environment supplies.  [uuid1 k] is the string of the [k]-th uuid drawn
    in a run.

    A float is the rational it stands for, so that comparisons are exact;
    [truediv x n] is the float that [x / n] evaluates to for a float [x]
    and a non-zero int [n], that is, the quotient as the machine rounds
    it. *)

Class Collaborators := {
  gettempdir : path;
  getuser : string;
  uuid1 : nat → string;
  truediv : Q → Z → Q;
  relpath : path → path → path;
  insert_before_extension : path → string → string → path;
  str_float : Q → string;
  video_to_frames :
    path → path → option Z → bool → effect (list path * Q);
  video_folder_to_frames :
    path → path → bool → bool → option Z → option Z → bool →
    effect (list (list path) * list Q * list path);
  load_and_run_detector_batch :
    string → list path → option Q → option Z → bool → option string →
    effect (list im_result);
  write_results_to_file :
    list im_result → path → path → string → frame_rate → effect unit;
  frame_results_to_video_results : path → path → effect unit;
  visualize_detector_output :
    path → path → path → option Q → option bool → option Z →
    effect (list path);
  frames_to_video : list path → Q → path → option string → effect unit
}.

Section Orchestrator.

Context {E : Collaborators}.

Definition draw_uuid : M string :=
  λ w, ({| fs := fs w; log := log w; uuids_drawn := S (uuids_drawn w) |},
        Ok (uuid1 (uuids_drawn w))).

(** [Fs / n] on a float and an int. *)
Definition true_div (x : Q) (n : Z) : M Q :=
  if (n =? 0)%Z then raise ZeroDivisionError else ret (truediv x n).

(** Logged calls to the collaborators. *)

Definition run_detector (o : ProcessVideoOptions)
    (image_file_names : list path) : M (list im_result) :=
  emit (CallDetector (model_file o) image_file_names
          (json_confidence_threshold o) (n_cores o) (negb (verbose o))
          (class_mapping_filename o)) ;;
  call (load_and_run_detector_batch (model_file o) image_file_names
          (json_confidence_threshold o) (n_cores o) (negb (verbose o))
          (class_mapping_filename o)).

Definition write_results (o : ProcessVideoOptions)
    (results : list im_result) (output_file relative_path_base : path)
    (Fs : frame_rate) : M unit :=
  emit (CallWriteResults results output_file relative_path_base
          (model_file o) Fs) ;;
  call (write_results_to_file results output_file relative_path_base
          (model_file o) Fs).

Definition stitch (frames : list path) (rendering_fs : Q) (output : path)
    (codec_spec : option string) : M unit :=
  emit (CallFramesToVideo frames rendering_fs output codec_spec) ;;
  call (frames_to_video frames rendering_fs output codec_spec).

(** *** process_video (lines 100-225) *)

Definition tempdir : path := join gettempdir "process_camera_trap_video".

(** Lines 105-109 assign defaults to [options.output_json_file] and, when
    rendering, to [options.output_video_file]; the two functions give the
    values the attributes hold afterwards.  [pv_output_video_file] is read
    in the rendering block only, where the default has been assigned. *)
Definition pv_output_json_file (o : ProcessVideoOptions) : path :=
  default (input_video_file o +:+ ".json") (output_json_file o).

Definition pv_output_video_file (o : ProcessVideoOptions) : path :=
  default (input_video_file o +:+ ".detections.mp4") (output_video_file o).

(** Lines 111-130: the folder the frames are extracted to, and the flag
    [frame_output_folder_created]. *)
Definition pv_frame_output_folder (o : ProcessVideoOptions)
    : M (path * bool) :=
  makedirs tempdir ;;
  u <- draw_uuid ;;
  let user_subdirectory := getuser +:+ "_" +:+ u in
  let user_tempdir := join tempdir user_subdirectory in
  makedirs user_tempdir ;;
  r <- match frame_folder o with
       | Some folder => ret (folder, false)
       | None =>
           u' <- draw_uuid ;;
           ret (join user_tempdir
                  (basename (input_video_file o) +:+ "_frames_" +:+ u'),
                true)
       end ;;
  makedirs (fst r) ;;
  ret r.

(** Lines 132-134. *)
Definition pv_extract (o : ProcessVideoOptions) (frame_output_folder : path)
    : M (list path * Q) :=
  call (video_to_frames (input_video_file o) frame_output_folder
          (frame_sample o) (negb (reuse_frames_if_available o))).

(** Lines 136-138: [image_file_names[0:debug_max_frames]] for a positive
    cap.  Comparing [None] with [0] raises. *)
Definition pv_image_file_names (o : ProcessVideoOptions)
    (frame_filenames : list path) : M (list path) :=
  match debug_max_frames o with
  | None => raise (TypeError "'>' not supported between NoneType and int")
  | Some k =>
      ret (if (0 <? k)%Z then take (Z.to_nat k) frame_filenames
           else frame_filenames)
  end.

(** [options.reuse_results_if_available and os.path.isfile(file)]. *)
Definition reuse_results (o : ProcessVideoOptions) (file : path) : M bool :=
  if reuse_results_if_available o then inspect (isfile file) else ret false.

(** Lines 140-157. *)
Definition pv_detect (o : ProcessVideoOptions) (frame_output_folder : path)
    (image_file_names : list path) (Fs : Q) : M pv_results :=
  reuse <- reuse_results o (pv_output_json_file o) ;;
  if reuse : bool then
    print (LoadingResults (pv_output_json_file o)) ;;
    doc <- json_load (pv_output_json_file o) ;;
    ret (FromJson doc)
  else
    results <- run_detector o image_file_names ;;
    write_results o results (pv_output_json_file o) frame_output_folder
      (RateOfVideo Fs) ;;
    ret (FromDetector results).

(** Lines 165-175: the folder for rendered frames and the flag
    [frame_rendering_folder_created]. *)
Definition pv_rendering_output_dir (o : ProcessVideoOptions) : path * bool :=
  match frame_rendering_folder o with
  | Some folder => (folder, false)
  | None => (join tempdir (basename (input_video_file o) +:+ "_detections"),
             true)
  end.

(** Lines 184-187. *)
Definition rendering_rate (frame_sample : option Z) (Fs : Q) : M Q :=
  match frame_sample with
  | None => ret Fs
  | Some n => true_div Fs n
  end.

(** Lines 195-200, the body of the [try]. *)
Definition pv_delete_rendered (o : ProcessVideoOptions)
    (rendering_output_dir : path) (frame_rendering_folder_created : bool)
    (detected_frame_files : list path) : M unit :=
  if force_rendered_frame_folder_deletion o
     || (frame_rendering_folder_created
         && negb (String.eqb (pv_output_video_file o) rendering_output_dir))
  then rmtree rendering_output_dir
  else for_each detected_frame_files os_remove.

(** Lines 194-204. *)
Definition pv_cleanup_rendered (o : ProcessVideoOptions)
    (rendering_output_dir : path) (frame_rendering_folder_created : bool)
    (detected_frame_files : list path) : M unit :=
  if keep_rendered_frames o then ret tt
  else
    try_except
      (pv_delete_rendered o rendering_output_dir
         frame_rendering_folder_created detected_frame_files)
      (λ e, print (WarnDeletingRenderedFrames rendering_output_dir e)).

(** Lines 165-181: the frames with the detection boxes drawn. *)
Definition pv_render_frames (o : ProcessVideoOptions)
    (frame_output_folder : path) : M (path * bool * list path) :=
  let '(rendering_output_dir, frame_rendering_folder_created) :=
    pv_rendering_output_dir o in
  makedirs rendering_output_dir ;;
  emit (CallVisualize (pv_output_json_file o) rendering_output_dir
          frame_output_folder (rendering_confidence_threshold o)) ;;
  detected_frame_files <-
    call (visualize_detector_output (pv_output_json_file o)
            rendering_output_dir frame_output_folder
            (rendering_confidence_threshold o) None None) ;;
  ret (rendering_output_dir, frame_rendering_folder_created,
       detected_frame_files).

(** Lines 162-204. *)
Definition pv_render (o : ProcessVideoOptions) (frame_output_folder : path)
    (Fs : Q) : M unit :=
  rendered <- pv_render_frames o frame_output_folder ;;
  let '(rendering_output_dir, frame_rendering_folder_created,
        detected_frame_files) := rendered in
  rendering_fs <- rendering_rate (frame_sample o) Fs ;;
  print (RenderingVideo (pv_output_video_file o) rendering_fs Fs) ;;
  stitch detected_frame_files rendering_fs (pv_output_video_file o)
    (fourcc o) ;;
  pv_cleanup_rendered o rendering_output_dir frame_rendering_folder_created
    detected_frame_files.

(** Line 214 reads [options.ouput_json_file]; the options class has no
    attribute of that name, so the read raises. *)
Definition getattr_ouput_json_file (o : ProcessVideoOptions) : M path :=
  raise (AttributeError "ouput_json_file").

(** Line 214, with [or] and [and] evaluated left to right. *)
Definition pv_delete_folder_condition (o : ProcessVideoOptions)
    (frame_output_folder : path) (frame_output_folder_created : bool)
    : M bool :=
  if force_extracted_frame_folder_deletion o then ret true
  else if frame_output_folder_created then
    ouput_json_file <- getattr_ouput_json_file o ;;
    ret (negb (String.eqb ouput_json_file frame_output_folder))
  else ret false.

(** Lines 214-219, the body of the [try]. *)
Definition pv_delete_extracted (o : ProcessVideoOptions)
    (frame_output_folder : path) (frame_output_folder_created : bool)
    (frame_filenames : list path) : M unit :=
  recursive_delete <-
    pv_delete_folder_condition o frame_output_folder
      frame_output_folder_created ;;
  if recursive_delete : bool then
    print (RecursivelyDeleting frame_output_folder) ;;
    rmtree frame_output_folder
  else for_each frame_filenames os_remove.

(** Lines 211-223. *)
Definition pv_cleanup_extracted (o : ProcessVideoOptions)
    (frame_output_folder : path) (frame_output_folder_created : bool)
    (frame_filenames : list path) : M unit :=
  if keep_extracted_frames o then ret tt
  else
    try_except
      (pv_delete_extracted o frame_output_folder
         frame_output_folder_created frame_filenames)
      (λ e, print (WarnRemovingExtractedFrames frame_output_folder e)).

(** Lines 105-138: everything before detection. *)
Definition pv_prepare (o : ProcessVideoOptions)
    : M (path * bool * list path * Q * list path) :=
  folder <- pv_frame_output_folder o ;;
  let '(frame_output_folder, frame_output_folder_created) := folder in
  extracted <- pv_extract o frame_output_folder ;;
  let '(frame_filenames, Fs) := extracted in
  image_file_names <- pv_image_file_names o frame_filenames ;;
  ret (frame_output_folder, frame_output_folder_created, frame_filenames,
       Fs, image_file_names).

(** Lines 105-157: everything up to and including detection. *)
Definition pv_pipeline (o : ProcessVideoOptions)
    : M (path * bool * list path * Q * pv_results) :=
  prepared <- pv_prepare o ;;
  let '(frame_output_folder, frame_output_folder_created, frame_filenames,
        Fs, image_file_names) := prepared in
  results <- pv_detect o frame_output_folder image_file_names Fs ;;
  ret (frame_output_folder, frame_output_folder_created, frame_filenames,
       Fs, results).

(** Lines 160-225: rendering, clean-up and the return. *)
Definition pv_finish (o : ProcessVideoOptions) (frame_output_folder : path)
    (frame_output_folder_created : bool) (frame_filenames : list path)
    (Fs : Q) (results : pv_results) : M pv_results :=
  (if render_output_video o then pv_render o frame_output_folder Fs
   else ret tt) ;;
  pv_cleanup_extracted o frame_output_folder frame_output_folder_created
    frame_filenames ;;
  ret results.

Definition process_video (o : ProcessVideoOptions) : M pv_results :=
  p <- pv_pipeline o ;;
  let '(frame_output_folder, frame_output_folder_created, frame_filenames,
        Fs, results) := p in
  pv_finish o frame_output_folder frame_output_folder_created
    frame_filenames Fs results.

(** *** process_video_folder (lines 230-356)

    The body of the function is the indented block that follows its [def]:
    it ends with the choice of the output folder (line 356), before the
    unindented [def process_single_video] of line 360.  The function
    returns there. *)

(** Lines 237-246: the two result files. *)
Definition pvf_validate (o : ProcessVideoOptions) : M (path * path) :=
  is_folder <- inspect (isdir (input_video_file o)) ;;
  assert is_folder "input_video_file is not a folder" ;;
  match output_json_file o with
  | None =>
      raise (AssertionError
        "When processing a folder, you must specify an output .json file")
  | Some video_json =>
      assert (endswith video_json ".json") "" ;;
      let frames_json := replace video_json ".json" ".frames.json" in
      makedirs (dirname video_json) ;;
      ret (video_json, frames_json)
  end.

(** Lines 251-265.  The local [tempdir] is bound in the [else] branch only;
    the second component is its value when bound. *)
Definition pvf_frame_output_folder (o : ProcessVideoOptions)
    : M (path * option path) :=
  r <- match frame_folder o with
       | Some folder => ret (folder, None)
       | None =>
           makedirs tempdir ;;
           u <- draw_uuid ;;
           let user_subdirectory := getuser +:+ "_" +:+ u in
           let user_tempdir := join tempdir user_subdirectory in
           makedirs user_tempdir ;;
           u' <- draw_uuid ;;
           ret (join tempdir
                  (basename (input_video_file o) +:+ "_frames_" +:+ u'),
                Some tempdir)
       end ;;
  makedirs (fst r) ;;
  ret r.

(** Lines 237-274: validation and frame extraction. *)
Definition pvf_extract (o : ProcessVideoOptions)
    : M (path * path * path * option path
         * (list (list path) * list Q * list path)) :=
  files <- pvf_validate o ;;
  let '(video_json, frames_json) := files in
  folder <- pvf_frame_output_folder o ;;
  let '(frame_output_folder, tempdir_local) := folder in
  print ExtractingFrames ;;
  extracted <-
    call (video_folder_to_frames (input_video_file o) frame_output_folder
            (recursive o) (negb (reuse_frames_if_available o)) (n_cores o)
            (frame_sample o) (verbose o)) ;;
  ret (video_json, frames_json, frame_output_folder, tempdir_local,
       extracted).

(** Lines 286-287. *)
Definition pvf_image_file_names (o : ProcessVideoOptions)
    (image_file_names : list path) : list path :=
  match debug_max_frames o with
  | Some k =>
      if (0 <? k)%Z then take (Z.to_nat k) image_file_names
      else image_file_names
  | None => image_file_names
  end.

(** Lines 292-309. *)
Definition pvf_detect (o : ProcessVideoOptions)
    (frames_json frame_output_folder : path) (image_file_names : list path)
    (Fs : list Q) : M (option (list im_result)) :=
  reuse <- reuse_results o frames_json ;;
  if reuse : bool then
    print (LoadingResults frames_json) ;;
    ret None
  else
    print RunningMegaDetector ;;
    results <- run_detector o image_file_names ;;
    write_results o results frames_json frame_output_folder
      (RatesOfVideos Fs) ;;
    ret (Some results).

(** Line 315. *)
Definition pvf_aggregate (frames_json video_json : path) : M unit :=
  print ConvertingResults ;;
  emit (CallAggregate frames_json video_json) ;;
  call (frame_results_to_video_results frames_json video_json).

(** Lines 323-341.  Line 330 reads the local [tempdir]. *)
Definition pvf_render_frames (o : ProcessVideoOptions)
    (frames_json frame_output_folder : path) (tempdir_local : option path)
    : M (path * bool * list path) :=
  dir <- match frame_rendering_folder o with
         | Some folder => ret (folder, false)
         | None =>
             match tempdir_local with
             | Some t =>
                 ret (join t
                        (basename (input_video_file o) +:+ "_detections"),
                      true)
             | None => raise (UnboundLocalError "tempdir")
             end
         end ;;
  let '(frame_rendering_output_dir, frame_rendering_folder_created) := dir in
  makedirs frame_rendering_output_dir ;;
  emit (CallVisualize frames_json frame_rendering_output_dir
          frame_output_folder (rendering_confidence_threshold o)) ;;
  detected_frame_files <-
    call (visualize_detector_output frames_json frame_rendering_output_dir
            frame_output_folder (rendering_confidence_threshold o)
            (Some true) (Some (-1)%Z)) ;;
  ret (frame_rendering_output_dir, frame_rendering_folder_created,
       detected_frame_files).

(** Lines 344-356: [output_folder_is_input_folder] and
    [output_video_folder]. *)
Definition pvf_output_video_folder (o : ProcessVideoOptions)
    : M (bool * path) :=
  match output_video_file o with
  | Some output =>
      is_file <- inspect (isfile output) ;;
      if is_file : bool then
        raise (ValueError
          "Rendering videos for a folder, but an existing file was specified as output")
      else if String.eqb output (input_video_file o) then
        ret (true, input_video_file o)
      else
        makedirs output ;;
        ret (false, output)
  | None => ret (true, input_video_file o)
  end.

(** Lines 320-356, the rendering block: the frames are rendered and the
    output folder is chosen; the block, and the function, end there. *)
Definition pvf_render (o : ProcessVideoOptions)
    (frames_json frame_output_folder : path) (tempdir_local : option path)
    : M unit :=
  rendered <- pvf_render_frames o frames_json frame_output_folder
                tempdir_local ;;
  target <- pvf_output_video_folder o ;;
  ret tt.

(** Lines 286-356: what follows once some frame has been extracted. *)
Definition pvf_process_frames (o : ProcessVideoOptions)
    (video_json frames_json frame_output_folder : path)
    (tempdir_local : option path) (all_frames : list path) (Fs : list Q)
    : M unit :=
  let image_file_names := pvf_image_file_names o all_frames in
  pvf_detect o frames_json frame_output_folder image_file_names Fs ;;
  pvf_aggregate frames_json video_json ;;
  if render_output_video o then
    pvf_render o frames_json frame_output_folder tempdir_local
  else ret tt.

Definition process_video_folder (o : ProcessVideoOptions) : M unit :=
  x <- pvf_extract o ;;
  let '(video_json, frames_json, frame_output_folder, tempdir_local,
        (frame_filenames, Fs, video_filenames)) := x in
  let image_file_names := concat frame_filenames in
  if (length image_file_names =? 0)%nat then
    if (length video_filenames =? 0)%nat then
      print (NoVideosFound (input_video_file o))
    else print (NoFramesExtracted (input_video_file o))
  else
    pvf_process_frames o video_json frames_json frame_output_folder
      tempdir_local image_file_names Fs.

(** *** process_single_video (lines 360-391)

    A function of the module, defined after [process_video_folder].  Two
    of the names it reads are neither parameters nor locals, so each is
    looked up among the module's globals when the line is run:
    [video_filenames] (line 361) and [input_video_file_abs] (line 382).  No
    statement of the module binds either; [Globals] holds what a call
    finds under the two names, and [unbound] is the module as it stands. *)

Record Globals := {
  video_filenames : option (list path);
  input_video_file_abs : option path
}.

Definition unbound : Globals :=
  {| video_filenames := None; input_video_file_abs := None |}.

Definition global {A} (name : string) (value : option A) : M A :=
  match value with
  | Some a => ret a
  | None => raise (NameError name)
  end.

(** [l.index(x)] and [l[i]]. *)
Fixpoint list_index (x : path) (l : list path) : option nat :=
  match l with
  | [] => None
  | y :: l' => if String.eqb y x then Some O else S <$> list_index x l'
  end.

Definition index_of (x : path) (l : list path) : M nat :=
  match list_index x l with
  | Some i => ret i
  | None => raise (ValueError "x is not in list")
  end.

Definition subscript {A} (l : list A) (i : nat) : M A :=
  match l !! i with
  | Some a => ret a
  | None => raise IndexError
  end.

(** Lines 373-374: the rendered frames whose path starts with the video's
    rendered-frame folder. *)
Definition video_frame_files_of (video_frame_output_folder : path)
    (detected_frame_files : list path) : list path :=
  List.filter (λ fn, startswith fn video_frame_output_folder)
    detected_frame_files.

(** Lines 361-391, the body of the worker. *)
Definition process_single_video (g : Globals) (video_file : path)
    (o : ProcessVideoOptions) (frame_rendering_output_dir : path)
    (detected_frame_files : list path) (output_folder_is_input_folder : bool)
    (output_video_folder : path) (Fs : list Q) (frame_sample : option Z)
    : M unit :=
  names <- global "video_filenames" (video_filenames g) ;;
  i <- index_of video_file names ;;
  video_fs <- subscript Fs i ;;
  rendering_fs <- rendering_rate frame_sample video_fs ;;
  let input_video_file_relative :=
    relpath video_file (input_video_file o) in
  let video_frame_output_folder :=
    join frame_rendering_output_dir input_video_file_relative in
  found <- inspect (isdir video_frame_output_folder) ;;
  assert found "Could not find frame folder for video" ;;
  let video_frame_files :=
    video_frame_files_of video_frame_output_folder detected_frame_files in
  assert (0 <? length video_frame_files)%nat
    "Could not find rendered frames for video" ;;
  video_output_file <-
    (if output_folder_is_input_folder then
       video_abs <- global "input_video_file_abs" (input_video_file_abs g) ;;
       ret (insert_before_extension video_abs "annotated" "_")
     else ret (join output_video_folder input_video_file_relative)) ;;
  makedirs (dirname video_output_file) ;;
  print (RenderingDetections input_video_file_relative video_output_file
           rendering_fs video_fs) ;;
  stitch video_frame_files rendering_fs video_output_file (fourcc o).

(** *** The statements at module level (lines 393-434)

    The pool that maps the worker over the videos and the two clean-up
    blocks are not indented: they belong to no function, and are run once,
    when the module is loaded, after the [def]s above.  The first of them,
    line 394, reads [options], which no statement run before it binds. *)
Definition module_level_statements : M unit := raise (NameError "options").

(** *** options_to_command (lines 440-481) *)

Definition dq : string := String (Ascii.ascii_of_nat 34) "".

Definition quoted (s : string) : string := " " +:+ dq +:+ s +:+ dq.

Definition flag (b : bool) (text cmd : string) : string :=
  if b then cmd +:+ text else cmd.

Definition setting {A} (v : option A) (text : A → string) (cmd : string)
    : string :=
  match v with
  | Some a => cmd +:+ text a
  | None => cmd
  end.

Definition options_to_command (o : ProcessVideoOptions) : string :=
  let cmd := "python process_video.py" in
  let cmd := cmd +:+ quoted (model_file o) in
  let cmd := cmd +:+ quoted (input_video_file o) in
  let cmd := flag (recursive o) " --recursive" cmd in
  let cmd := setting (frame_folder o)
               (λ v, " --frame_folder" +:+ quoted v) cmd in
  let cmd := setting (frame_rendering_folder o)
               (λ v, " --frame_rendering_folder" +:+ quoted v) cmd in
  let cmd := setting (output_json_file o)
               (λ v, " --output_json_file" +:+ quoted v) cmd in
  let cmd := setting (output_video_file o)
               (λ v, " --output_video_file" +:+ quoted v) cmd in
  let cmd := flag (keep_extracted_frames o) " --keep_extracted_frames" cmd in
  let cmd := flag (reuse_results_if_available o)
               " --reuse_results_if_available" cmd in
  let cmd := flag (reuse_frames_if_available o)
               " --reuse_frames_if_available" cmd in
  let cmd := flag (render_output_video o) " --render_output_video" cmd in
  let cmd := flag (keep_rendered_frames o) " --keep_rendered_frames" cmd in
  let cmd := setting (rendering_confidence_threshold o)
               (λ v, " --rendering_confidence_threshold " +:+ str_float v)
               cmd in
  let cmd := setting (json_confidence_threshold o)
               (λ v, " --json_confidence_threshold " +:+ str_float v) cmd in
  let cmd := setting (n_cores o) (λ v, " --n_cores " +:+ pretty v) cmd in
  let cmd := setting (frame_sample o)
               (λ v, " --frame_sample " +:+ pretty v) cmd in
  let cmd := setting (debug_max_frames o)
               (λ v, " --debug_max_frames " +:+ pretty v) cmd in
  let cmd := setting (class_mapping_filename o)
               (λ v, " --class_mapping_filename " +:+ v) cmd in
  let cmd := setting (fourcc o) (λ v, " --fourcc " +:+ v) cmd in
  cmd.

End Orchestrator.

(** ** A concrete set of collaborators

    Stand-ins for the collaborators, used to run the orchestrator on
    concrete inputs; each follows the interface the spec gives for it.
    Extraction writes [frames] frame files per video at 30 fps, a folder
    holds the listed [videos], the detector returns one record per image,
    results files are written to the file system, and stitching fails for
    the outputs listed in [unwritable].  The quotient of a rate is taken
    exactly, which is what the machine computes on the rates used below
    (30 / 5 is 6).  The general theorems hold for every set of
    collaborators; the stand-ins serve to run them on an input. *)

Module Demo.

Definition strip_prefix (pre s : string) : string :=
  if startswith s pre
  then String.substring (String.length pre)
         (String.length s - String.length pre) s
  else s.

Definition relative_to (base p : path) : path :=
  strip_prefix (if endswith base "/" then base else base +:+ "/") p.

Definition frame_name (k : nat) : string :=
  "frame" +:+ pretty k +:+ ".jpg".

Definition frames_in (folder : path) (frames : nat) : list path :=
  map (λ k, join folder (frame_name k)) (seq 0 frames).

Definition write_files (files : list path) (c : content) (fs : FS) : FS :=
  foldr (λ p acc, <[p := File c]> acc) fs files.

(** Modelled from the spec: the frame extractor
    ([detection.video_utils.video_to_frames]) is not among the sources.
    [extract(video, destDir, everyN, overwrite) → (orderedFramePaths,
    sourceFps)]: the frames are written below [destDir], in order. *)
Definition extract_video (frames : nat) (video folder : path) (fs : FS)
    : outcome (list path * Q) * FS :=
  if isfile video fs
  then (Ok (frames_in folder frames, 30%Q),
        write_files (frames_in folder frames) Blob fs)
  else (Raise (CollaboratorError "cannot open video"), fs).

(** Modelled from the spec: the folder variant of the frame extractor
    ([detection.video_utils.video_folder_to_frames]) is not among the
    sources.  [extractAll(inputDir, destBase, ...) → (perVideoFramePaths,
    perVideoFps, videoPaths)], "all rooted under one workspace whose layout
    mirrors the input directory": it finds the listed [videos] that exist
    below the input folder and extracts each into a folder of its own below
    [base], under the video's path relative to the input folder. *)
Definition extract_folder (frames : nat) (videos : list path)
    (input base : path) (fs : FS)
    : outcome (list (list path) * list Q * list path) * FS :=
  let found := List.filter (λ v, below input v && isfile v fs) videos in
  let folders := map (λ v, join base (relative_to input v)) found in
  let per_video := map (λ d, frames_in d frames) folders in
  (Ok (per_video, map (λ _, 30%Q) found, found),
   write_files (concat per_video) Blob
     (foldr (λ d acc, <[d := Dir]> acc) fs folders)).

(** Modelled from the spec: the detection engine
    ([detection.run_detector_batch]) is not among the sources.
    [runBatch(modelRef, imagePaths, ...) → perImageDetections]: one record
    per image, here without detections; [persist(results, path, metadata)]
    writes the records, the detector and the metadata, with the image paths
    relative to the base folder. *)
Definition detect (images : list path) : list im_result :=
  map (λ p, {| im_file := p; im_detections := [] |}) images.

Definition persist (results : list im_result) (output base : path)
    (detector : string) (Fs : frame_rate) (fs : FS) : outcome unit * FS :=
  if isdir output fs then (Raise (IsADirectoryError output), fs)
  else
    (Ok tt,
     <[output := File (ResultsFile
         {| doc_images :=
              map (λ r, {| im_file := relative_to base (im_file r);
                           im_detections := im_detections r |}) results;
            doc_detector := detector;
            doc_video_frame_rate := Fs |})]> fs).

(** Modelled from the spec: the frame renderer
    ([md_visualization.visualize_detector_output]) is not among the
    sources.  The spec gives it as
    [render(resultPath, framesDir, outDir, confThreshold, preserveStructure)
    → renderedFramePaths], which "draws detection boxes onto frame copies",
    and says that the relative subpath of a frame is preserved through
    rendering.  Which frames are rendered is said neither by the spec nor
    by the sources; the stand-in writes one rendered frame below [out_dir]
    for every image recorded in the results file, under the image's
    relative path.  No theorem below rests on that choice: it only
    supplies a list of rendered frames to the runs of the examples. *)
Definition render (detector_output_path out_dir images_dir : path)
    (fs : FS) : outcome (list path) * FS :=
  match fs_json_load detector_output_path fs with
  | Raise e => (Raise e, fs)
  | Ok doc =>
      let rendered := map (λ r, join out_dir (im_file r)) (doc_images doc) in
      (Ok rendered,
       write_files rendered Blob
         (foldr (λ p acc, <[dirname p := Dir]> acc) fs rendered))
  end.

(** Modelled from the spec: the video assembler
    ([detection.video_utils.frames_to_video]) is not among the sources.
    [assemble(orderedFramePaths, frameRate, outputPath, codec) →
    outputVideoFile]; it fails for the outputs it cannot write. *)
Definition assemble (unwritable : list path) (frames : list path)
    (output : path) (fs : FS) : outcome unit * FS :=
  if bool_decide (output ∈ unwritable)
  then (Raise (CollaboratorError "cannot write video"), fs)
  else (Ok tt, <[output := File Blob]> fs).

(** Modelled from the spec: the result aggregator
    ([detection.video_utils.frame_results_to_video_results]) is not among
    the sources.  [aggregate(frameLevelResultPath) → videoLevelResultPath];
    the content of the aggregate is not modelled. *)
Definition aggregate (frames_json video_json : path) (fs : FS)
    : outcome unit * FS :=
  match fs_json_load frames_json fs with
  | Raise e => (Raise e, fs)
  | Ok doc =>
      if isdir video_json fs then (Raise (IsADirectoryError video_json), fs)
      else (Ok tt, <[video_json := File (ResultsFile doc)]> fs)
  end.

Definition collaborators (frames : nat) (videos unwritable : list path)
    : Collaborators := {|
  gettempdir := "/tmp";
  getuser := "user";
  uuid1 := λ k, "uuid" +:+ pretty k;
  truediv := λ x n, (x / inject_Z n)%Q;
  relpath := λ p start, relative_to start p;
  insert_before_extension := λ p s separator, p +:+ separator +:+ s;
  str_float := λ q, pretty (Qnum q) +:+ "/" +:+ pretty (Zpos (Qden q));
  video_to_frames := λ video folder every_n overwrite,
    extract_video frames video folder;
  video_folder_to_frames :=
    λ input base recursive overwrite n_threads every_n verbose,
    extract_folder frames videos input base;
  load_and_run_detector_batch :=
    λ model images confidence n_cores quiet class_mapping fs,
    (Ok (detect images), fs);
  write_results_to_file := persist;
  frame_results_to_video_results := aggregate;
  visualize_detector_output :=
    λ results out_dir images_dir confidence preserve width,
    render results out_dir images_dir;
  frames_to_video := λ frames rate output codec,
    assemble unwritable frames output
|}.

Definition start (fs : FS) : World :=
  {| fs := fs; log := []; uuids_drawn := 0 |}.

(** One video and a frame folder of the caller's that holds a file of the
    caller's own. *)
Definition one_video : FS :=
  <["/data/v.mp4" := File Blob]>
    (<["/data/frames" := Dir]>
       (<["/data/frames/notes.txt" := File Blob]> ∅)).

Definition options (input : path)
    (output_json output_video frames_to rendered_to : option path)
    (render keep_extracted keep_rendered force_extracted force_rendered
     reuse : bool)
    (stride : option Z) (cap : Z) : ProcessVideoOptions := {|
  model_file := "MDV5A";
  input_video_file := input;
  output_json_file := output_json;
  output_video_file := output_video;
  frame_folder := frames_to;
  frame_rendering_folder := rendered_to;
  render_output_video := render;
  keep_rendered_frames := keep_rendered;
  keep_extracted_frames := keep_extracted;
  force_extracted_frame_folder_deletion := force_extracted;
  force_rendered_frame_folder_deletion := force_rendered;
  reuse_results_if_available := reuse;
  reuse_frames_if_available := false;
  recursive := false;
  verbose := false;
  fourcc := None;
  rendering_confidence_threshold := None;
  json_confidence_threshold := Some (5 # 1000)%Q;
  frame_sample := stride;
  n_cores := Some 1;
  debug_max_frames := Some cap;
  class_mapping_filename := None
|}.

(** The collaborators of the single-video examples: three frames. *)
Definition single : Collaborators := collaborators 3 [] [].

(** The caller names the frame folder and sets the force flag. *)
Definition forced_on_callers_folder : ProcessVideoOptions :=
  options "/data/v.mp4" None None (Some "/data/frames") None
    false false false true false false None (-1).

(** The caller names the frame folder; nothing else is set. *)
Definition callers_folder : ProcessVideoOptions :=
  options "/data/v.mp4" None None (Some "/data/frames") None
    false false false false false false None (-1).

(** A folder of videos, and the folder run over it: every path is named by
    the caller. *)
Definition folder_of (videos : list path) : FS :=
  <["/videos" := Dir]> (write_files videos Blob ∅).

Definition folder_options (render : bool) (cap : Z) : ProcessVideoOptions :=
  options "/videos" (Some "/out/results.json") (Some "/out/videos")
    (Some "/work/frames") (Some "/work/rendered")
    render false false false false false None cap.

Definition five_videos : list path :=
  ["/videos/a.mp4"; "/videos/b.mp4"; "/videos/c.mp4"; "/videos/d.mp4";
   "/videos/e.mp4"].

(** Five videos, two frames each; the output for the first cannot be
    written. *)
Definition first_of_five_fails : Collaborators :=
  collaborators 2 five_videos ["/out/videos/a.mp4"].

(** Two videos, the name of one a prefix of the name of the other. *)
Definition clips : list path := ["/videos/clip.mp4"; "/videos/clip.mp4.avi"].

(** A results file left by an earlier run, and the options that reuse it. *)
Definition one_video_with_results : FS :=
  <["/data/v.mp4.json" :=
      File (ResultsFile {| doc_images := detect ["frame0.jpg"];
                           doc_detector := "MDV5A";
                           doc_video_frame_rate := RateOfVideo 30 |})]>
    one_video.

Definition reusing : ProcessVideoOptions :=
  options "/data/v.mp4" None None (Some "/data/frames") None
    false false false false false true None (-1).

(** Nothing but the video is named: the run creates its frame folder, here
    "/tmp/process_camera_trap_video/user_uuid0/v.mp4_frames_uuid1". *)
Definition created_folder : path :=
  "/tmp/process_camera_trap_video/user_uuid0/v.mp4_frames_uuid1".

(** The output path is the path of the frame folder the run creates. *)
Definition output_is_created_folder : ProcessVideoOptions :=
  options "/data/v.mp4" (Some created_folder) None None None
    false false false false false false None (-1).

(** The rendered-frame force flag is set. *)
Definition forced_rendered : ProcessVideoOptions :=
  options "/data/v.mp4" None None None None
    true false false false true false None (-1).

(** Rendering with a cap of one frame on detection. *)
Definition capped_render : ProcessVideoOptions :=
  options "/data/v.mp4" None None (Some "/data/frames") None
    true false false false false false None 1.

(** Rendering with every fifth frame sampled. *)
Definition strided_render : ProcessVideoOptions :=
  options "/data/v.mp4" None None (Some "/data/frames") None
    true false false false false false (Some 5) (-1).

Definition strided_folder : ProcessVideoOptions :=
  options "/videos" (Some "/out/results.json") (Some "/out/videos")
    (Some "/work/frames") (Some "/work/rendered")
    true false false false false false (Some 5) (-1).

(** The rendered frames of one video of a folder. *)
Definition rendered_a : FS :=
  <["/work/rendered/a.mp4" := Dir]>
    (<["/work/rendered/a.mp4/frame0.jpg" := File Blob]> ∅).

(** The rendered frames of the two clips. *)
Definition rendered_clips : FS :=
  <["/work/rendered/clip.mp4" := Dir]>
    (<["/work/rendered/clip.mp4.avi" := Dir]>
       (<["/work/rendered/clip.mp4/frame0.jpg" := File Blob]>
          (<["/work/rendered/clip.mp4.avi/frame0.jpg" := File Blob]> ∅))).

(** The module's globals once a caller has bound the list of videos. *)
Definition bound (videos : list path) : Globals :=
  {| video_filenames := Some videos; input_video_file_abs := None |}.

End Demo.

(** ** Reading a run *)

(** The events a computation adds to the log when started in [w]. *)
Definition emitted {A} (m : M A) (w : World) : list event :=
  drop (length (log w)) (log (fst (m w))).

(** Started in [w], [m] only appends to the log, and every event it appends
    satisfies [P]. *)
Definition only_at {A} (P : event → Prop) (m : M A) (w : World) : Prop :=
  ∃ d, log (fst (m w)) = log w ++ d ∧ Forall P d.

Definition only {A} (P : event → Prop) (m : M A) : Prop :=
  ∀ w, only_at P m w.

Definition is_rmtree (e : event) : bool :=
  match e with CallRmtree _ => true | _ => false end.

Definition is_removal (e : event) : bool :=
  match e with CallRmtree _ | CallRemove _ => true | _ => false end.

Definition is_detector_call (e : event) : bool :=
  match e with CallDetector _ _ _ _ _ _ => true | _ => false end.

Definition is_stitch (e : event) : bool :=
  match e with CallFramesToVideo _ _ _ _ => true | _ => false end.

Definition is_warning (e : event) : bool :=
  match e with
  | Print (WarnDeletingRenderedFrames _ _)
  | Print (WarnRemovingExtractedFrames _ _)
  | Print (WarnDeletingFrames _ _) => true
  | _ => false
  end.

Definition detector_calls (d : list event) : nat :=
  length (List.filter is_detector_call d).

(** The frame lists handed to the video assembler, in call order. *)
Definition stitched (d : list event) : list (list path) :=
  omap (λ e, match e with
             | CallFramesToVideo frames _ _ _ => Some frames
             | _ => None
             end) d.

(** The rate stitching is specified to use: the source rate, divided by
    the sampling stride when one is set; the quotient is the float the
    division evaluates to. *)
Definition stated_rate {E : Collaborators} (frame_sample : option Z) (Fs : Q)
    : Q :=
  match frame_sample with
  | None => Fs
  | Some n => truediv Fs n
  end.

(** The events of a run that name the frames detection works on, or what
    the renderer is handed. *)
Definition cap_event {E : Collaborators} (o : ProcessVideoOptions)
    (folder : path) (images : list path) (ev : event) : Prop :=
  match ev with
  | CallDetector _ image_file_names _ _ _ _ => image_file_names = images
  | CallVisualize detector_output_path out_dir images_dir threshold =>
      detector_output_path = pv_output_json_file o
      ∧ out_dir = fst (pv_rendering_output_dir o)
      ∧ images_dir = folder
      ∧ threshold = rendering_confidence_threshold o
  | _ => True
  end.

(** The outputs handed to the video assembler, in call order. *)
Definition stitch_outputs (d : list event) : list path :=
  omap (λ e, match e with
             | CallFramesToVideo _ _ output _ => Some output
             | _ => None
             end) d.

(** [needle in s]. *)
Fixpoint contains (s needle : string) : bool :=
  startswith s needle
  || match s with
     | EmptyString => false
     | String _ r => contains r needle
     end.

(** The options with both keep flags set: no clean-up is attempted. *)
Definition keep_all (o : ProcessVideoOptions) : ProcessVideoOptions := {|
  model_file := model_file o;
  input_video_file := input_video_file o;
  output_json_file := output_json_file o;
  output_video_file := output_video_file o;
  frame_folder := frame_folder o;
  frame_rendering_folder := frame_rendering_folder o;
  render_output_video := render_output_video o;
  keep_rendered_frames := true;
  keep_extracted_frames := true;
  force_extracted_frame_folder_deletion :=
    force_extracted_frame_folder_deletion o;
  force_rendered_frame_folder_deletion :=
    force_rendered_frame_folder_deletion o;
  reuse_results_if_available := reuse_results_if_available o;
  reuse_frames_if_available := reuse_frames_if_available o;
  recursive := recursive o;
  verbose := verbose o;
  fourcc := fourcc o;
  rendering_confidence_threshold := rendering_confidence_threshold o;
  json_confidence_threshold := json_confidence_threshold o;
  frame_sample := frame_sample o;
  n_cores := n_cores o;
  debug_max_frames := debug_max_frames o;
  class_mapping_filename := class_mapping_filename o
|}.

(** The options with the three settings that [options_to_command] never
    reads replaced. *)
Definition with_unemitted (force_extracted force_rendered verbose' : bool)
    (o : ProcessVideoOptions) : ProcessVideoOptions := {|
  model_file := model_file o;
  input_video_file := input_video_file o;
  output_json_file := output_json_file o;
  output_video_file := output_video_file o;
  frame_folder := frame_folder o;
  frame_rendering_folder := frame_rendering_folder o;
  render_output_video := render_output_video o;
  keep_rendered_frames := keep_rendered_frames o;
  keep_extracted_frames := keep_extracted_frames o;
  force_extracted_frame_folder_deletion := force_extracted;
  force_rendered_frame_folder_deletion := force_rendered;
  reuse_results_if_available := reuse_results_if_available o;
  reuse_frames_if_available := reuse_frames_if_available o;
  recursive := recursive o;
  verbose := verbose';
  fourcc := fourcc o;
  rendering_confidence_threshold := rendering_confidence_threshold o;
  json_confidence_threshold := json_confidence_threshold o;
  frame_sample := frame_sample o;
  n_cores := n_cores o;
  debug_max_frames := debug_max_frames o;
  class_mapping_filename := class_mapping_filename o
|}.

(** ** Reading a failed run *)

(** If the run of [m] from [w] raises, every event it appended satisfies
    [P]. *)
Definition only_if_raises {A} (P : event → Prop) (m : M A) (w : World)
    : Prop :=
  ∀ e, snd (m w) = Raise e → Forall P (emitted m w).


(** The events [m] appends come in two stages: first events that satisfy
    [P], then events that satisfy [Q]. *)
Definition in_two_stages {A} (P Q : event → Prop) (m : M A) : Prop :=
  ∀ w, ∃ d1 d2, emitted m w = d1 ++ d2 ∧ Forall P d1 ∧ Forall Q d2.

(** ** Further inputs *)

Module Inputs.

(** The options of [Demo.callers_folder] with the frame cap set to None. *)
Definition uncapped : ProcessVideoOptions := {|
  model_file := "MDV5A";
  input_video_file := "/data/v.mp4";
  output_json_file := None;
  output_video_file := None;
  frame_folder := Some "/data/frames";
  frame_rendering_folder := None;
  render_output_video := false;
  keep_rendered_frames := false;
  keep_extracted_frames := false;
  force_extracted_frame_folder_deletion := false;
  force_rendered_frame_folder_deletion := false;
  reuse_results_if_available := false;
  reuse_frames_if_available := false;
  recursive := false;
  verbose := false;
  fourcc := None;
  rendering_confidence_threshold := None;
  json_confidence_threshold := Some (5 # 1000)%Q;
  frame_sample := None;
  n_cores := Some 1;
  debug_max_frames := None;
  class_mapping_filename := None
|}.

(** Stitching the one video fails. *)
Definition unwritable_video : Collaborators :=
  Demo.collaborators 3 [] ["/data/v.mp4.detections.mp4"].

(** A results file that does not hold JSON. *)
Definition one_video_with_garbage : FS :=
  <["/data/v.mp4.json" := File Blob]> Demo.one_video.

Definition five : Collaborators := Demo.collaborators 2 Demo.five_videos [].

(** A folder run that renders, with a frame folder of the caller's and no
    folder for the rendered frames. *)
Definition no_rendering_folder : ProcessVideoOptions :=
  Demo.options "/videos" (Some "/out/results.json") (Some "/out/videos")
    (Some "/work/frames") None
    true false false false false false None (-1).

(** A single-video run that renders, with both keep flags and both force
    flags set. *)
Definition keeping : ProcessVideoOptions :=
  Demo.options "/data/v.mp4" None None (Some "/data/frames") None
    true true true true true false None (-1).

End Inputs.

(** * merge_detections.py

    Detections of one or more source results files are copied into the
    images of a target results file, and the result is written to a third
    file.  Parsed JSON is modelled by records: a results file holds
    [images], [info] and [detection_categories]; keys the function never
    reads are left out, and a key it tests for is an [option].  A number
    is the rational it stands for, so that comparisons are exact; the one
    product the function takes is left to [mul].  What the function prints,
    and the progress bar, are not modelled. *)

Module Merge.

Record Det := {
  category : string;
  conf : Q;
  bbox : list Q;
  transferred_from : option string
}.

(** [detections] is None when the key is absent or holds None: the function
    treats the two alike, and leaves such an image as it is.
    [max_detection_conf] is None when the key is absent. *)
Record Image := {
  file : string;
  detections : option (list Det);
  max_detection_conf : option Q
}.

Record Info := {
  detector : option string;
  detections_transferred_from : option (list string)
}.

(** [detection_categories] is a dict: its entries in file order. *)
Record Results := {
  images : list Image;
  info : Info;
  detection_categories : list (string * string)
}.

(** class MergeDetectionsOptions (lines 24-42).  The two category lists
    hold ints, as the command line delivers them; lines 58-62 convert their
    elements with [int], which leaves ints as they are. *)
Record MergeDetectionsOptions := {
  max_detection_size : Q;
  min_detection_size : Q;
  source_confidence_thresholds : list Q;
  target_confidence_threshold : Q;
  categories_to_include : option (list Z);
  categories_to_exclude : option (list Z);
  merge_empty_only : bool;
  iou_threshold : Q
}.

Definition default_options : MergeDetectionsOptions := {|
  max_detection_size := (101 # 100)%Q;
  min_detection_size := 0%Q;
  source_confidence_thresholds := [(8 # 10)%Q];
  target_confidence_threshold := (8 # 10)%Q;
  categories_to_include := None;
  categories_to_exclude := None;
  merge_empty_only := false;
  iou_threshold := (9 # 10)%Q
|}.

(** ** Files

    A file either holds a results document or something [json.load]
    rejects. *)

Inductive entry :=
| Folder
| Json (d : Results)
| NotJson.

Abbreviation Files := (gmap path entry).

Definition isfile (p : path) (fs : Files) : bool :=
  match fs !! p with
  | Some (Json _) | Some NotJson => true
  | _ => false
  end.

Definition is_folder (e : entry) : bool :=
  match e with Folder => true | _ => false end.

(** [os.makedirs(p, exist_ok=True)]. *)
Definition makedirs (p : path) (fs : Files) : outcome unit * Files :=
  os_makedirs Folder is_folder p fs.
Arguments makedirs : simpl never.

(** [open(p,'r'); json.load(f)]. *)
Definition json_load (p : path) (fs : Files) : outcome Results :=
  match fs !! p with
  | Some (Json d) => Ok d
  | Some NotJson => Raise (JSONDecodeError p)
  | Some Folder => Raise (IsADirectoryError p)
  | None => Raise (FileNotFoundError p)
  end.

(** [open(p,'w'); json.dump(d,f)]. *)
Definition json_dump (d : Results) (p : path) (fs : Files)
    : outcome unit * Files :=
  match fs !! p with
  | Some Folder => (Raise (IsADirectoryError p), fs)
  | _ => (Ok tt, <[p := Json d]> fs)
  end.

(** ** Computations that may raise *)

Definition and_then {A B} (r : outcome A) (k : A → outcome B) : outcome B :=
  match r with
  | Ok a => k a
  | Raise e => Raise e
  end.

Declare Scope result_scope.
Delimit Scope result_scope with result.
Notation "x <- r ;; k" := (and_then r (λ x, k))
  (at level 100, r at next level, right associativity) : result_scope.
Notation "r ;; k" := (and_then r (λ _, k))
  (at level 100, right associativity) : result_scope.
#[local] Open Scope result_scope.

Definition check (b : bool) (msg : string) : outcome unit :=
  if b then Ok tt else Raise (AssertionError msg).

(** [[x for x in l if f(x)]], left at the first exception. *)
Fixpoint keep_if {A} (f : A → outcome bool) (l : list A)
    : outcome (list A) :=
  match l with
  | [] => Ok []
  | x :: l' =>
      b <- f x ;;
      rest <- keep_if f l' ;;
      Ok (if b : bool then x :: rest else rest)
  end.

(** [for x in l: s = f(s, x)], left at the first exception. *)
Fixpoint for_state {A S} (f : S → A → outcome S) (l : list A) (s : S)
    : outcome S :=
  match l with
  | [] => Ok s
  | x :: l' => s' <- f s x ;; for_state f l' s'
  end.

(** [max(l)]: the first of the largest elements; [max([])] raises. *)
Definition py_max (l : list Q) : outcome Q :=
  match l with
  | [] => Raise (ValueError "max() arg is an empty sequence")
  | x :: l' => Ok (fold_left (λ m y, if Qle_bool y m then m else y) l' x)
  end.

Section Merging.

(** [ct_utils.get_iou] and the builtin [int], which may raise. *)
Variable get_iou : list Q → list Q → outcome Q.
Variable int : string → outcome Z.

(** [x*y] on two numbers of a results file: the number the product
    evaluates to, which for floats is the product as the machine rounds
    it. *)
Variable mul : Q → Q → Q.

(** [det['bbox'][2]*det['bbox'][3]]. *)
Definition size (det : Det) : outcome Q :=
  match bbox det !! 2%nat, bbox det !! 3%nat with
  | Some w, Some h => Ok (mul w h)
  | _, _ => Raise IndexError
  end.

(** Lines 174-178, the condition of the comprehension. *)
Definition within_size (o : MergeDetectionsOptions) (det : Det)
    : outcome bool :=
  s <- size det ;;
  Ok (Qle_bool s (max_detection_size o) && Qle_bool (min_detection_size o) s).

(** Lines 190-194: [nomatch] after the loop over the target's detections
    of the category, which is left at the first match. *)
Fixpoint nomatch (o : MergeDetectionsOptions) (det : Det)
    (target_detections_this_category : list Det) : outcome bool :=
  match target_detections_this_category with
  | [] => Ok true
  | target_detection :: rest =>
      iou <- get_iou (bbox det) (bbox target_detection) ;;
      if Qle_bool (iou_threshold o) iou then Ok false else nomatch o det rest
  end.

(** [det['transferred_from'] = source_detector_name]. *)
Definition mark (source_detector_name : string) (det : Det) : Det := {|
  category := category det;
  conf := conf det;
  bbox := bbox det;
  transferred_from := Some source_detector_name
|}.

(** Lines 180-197: the detections of one category that are transferred. *)
Fixpoint transfer_from_category (o : MergeDetectionsOptions)
    (source_detector_name : string) (source_confidence_threshold : Q)
    (target_detections_this_category : list Det)
    (source_detections_this_category_filtered : list Det)
    : outcome (list Det) :=
  match source_detections_this_category_filtered with
  | [] => Ok []
  | det :: rest =>
      transfer <-
        (if Qle_bool source_confidence_threshold (conf det) then
           if merge_empty_only o then Ok true
           else nomatch o det target_detections_this_category
         else Ok false) ;;
      transferred <-
        transfer_from_category o source_detector_name
          source_confidence_threshold target_detections_this_category rest ;;
      Ok (if transfer : bool
          then mark source_detector_name det :: transferred
          else transferred)
  end.

(** Lines 156-160: 0.0 without detections, their largest confidence
    otherwise. *)
Definition max_target_confidence (target_detections_this_category : list Det)
    : outcome Q :=
  if (0 <? length target_detections_this_category)%nat
  then py_max (map conf target_detections_this_category)
  else Ok 0%Q.

(** Lines 152-197, the body of the loop over the categories. *)
Definition transfer_category (o : MergeDetectionsOptions)
    (source_detector_name : string) (source_confidence_threshold : Q)
    (target_detections_this_image source_detections_this_image : list Det)
    (detection_category : string) : outcome (list Det) :=
  let target_detections_this_category :=
    List.filter (λ det, String.eqb (category det) detection_category)
      target_detections_this_image in
  max_target_confidence_this_category <-
    max_target_confidence target_detections_this_category ;;
  if merge_empty_only o
     && Qle_bool (target_confidence_threshold o)
          max_target_confidence_this_category
  then Ok []
  else
    let source_detections_this_category_raw :=
      List.filter (λ det, String.eqb (category det) detection_category)
        source_detections_this_image in
    source_detections_this_category_filtered <-
      keep_if (within_size o) source_detections_this_category_raw ;;
    transfer_from_category o source_detector_name
      source_confidence_threshold target_detections_this_category
      source_detections_this_category_filtered.

(** Lines 147-201: [detections_to_transfer] for one image. *)
Definition detections_to_transfer (o : MergeDetectionsOptions)
    (source_detector_name : string) (source_confidence_threshold : Q)
    (target_detections_this_image source_detections_this_image : list Det)
    (detection_categories : list string) : outcome (list Det) :=
  for_state
    (λ detections_to_transfer detection_category,
       transferred <-
         transfer_category o source_detector_name
           source_confidence_threshold target_detections_this_image
           source_detections_this_image detection_category ;;
       Ok (detections_to_transfer ++ transferred))
    detection_categories [].

(** Lines 78-82: the dict from file names to the target's images.  An
    image is referred to by its position in the list of images, and a later
    image of the same name takes the place of an earlier one. *)
Definition fn_to_image (images : list Image) : gmap string nat :=
  foldl (λ index entry, <[file (snd entry) := fst entry]> index) ∅
    (zip (seq 0 (length images)) images).

(** Lines 133-211, the body of the loop over the images of a source. *)
Definition merge_image (o : MergeDetectionsOptions)
    (detection_categories : list string) (source_detector_name : string)
    (source_confidence_threshold : Q) (index : gmap string nat)
    (images : list Image) (source_im : Image) : outcome (list Image) :=
  match index !! file source_im with
  | None => Raise (AssertionError "Image not in target image set")
  | Some i =>
      match images !! i with
      | None => Raise IndexError
      | Some target_im =>
          match detections source_im, detections target_im with
          | Some source_detections_this_image,
            Some target_detections_this_image =>
              to_transfer <-
                detections_to_transfer o source_detector_name
                  source_confidence_threshold target_detections_this_image
                  source_detections_this_image detection_categories ;;
              if (0 <? length to_transfer)%nat then
                let detections' :=
                  target_detections_this_image ++ to_transfer in
                max_detection_conf' <-
                  match max_detection_conf target_im with
                  | Some _ =>
                      m <- py_max (map conf detections') ;; Ok (Some m)
                  | None => Ok None
                  end ;;
                Ok (<[i := {| file := file target_im;
                              detections := Some detections';
                              max_detection_conf := max_detection_conf' |}]>
                      images)
              else Ok images
          | _, _ => Ok images
          end
      end
  end.

(** Lines 90-108: the categories that are processed. *)
Definition select_categories (o : MergeDetectionsOptions)
    (detection_categories_raw : list string) : outcome (list string) :=
  match categories_to_exclude o with
  | Some excluded =>
      keep_if (λ c, n <- int c ;; Ok (negb (bool_decide (n ∈ excluded))))
        detection_categories_raw
  | None =>
      match categories_to_include o with
      | Some included =>
          keep_if (λ c, n <- int c ;; Ok (bool_decide (n ∈ included)))
            detection_categories_raw
      | None => Ok detection_categories_raw
      end
  end.

(** [a == b] on two dicts: the same keys with the same values, in any
    order. *)
Definition dict_eqb (a b : list (string * string)) : bool :=
  bool_decide (list_to_map a =@{gmap string string} list_to_map b).

(** Lines 113-213, the body of the loop over the source files.  The state
    is what the loop changes in [output_data]: the images and, in [info],
    the detector and the list of the files detections were taken from. *)
Definition merge_source (o : MergeDetectionsOptions) (fs : Files)
    (detection_categories_raw : list (string * string))
    (detection_categories : list string) (index : gmap string nat)
    (state : list Image * string * list string)
    (enumerated : nat * path) : outcome (list Image * string * list string) :=
  let '(images, detector', transferred_from') := state in
  let '(i_source_file, source_file) := enumerated in
  source_data <- json_load source_file fs ;;
  let source_detector_name :=
    default (basename source_file) (detector (info source_data)) in
  let transferred_from' := transferred_from' ++ [basename source_file] in
  let detector' := detector' +:+ " + " +:+ source_detector_name in
  check (dict_eqb (Merge.detection_categories source_data)
           detection_categories_raw) "" ;;
  source_confidence_threshold <-
    match source_confidence_thresholds o !! i_source_file with
    | Some t => Ok t
    | None => Raise IndexError
    end ;;
  images <-
    for_state
      (merge_image o detection_categories source_detector_name
         source_confidence_threshold index)
      (Merge.images source_data) images ;;
  Ok (images, detector', transferred_from').

(** Lines 73-215: from loading the target to the merged document. *)
Definition merged (o : MergeDetectionsOptions) (source_files : list path)
    (target_file : path) (fs : Files) : outcome Results :=
  output_data <- json_load target_file fs ;;
  let index := fn_to_image (images output_data) in
  let transferred_from' :=
    default [] (detections_transferred_from (info output_data)) in
  let detector' := default "MDv4 (assumed)" (detector (info output_data)) in
  detection_categories <-
    select_categories o (map fst (detection_categories output_data)) ;;
  final <-
    for_state
      (merge_source o fs (Merge.detection_categories output_data)
         detection_categories index)
      (zip (seq 0 (length source_files)) source_files)
      (images output_data, detector', transferred_from') ;;
  let '(images, detector', transferred_from') := final in
  Ok {| images := images;
        info := {| detector := Some detector';
                   detections_transferred_from := Some transferred_from' |};
        detection_categories := Merge.detection_categories output_data |}.

(** Lines 54-69: the checks before anything is read. *)
Definition validate (o : MergeDetectionsOptions) (source_files : list path)
    (target_file : path) (fs : Files) : outcome unit :=
  check (negb (bool_decide (is_Some (categories_to_exclude o))
               && bool_decide (is_Some (categories_to_include o))))
    "categories_to_include and categories_to_exclude are mutually exclusive" ;;
  check (length source_files
         =? length (source_confidence_thresholds o))%nat "" ;;
  for_state (λ _ fn, check (isfile fn fs) "Could not find source file")
    source_files tt ;;
  check (isfile target_file fs) "".

(** [merge_detections(source_files,target_file,output_file,options)] (lines
    46-220), for a list of source files. *)
Definition merge_detections (source_files : list path)
    (target_file output_file : path)
    (options : option MergeDetectionsOptions) (fs : Files)
    : outcome unit * Files :=
  let o := default default_options options in
  match validate o source_files target_file fs with
  | Raise e => (Raise e, fs)
  | Ok _ =>
      match makedirs (dirname output_file) fs with
      | (Raise e, fs) => (Raise e, fs)
      | (Ok _, fs) =>
          match merged o source_files target_file fs with
          | Raise e => (Raise e, fs)
          | Ok output_data => json_dump output_data output_file fs
          end
      end
  end.

(** ** Reading a merge *)

(** [det'] is a detection of category [c] among [source_detections] that
    the loop of lines 150-197 transfers into an image that holds
    [target_detections]: it is confident enough, its box has an admitted
    size, and the target has nothing that stands in its way. *)
Definition transferable (o : MergeDetectionsOptions)
    (source_detector_name : string) (source_confidence_threshold : Q)
    (target_detections source_detections : list Det) (c : string)
    (det' : Det) : Prop :=
  ∃ det,
    det ∈ source_detections
    ∧ det' = mark source_detector_name det
    ∧ category det = c
    ∧ (source_confidence_threshold <= conf det)%Q
    ∧ (∃ s, size det = Ok s
            ∧ (min_detection_size o <= s)%Q ∧ (s <= max_detection_size o)%Q)
    ∧ ∀ target_detection,
        target_detection ∈ target_detections →
        category target_detection = c →
        if merge_empty_only o
        then (conf target_detection < target_confidence_threshold o)%Q
        else ∃ iou,
               get_iou (bbox det) (bbox target_detection) = Ok iou
               ∧ (iou < iou_threshold o)%Q.

(** [det'] was taken from one of the source files, out of an image named
    [fn], into an image that held [target_detections]. *)
Definition taken_from_a_source (o : MergeDetectionsOptions) (fs : Files)
    (source_files : list path) (detection_categories : list string)
    (fn : string) (target_detections : list Det) (det' : Det) : Prop :=
  ∃ i source_file threshold source_data source_im source_detections c,
    source_files !! i = Some source_file
    ∧ source_confidence_thresholds o !! i = Some threshold
    ∧ json_load source_file fs = Ok source_data
    ∧ source_im ∈ images source_data
    ∧ file source_im = fn
    ∧ detections source_im = Some source_detections
    ∧ c ∈ detection_categories
    ∧ transferable o
        (default (basename source_file) (detector (info source_data)))
        threshold target_detections source_detections c det'.

(** [after] is [before] with detections added at the end, each of which
    satisfies [P]; an image without a list of detections is unchanged. *)
Definition grown (P : string → list Det → Det → Prop)
    (before after : Image) : Prop :=
  file after = file before
  ∧ match detections before with
    | None => after = before
    | Some target_detections =>
        ∃ added,
          detections after = Some (target_detections ++ added)
          ∧ Forall (P (file before) target_detections) added
    end.

End Merging.

(** The options with another target confidence threshold. *)
Definition with_target_confidence_threshold (t : Q)
    (o : MergeDetectionsOptions) : MergeDetectionsOptions := {|
  max_detection_size := max_detection_size o;
  min_detection_size := min_detection_size o;
  source_confidence_thresholds := source_confidence_thresholds o;
  target_confidence_threshold := t;
  categories_to_include := categories_to_include o;
  categories_to_exclude := categories_to_exclude o;
  merge_empty_only := merge_empty_only o;
  iou_threshold := iou_threshold o
|}.

End Merge.

(** ** A concrete merge

    Stand-ins for the two functions [merge_detections] takes from
    elsewhere, and two small results files. *)

Module MergeDemo.

Import Merge.

Fixpoint same_box (a b : list Q) : bool :=
  match a, b with
  | [], [] => true
  | x :: a', y :: b' => Qeq_bool x y && same_box a' b'
  | _, _ => false
  end.

(** Modelled from the spec: [ct_utils.get_iou] is not among the sources,
    and the spec leaves the merging of detections to a collaborator it does
    not describe.  The stand-in tells a box that is repeated from one that
    is not: 1 for two equal boxes, 0 otherwise. *)
Definition get_iou (a b : list Q) : outcome Q :=
  Ok (if same_box a b then 1%Q else 0%Q).

Definition digit (c : Ascii.ascii) : option Z :=
  let n := Ascii.nat_of_ascii c in
  if (48 <=? n)%nat && (n <=? 57)%nat then Some (Z.of_nat (n - 48))
  else None.

Fixpoint digits (s : string) (value : Z) : option Z :=
  match s with
  | EmptyString => Some value
  | String c r =>
      match digit c with
      | Some d => digits r (10 * value + d)
      | None => None
      end
  end.

(** The builtin [int] on strings of decimal digits. *)
Definition int (s : string) : outcome Z :=
  match s, digits s 0 with
  | String _ _, Some n => Ok n
  | _, _ => Raise (ValueError "invalid literal for int() with base 10")
  end.

(** The product of two numbers, taken exactly: that is what the machine
    computes on the boxes below, whose sides are binary fractions. *)
Definition mul (x y : Q) : Q := (x * y)%Q.

Definition animal_and_person : list (string * string) :=
  [("1", "animal"); ("2", "person")].

Definition box (x y w h : Q) : list Q := [x; y; w; h].

Definition found (c : string) (confidence : Q) (b : list Q) : Det :=
  {| category := c; conf := confidence; bbox := b;
     transferred_from := None |}.

(** The target: an animal in a.jpg, nothing in b.jpg, and c.jpg without a
    list of detections. *)
Definition target : Results := {|
  images :=
    [{| file := "a.jpg";
        detections := Some [found "1" (9 # 10) (box 0 0 (1 # 2) (1 # 2))];
        max_detection_conf := Some (9 # 10)%Q |};
     {| file := "b.jpg";
        detections := Some [];
        max_detection_conf := Some 0%Q |};
     {| file := "c.jpg";
        detections := None;
        max_detection_conf := None |}];
  info := {| detector := Some "MDv5a"; detections_transferred_from := None |};
  detection_categories := animal_and_person
|}.

(** The source: in a.jpg the target's animal again, a second animal and
    one of low confidence; in b.jpg a person. *)
Definition source : Results := {|
  images :=
    [{| file := "a.jpg";
        detections :=
          Some [found "1" (95 # 100) (box 0 0 (1 # 2) (1 # 2));
                found "1" (85 # 100) (box (1 # 2) (1 # 2) (1 # 4) (1 # 4));
                found "1" (3 # 10) (box 0 0 (1 # 8) (1 # 8))];
        max_detection_conf := Some (95 # 100)%Q |};
     {| file := "b.jpg";
        detections := Some [found "2" (9 # 10) (box 0 0 (1 # 4) (1 # 4))];
        max_detection_conf := Some (9 # 10)%Q |}];
  info := {| detector := Some "MDv4"; detections_transferred_from := None |};
  detection_categories := animal_and_person
|}.

Definition files : Files :=
  <["/in/target.json" := Json target]>
    (<["/in/source.json" := Json source]> ∅).

(** A source with a person in a.jpg, and a target that lists a.jpg
    twice. *)
Definition person_in_a : Results := {|
  images :=
    [{| file := "a.jpg";
        detections := Some [found "2" (9 # 10) (box 0 0 (1 # 4) (1 # 4))];
        max_detection_conf := Some (9 # 10)%Q |}];
  info := {| detector := None; detections_transferred_from := None |};
  detection_categories := animal_and_person
|}.

Definition twice : Files :=
  <["/in/target.json" :=
      Json {| images :=
                [{| file := "a.jpg"; detections := Some [];
                    max_detection_conf := None |};
                 {| file := "a.jpg"; detections := Some [];
                    max_detection_conf := None |}];
              info := {| detector := None;
                         detections_transferred_from := None |};
              detection_categories := animal_and_person |}]>
    (<["/in/source.json" := Json person_in_a]> ∅).

Definition empty_only : MergeDetectionsOptions :=
  {| max_detection_size := (101 # 100)%Q;
     min_detection_size := 0%Q;
     source_confidence_thresholds := [(8 # 10)%Q];
     target_confidence_threshold := (8 # 10)%Q;
     categories_to_include := None;
     categories_to_exclude := None;
     merge_empty_only := true;
     iou_threshold := (9 # 10)%Q |}.

(** Options that ask for full confidence. *)
Definition strict : MergeDetectionsOptions :=
  {| max_detection_size := (101 # 100)%Q;
     min_detection_size := 0%Q;
     source_confidence_thresholds := [1%Q];
     target_confidence_threshold := (8 # 10)%Q;
     categories_to_include := None;
     categories_to_exclude := None;
     merge_empty_only := false;
     iou_threshold := (9 # 10)%Q |}.

End MergeDemo.

(** * timelapse_csv_set_to_json.py

    The script is a sequence of cells at module level.  Two of them are
    modelled: the cell that reads the file list (lines 52-77) and the main
    loop over the rows of the .csv files (lines 226-371), with what the
    cells before it computed taken as given.  The flags
    [check_file_existence] and [retrieve_image_size] are False (lines
    44-45), so the code behind them is left out; what is printed is not
    modelled. *)

Module Timelapse.

(** What the script can raise: [KeyError] is not among [exn]. *)
Inductive raised :=
| Exn (e : exn)
| KeyError (key : string).

Inductive result (A : Type) : Type :=
| Done (a : A)
| Stopped (e : raised).

Arguments Done {A} a.
Arguments Stopped {A} e.

Definition then_ {A B} (r : result A) (k : A → result B) : result B :=
  match r with
  | Done a => k a
  | Stopped e => Stopped e
  end.

Declare Scope script_scope.
Delimit Scope script_scope with script.
Notation "x <- r ;; k" := (then_ r (λ x, k))
  (at level 100, r at next level, right associativity) : script_scope.
Notation "r ;; k" := (then_ r (λ _, k))
  (at level 100, right associativity) : script_scope.
#[local] Open Scope script_scope.

Definition assert_ (b : bool) : result unit :=
  if b then Done tt else Stopped (Exn (AssertionError "")).

(** [for x in l: s = f(s, x)], left at the first exception. *)
Fixpoint for_rows {A S} (f : S → A → result S) (l : list A) (s : S)
    : result S :=
  match l with
  | [] => Done s
  | x :: l' => s' <- f s x ;; for_rows f l' s'
  end.

(** ** The file list (lines 52-77) *)

Section FileList.

(** [str.lower]. *)
Variable lower : string → string.

(** [required_image_regex = '^Processed'], with [re.match]. *)
Definition matches_required_image_regex (fn : string) : bool :=
  startswith fn "Processed".

(** Lines 58-71: [image_files], [csv_files] and [non_matching_files]. *)
Definition classify (all_files : list string)
    : gset string * list string * list string :=
  foldl
    (λ '(image_files, csv_files, non_matching_files) fn,
       let fnl := lower fn in
       if endswith fnl ".csv" then
         (image_files, csv_files ++ [fn], non_matching_files)
       else if endswith fnl ".jpg" || endswith fnl ".png" then
         if negb (matches_required_image_regex fn)
         then (image_files, csv_files, non_matching_files ++ [fn])
         else ({[fn]} ∪ image_files, csv_files, non_matching_files)
       else (image_files, csv_files, non_matching_files))
    (∅, [], []) all_files.

(** Lines 76-77. *)
Definition check_image_files (image_files : gset string) : result unit :=
  for_rows (λ _ fn, assert_ (endswith (lower fn) ".jpg"))
    (elements image_files) tt.

Definition read_file_list (all_files : list string)
    : result (gset string * list string * list string) :=
  let '(image_files, csv_files, non_matching_files) := classify all_files in
  check_image_files image_files ;;
  Done (image_files, csv_files, non_matching_files).

End FileList.

(** ** The main loop (lines 226-371) *)

(** A cell of the table: text, NaN for an empty cell, or another float. *)
Inductive cell :=
| Text (s : string)
| NaN
| Number.

(** The columns of a row that the loop reads.  [Empty] is None when the
    cell holds neither True nor False. *)
Record Row := {
  File : string;
  RelativePath : cell;
  Folder : string;
  source_file : string;
  Species : cell;
  Empty : option bool
}.

Record Im := {
  id : string;
  file_name : string;
  seq_id : string
}.

Record Ann := {
  ann_id : string;
  image_id : string;
  category_id : Z
}.

(** The variables the loop changes.  [category_name_to_category] lists the
    categories in the order they were added, each name with its id;
    [uuids] counts the calls of [uuid.uuid1]. *)
Record State := {
  relative_path_to_image : gmap string Im;
  image_id_to_image : gmap string Im;
  images : list Im;
  annotations : list Ann;
  category_name_to_category : list (string * Z);
  next_category_id : Z;
  files_missing_from_file_list : list string;
  duplicate_image_ids : gset string;
  ignored_csv_files : gset string;
  ignored_image_folders : gset string;
  ambiguous_images : list Im;
  uuids : nat
}.

(** Lines 226-249: the state before the first row. *)
Definition initial : State := {|
  relative_path_to_image := ∅;
  image_id_to_image := ∅;
  images := [];
  annotations := [];
  category_name_to_category := [("empty", 0)];
  next_category_id := 1;
  files_missing_from_file_list := [];
  duplicate_image_ids := ∅;
  ignored_csv_files := ∅;
  ignored_image_folders := ∅;
  ambiguous_images := [];
  uuids := 0
|}.

Definition backslash : string := String (Ascii.ascii_of_nat 92) "".

Fixpoint lookup_name (name : string) (categories : list (string * Z))
    : option Z :=
  match categories with
  | [] => None
  | (n, i) :: rest => if String.eqb n name then Some i else lookup_name name rest
  end.

Section MainLoop.

Variable lower : string → string.

(** [path_utils.split_path] and [uuid.uuid1]. *)
Variable split_path : string → list string.
Variable uuid1 : nat → string.

(** What the cells before the loop computed. *)
Variable csv_filename_to_camera_folder : gmap string string.
Variable camera_folders_to_image_folders : gmap string (list string).
Variable image_files : gset string.
Variable valid_csv_files : list string.

(** Lines 259-267. *)
Definition image_folder_of (row : Row) : result string :=
  image_folder <-
    match RelativePath row with
    | Text s => Done s
    | NaN => Done (Folder row)
    | Number => Stopped (Exn (AssertionError ""))
    end ;;
  let image_folder := replace image_folder backslash "/" in
  match last (split_path image_folder) with
  | Some token => Done token
  | None => Stopped (Exn IndexError)
  end.

(** Lines 280-283: the last candidate that ends with the image folder. *)
Definition find_image_folder (candidate_image_folders : list string)
    (image_folder : string) : option string :=
  foldl
    (λ image_folder_relative_path candidate_image_folder,
       if endswith candidate_image_folder image_folder
       then Some candidate_image_folder
       else image_folder_relative_path)
    None candidate_image_folders.

(** Line 296. *)
Definition image_id_of (image_relative_path : string) : string :=
  replace (replace (replace image_relative_path "_" "~") "/" "_")
    backslash "_".

(** Lines 329-349: the category name of a row, and whether the image is
    ambiguous. *)
Definition category_name_of (row : Row) : result (string * bool) :=
  category_name <-
    match Species row with
    | Text s => Done (Some (lower s))
    | NaN => Done None
    | Number => Stopped (Exn (AssertionError ""))
    end ;;
  named <-
    match Empty row with
    | Some true =>
        match category_name with
        | Some _ => Done ("ambiguous", true)
        | None => Done ("empty", false)
        end
    | Some false => Done (default "unlabeled" category_name, false)
    | None => Stopped (Exn (AssertionError ""))
    end ;;
  let '(category_name, ambiguous) := named in
  Done (if String.eqb category_name "none" then "empty" else category_name,
        ambiguous).

(** Lines 296-371: the image, the category and the annotation
    of a row whose image is in the file list. *)
Definition annotate (s : State) (row : Row) (image_relative_path : string)
    : result State :=
  let image_id := image_id_of image_relative_path in
  known <-
    match image_id_to_image s !! image_id with
    | Some im =>
        assert_ (String.eqb (id im) image_id) ;;
        Done (im, relative_path_to_image s, image_id_to_image s, images s,
              {[image_id]} ∪ duplicate_image_ids s)
    | None =>
        let im := {| id := image_id; file_name := image_relative_path;
                     seq_id := "-1" |} in
        Done (im, <[image_relative_path := im]> (relative_path_to_image s),
              <[image_id := im]> (image_id_to_image s), images s ++ [im],
              duplicate_image_ids s)
    end ;;
  let '(im, relative_path_to_image', image_id_to_image', images',
        duplicate_image_ids') := known in
  named <- category_name_of row ;;
  let '(category_name, ambiguous) := named in
  let '(category_id, category_name_to_category', next_category_id') :=
    match lookup_name category_name (category_name_to_category s) with
    | None =>
        (next_category_id s,
         category_name_to_category s
         ++ [(category_name, next_category_id s)],
         (next_category_id s + 1)%Z)
    | Some category_id =>
        (category_id, category_name_to_category s, next_category_id s)
    end in
  Done {|
    relative_path_to_image := relative_path_to_image';
    image_id_to_image := image_id_to_image';
    images := images';
    annotations :=
      annotations s
      ++ [{| ann_id := uuid1 (uuids s); image_id := id im;
             category_id := category_id |}];
    category_name_to_category := category_name_to_category';
    next_category_id := next_category_id';
    files_missing_from_file_list := files_missing_from_file_list s;
    duplicate_image_ids := duplicate_image_ids';
    ignored_csv_files := ignored_csv_files s;
    ignored_image_folders := ignored_image_folders s;
    ambiguous_images :=
      if ambiguous : bool then ambiguous_images s ++ [im]
      else ambiguous_images s;
    uuids := S (uuids s)
  |}.

(** Lines 258-371, the body of the loop.  A [continue] returns the state
    as it then is. *)
Definition process_row (s : State) (row : Row) : result State :=
  let image_filename := File row in
  image_folder <- image_folder_of row ;;
  let csv_filename := source_file row in
  match csv_filename_to_camera_folder !! csv_filename with
  | None =>
      if bool_decide (csv_filename ∈ ignored_csv_files s) then Done s
      else
        assert_ (bool_decide (csv_filename ∈ valid_csv_files)) ;;
        Done {|
          relative_path_to_image := relative_path_to_image s;
          image_id_to_image := image_id_to_image s;
          images := images s;
          annotations := annotations s;
          category_name_to_category := category_name_to_category s;
          next_category_id := next_category_id s;
          files_missing_from_file_list := files_missing_from_file_list s;
          duplicate_image_ids := duplicate_image_ids s;
          ignored_csv_files := {[csv_filename]} ∪ ignored_csv_files s;
          ignored_image_folders := ignored_image_folders s;
          ambiguous_images := ambiguous_images s;
          uuids := uuids s
        |}
  | Some camera_folder =>
      match camera_folders_to_image_folders !! camera_folder with
      | None => Stopped (KeyError camera_folder)
      | Some candidate_image_folders =>
          match find_image_folder candidate_image_folders image_folder with
          | None =>
              let camera_image_folder :=
                camera_folder +:+ "_" +:+ image_folder in
              if bool_decide (camera_image_folder ∈ ignored_image_folders s)
              then
                (* line 291: None + '/' + image_filename *)
                Stopped (Exn (TypeError
                  "unsupported operand type(s) for +: 'NoneType' and 'str'"))
              else
                Done {|
                  relative_path_to_image := relative_path_to_image s;
                  image_id_to_image := image_id_to_image s;
                  images := images s;
                  annotations := annotations s;
                  category_name_to_category := category_name_to_category s;
                  next_category_id := next_category_id s;
                  files_missing_from_file_list :=
                    files_missing_from_file_list s;
                  duplicate_image_ids := duplicate_image_ids s;
                  ignored_csv_files := ignored_csv_files s;
                  ignored_image_folders :=
                    {[camera_image_folder]} ∪ ignored_image_folders s;
                  ambiguous_images := ambiguous_images s;
                  uuids := uuids s
                |}
          | Some image_folder_relative_path =>
              let image_relative_path :=
                image_folder_relative_path +:+ "/" +:+ image_filename in
              if bool_decide (image_relative_path ∈ image_files) then
                annotate s row image_relative_path
              else
                Done {|
                  relative_path_to_image := relative_path_to_image s;
                  image_id_to_image := image_id_to_image s;
                  images := images s;
                  annotations := annotations s;
                  category_name_to_category := category_name_to_category s;
                  next_category_id := next_category_id s;
                  files_missing_from_file_list :=
                    files_missing_from_file_list s ++ [image_relative_path];
                  duplicate_image_ids := duplicate_image_ids s;
                  ignored_csv_files := ignored_csv_files s;
                  ignored_image_folders := ignored_image_folders s;
                  ambiguous_images := ambiguous_images s;
                  uuids := uuids s
                |}
          end
      end
  end.

(** The loop over the rows of [input_metadata]. *)
Definition main_loop (rows : list Row) : result State :=
  for_rows process_row rows initial.

End MainLoop.

(** ** Reading the outcome of the loop *)

Definition is_done {A} (r : result A) : bool :=
  match r with
  | Done _ => true
  | Stopped _ => false
  end.

(** The state the loop ends in, when it ends. *)
Definition state_of (r : result State) : State :=
  match r with
  | Done s => s
  | Stopped _ => initial
  end.

(** The categories are numbered in the order they were added, from 0 (the
    empty category), and [next_category_id] is the next number. *)
Definition categories_numbered (s : State) : Prop :=
  map snd (category_name_to_category s)
  = map Z.of_nat (seq 0 (length (category_name_to_category s)))
  ∧ next_category_id s = Z.of_nat (length (category_name_to_category s))
  ∧ NoDup (map fst (category_name_to_category s))
  ∧ category_name_to_category s !! 0%nat = Some ("empty", 0%Z)
  ∧ "none" ∉ map fst (category_name_to_category s).

(** Every image has an id of its own, and every annotation belongs to an
    image and a category of the database. *)
Definition consistent (s : State) : Prop :=
  NoDup (map id (images s))
  ∧ (∀ i im, image_id_to_image s !! i = Some im → id im = i ∧ im ∈ images s)
  ∧ (∀ im, im ∈ images s → image_id_to_image s !! id im = Some im)
  ∧ ∀ ann, ann ∈ annotations s →
           image_id ann ∈ map id (images s)
           ∧ category_id ann ∈ map snd (category_name_to_category s).

End Timelapse.

(** ** A concrete import *)

Module TimelapseDemo.

Import Timelapse.

(** [str.lower] on ASCII text. *)
Fixpoint lower (s : string) : string :=
  match s with
  | EmptyString => ""
  | String c r =>
      let n := Ascii.nat_of_ascii c in
      String (if (65 <=? n)%nat && (n <=? 90)%nat
              then Ascii.ascii_of_nat (n + 32) else c)
        (lower r)
  end.

Fixpoint split_from (token : string) (s : string) : list string :=
  match s with
  | EmptyString => [token]
  | String c r =>
      if Ascii.eqb c sep then token :: split_from "" r
      else split_from (token +:+ String c "") r
  end.

(** Modelled from the spec: [path_utils.split_path] is not among the
    sources, and the spec leaves the site-specific import scripts to
    themselves.  The stand-in cuts a path at every "/". *)
Definition split_path (s : string) : list string := split_from "" s.

Definition uuid1 (k : nat) : string := "uuid" +:+ pretty k.

Definition camera : string := "Processed Images/OK1/Camera_1".

Definition csv_filename_to_camera_folder : gmap string string :=
  {["Processed Images/OK1_1_a.csv" := camera]}.

Definition camera_folders_to_image_folders : gmap string (list string) :=
  {[camera := [camera +:+ "/100RECNX"]]}.

Definition image_files : gset string :=
  {[camera +:+ "/100RECNX/img_1.jpg"; camera +:+ "/100RECNX/img_2.jpg"]}.

Definition valid_csv_files : list string := ["Processed Images/OK1_1_a.csv"].

Definition labelled (file : string) (folder : string) (species : cell)
    (empty : bool) : Row := {|
  File := file;
  RelativePath := Text folder;
  Folder := "";
  source_file := "Processed Images/OK1_1_a.csv";
  Species := species;
  Empty := Some empty
|}.

(** A deer, an empty image, and a second label for the first image. *)
Definition three_rows : list Row :=
  [labelled "img_1.jpg" "100RECNX" (Text "Deer") false;
   labelled "img_2.jpg" "100RECNX" NaN true;
   labelled "img_1.jpg" "100RECNX" (Text "None") false].

(** A row for a folder that is not among the image folders. *)
Definition misfiled : Row := labelled "img_9.jpg" "101RECNX" NaN true.

End TimelapseDemo.

(** * Properties *)

(** ** What os.makedirs changes *)

Section MakedirsProperties.

Context {A : Type} (folder : A) (is_folder : A → bool).

Lemma mkdir_exist_ok_inv name head (fs : gmap path A) r fs' :
  mkdir_exist_ok folder is_folder name head fs = (r, fs') →
  fs' = fs ∨ (fs !! name = None ∧ fs' = <[name := folder]> fs).
Proof.
  unfold mkdir_exist_ok.
  destruct (String.eqb name ""); [intros [= _ <-]; by left|].
  destruct (is_root name); [intros [= _ <-]; by left|].
  destruct (fs !! name) as [a|] eqn:Hname.
  { destruct (is_folder a); intros [= _ <-]; by left. }
  destruct (String.eqb head "" || is_root head);
    [intros [= _ <-]; by right|].
  destruct (fs !! head) as [a|]; [|intros [= _ <-]; by left].
  destruct (is_folder a); intros [= _ <-]; [by right|by left].
Qed.

(** [os.makedirs] leaves every path as it is, but for [name] and the
    folders above it, where it may make a folder if there is nothing. *)
Lemma makedirs_from_lookup fuel name (fs : gmap path A) r fs' p :
  makedirs_from folder is_folder fuel name fs = (r, fs') →
  fs' !! p = fs !! p
  ∨ (fs !! p = None ∧ fs' !! p = Some folder
     ∧ (p = name ∨ p ∈ folders_above_from fuel name)).
Proof.
  assert (Hmkdir : ∀ name head (fs : gmap path A) r fs',
    mkdir_exist_ok folder is_folder name head fs = (r, fs') →
    fs' !! p = fs !! p
    ∨ (fs !! p = None ∧ fs' !! p = Some folder ∧ p = name)).
  { intros name' head fs0 r0 fs0' [->|[Hnone ->]]%mkdir_exist_ok_inv;
      [by left|].
    destruct (decide (p = name')) as [->|Hne].
    - right. by rewrite lookup_insert_eq.
    - left. by rewrite lookup_insert_ne. }
  revert name fs r fs'.
  induction fuel as [|fuel IH]; intros name fs r fs'.
  - cbn [makedirs_from folders_above_from].
    destruct (head_and_tail name) as [head tail].
    destruct (negb (String.eqb head "") && negb (String.eqb tail "")
              && negb (path_exists head fs)).
    + destruct (String.eqb tail ".");
        [intros [= _ <-]; by left|].
      intros [?|(? & ? & ?)]%Hmkdir; [by left|right; auto].
    + intros [?|(? & ? & ?)]%Hmkdir; [by left|right; auto].
  - cbn [makedirs_from folders_above_from].
    destruct (head_and_tail name) as [head tail] eqn:Hht.
    destruct (negb (String.eqb head "") && negb (String.eqb tail ""));
      cbn [andb].
    2:{ intros [?|(? & ? & ?)]%Hmkdir; [by left|right; auto]. }
    destruct (negb (path_exists head fs)).
    2:{ intros [?|(? & ? & ?)]%Hmkdir; [by left|right; auto]. }
    destruct (makedirs_from folder is_folder fuel head fs) as [made fs1]
      eqn:Hmade.
    specialize (IH head fs made fs1 Hmade).
    assert (Habove : fs1 !! p = fs !! p
                     ∨ (fs !! p = None ∧ fs1 !! p = Some folder
                        ∧ (p = name
                           ∨ p ∈ head :: folders_above_from fuel head))).
    { destruct IH as [?|(? & ? & [->|?])]; [by left| |].
      - right. split; [done|]. split; [done|]. right. apply list_elem_of_here.
      - right. split; [done|]. split; [done|]. right.
        by apply list_elem_of_further. }
    assert (Hlast : ∀ r fs',
      mkdir_exist_ok folder is_folder name head fs1 = (r, fs') →
      fs' !! p = fs !! p
      ∨ (fs !! p = None ∧ fs' !! p = Some folder
         ∧ (p = name ∨ p ∈ head :: folders_above_from fuel head))).
    { intros r0 fs0' [Heq|(Hnone & Hsome & ->)]%Hmkdir.
      - by rewrite Heq.
      - destruct Habove as [Heq|(_ & Hsome' & _)]; [|congruence].
        right. rewrite <- Heq. auto. }
    destruct made as [[]|e].
    + destruct (String.eqb tail "."); [by intros [= _ <-]|apply Hlast].
    + destruct e; try (by intros [= _ <-]).
      destruct (String.eqb tail "."); [by intros [= _ <-]|apply Hlast].
Qed.

Lemma os_makedirs_lookup name (fs : gmap path A) r fs' p :
  os_makedirs folder is_folder name fs = (r, fs') →
  fs' !! p = fs !! p
  ∨ (fs !! p = None ∧ fs' !! p = Some folder
     ∧ (p = name ∨ p ∈ folders_above name)).
Proof. apply makedirs_from_lookup. Qed.

Lemma split_last_sep_length p :
  (String.length (fst (split_last_sep p))
   + String.length (snd (split_last_sep p)))%nat = String.length p.
Proof.
  induction p as [|c r IH]; [done|]. cbn [split_last_sep].
  destruct (split_last_sep r) as [[|c' h] t]; cbn in *.
  - destruct (Ascii.eqb c sep); cbn; lia.
  - lia.
Qed.

Lemma rstrip_sep_length s : (String.length (rstrip_sep s) ≤ String.length s)%nat.
Proof.
  induction s as [|c r IH]; [done|]. cbn [rstrip_sep].
  destruct (rstrip_sep r) as [|c' r']; cbn in *.
  - destruct (Ascii.eqb c sep); cbn; lia.
  - lia.
Qed.

Lemma dirname_length p :
  (String.length (dirname p) + String.length (basename p)
   ≤ String.length p)%nat.
Proof.
  unfold dirname, basename.
  pose proof (split_last_sep_length p) as Hsplit.
  pose proof (rstrip_sep_length (fst (split_last_sep p))) as Hstrip.
  destruct (all_sep (fst (split_last_sep p))); lia.
Qed.

(** The folder above a name is shorter than the name. *)
Lemma head_shorter name head tail :
  head_and_tail name = (head, tail) → tail ≠ "" →
  (String.length head < String.length name)%nat.
Proof.
  unfold head_and_tail, path_split.
  pose proof (dirname_length name) as Hname.
  pose proof (dirname_length (dirname name)) as Hhead.
  destruct (String.eqb_spec (basename name) "") as [Hempty|Hfull];
    intros [= <- <-] Htail.
  - destruct (basename (dirname name)); [done|]. cbn in *. lia.
  - destruct (basename name); [done|]. cbn in *. lia.
Qed.

(** [fuel] bounds the depth of the calls: any amount of it that is at
    least the length of the name gives the same result. *)
Lemma makedirs_from_enough fuel fuel' name (fs : gmap path A) :
  (String.length name ≤ fuel)%nat → (String.length name ≤ fuel')%nat →
  makedirs_from folder is_folder fuel name fs
  = makedirs_from folder is_folder fuel' name fs.
Proof.
  revert fuel' name fs.
  induction fuel as [|fuel IH]; intros fuel' name fs Hfuel Hfuel'.
  - destruct name; [|cbn in Hfuel; lia]. by destruct fuel'.
  - destruct fuel' as [|fuel'].
    { destruct name; [done|cbn in Hfuel'; lia]. }
    cbn [makedirs_from].
    destruct (head_and_tail name) as [head tail] eqn:Hht.
    destruct (String.eqb_spec tail "") as [->|Htail].
    { by rewrite andb_false_r. }
    pose proof (head_shorter name head tail Hht Htail).
    by rewrite (IH fuel' head fs) by lia.
Qed.

Lemma os_makedirs_fuel fuel name (fs : gmap path A) :
  (String.length name ≤ fuel)%nat →
  makedirs_from folder is_folder fuel name fs
  = os_makedirs folder is_folder name fs.
Proof. intros. by apply makedirs_from_enough. Qed.

End MakedirsProperties.

Section Properties.

Context {E : Collaborators}.

(** ** The log only grows *)

Lemma only_ret {A} P (a : A) : only P (ret a).
Proof. intros w. exists []. unfold only_at. simpl. by rewrite app_nil_r. Qed.

Lemma only_raise {A} P e : only P (@raise A e).
Proof. intros w. exists []. unfold only_at. simpl. by rewrite app_nil_r. Qed.

Lemma only_emit (P : event → Prop) e : P e → only P (emit e).
Proof.
  intros HP w. exists [e]. unfold only_at. simpl. split; [done|].
  by constructor.
Qed.

Lemma only_call {A} P (f : effect A) : only P (call f).
Proof.
  intros w. exists []. unfold only_at, call. destruct (f (fs w)) as [r fs'].
  simpl. by rewrite app_nil_r.
Qed.

Lemma only_inspect {A} P (f : FS → A) : only P (inspect f).
Proof. intros w. exists []. unfold only_at. simpl. by rewrite app_nil_r. Qed.

Lemma only_json_load P p : only P (json_load p).
Proof. intros w. exists []. unfold only_at. simpl. by rewrite app_nil_r. Qed.

Lemma only_draw_uuid P : only P draw_uuid.
Proof. intros w. exists []. unfold only_at. simpl. by rewrite app_nil_r. Qed.

Lemma only_assert P b msg : only P (assert b msg).
Proof. destruct b; [apply only_ret | apply only_raise]. Qed.

Lemma only_bind {A B} P (m : M A) (k : A → M B) :
  only P m → (∀ a, only P (k a)) → only P (bind m k).
Proof.
  intros Hm Hk w. unfold only_at, bind.
  destruct (Hm w) as (d1 & Hd1 & HP1).
  destruct (m w) as [w1 [a|e]]; simpl in *.
  - destruct (Hk a w1) as (d2 & Hd2 & HP2).
    exists (d1 ++ d2). rewrite Hd2, Hd1, app_assoc. split; [done|].
    by apply Forall_app.
  - by exists d1.
Qed.

Lemma only_bind_ret {A B} P (a : A) (k : A → M B) :
  only P (k a) → only P (bind (ret a) k).
Proof. intros H w. apply (H w). Qed.

Lemma only_bind_raise {A B} P e (k : A → M B) : only P (bind (raise e) k).
Proof. intros w. exists []. unfold only_at. simpl. by rewrite app_nil_r. Qed.

Lemma only_bind_bind_raise {A B C} P e (k : A → M B) (k' : B → M C) :
  only P (bind (bind (raise e) k) k').
Proof. intros w. exists []. unfold only_at. simpl. by rewrite app_nil_r. Qed.

(** The continuation may rely on what is known of a returned value. *)
Lemma only_bind_res {A B} (R : A → Prop) P (m : M A) (k : A → M B) :
  only P m → (∀ w a, snd (m w) = Ok a → R a) → (∀ a, R a → only P (k a)) →
  only P (bind m k).
Proof.
  intros Hm HR Hk w. unfold only_at, bind.
  destruct (Hm w) as (d1 & Hd1 & HP1). specialize (HR w).
  destruct (m w) as [w1 [a|e]]; simpl in *.
  - destruct (Hk a (HR a eq_refl) w1) as (d2 & Hd2 & HP2).
    exists (d1 ++ d2). rewrite Hd2, Hd1, app_assoc. split; [done|].
    by apply Forall_app.
  - by exists d1.
Qed.

Lemma only_try_except {A} P (m : M A) (h : exn → M A) :
  only P m → (∀ e, only P (h e)) → only P (try_except m h).
Proof.
  intros Hm Hh w. unfold only_at, try_except.
  destruct (Hm w) as (d1 & Hd1 & HP1).
  destruct (m w) as [w1 [a|e]]; simpl in *.
  - by exists d1.
  - destruct (Hh e w1) as (d2 & Hd2 & HP2).
    exists (d1 ++ d2). rewrite Hd2, Hd1, app_assoc. split; [done|].
    by apply Forall_app.
Qed.

Lemma only_for_each {A} P (l : list A) (f : A → M unit) :
  (∀ x, only P (f x)) → only P (for_each l f).
Proof.
  intros Hf. induction l as [|x l IH]; simpl.
  - apply only_ret.
  - apply only_bind; [apply Hf | intros _; apply IH].
Qed.

Lemma only_weaken {A} (P Q : event → Prop) (m : M A) :
  (∀ e, P e → Q e) → only P m → only Q m.
Proof.
  intros HPQ Hm w. destruct (Hm w) as (d & Hd & HP).
  exists d. split; [done|]. eapply Forall_impl; eauto.
Qed.

Lemma only_emitted {A} P (m : M A) w :
  only P m → log (fst (m w)) = log w ++ emitted m w ∧ Forall P (emitted m w).
Proof.
  intros Hm. destruct (Hm w) as (d & Hd & HP). unfold emitted.
  by rewrite Hd, drop_app_length.
Qed.

Lemma emitted_intro {A} (m : M A) w d :
  log (fst (m w)) = log w ++ d → emitted m w = d.
Proof. intros Hd. unfold emitted. by rewrite Hd, drop_app_length. Qed.

Lemma emitted_bind {A B} (m : M A) (k : A → M B) w :
  only (λ _, True) m → (∀ a, only (λ _, True) (k a)) →
  emitted (bind m k) w
  = emitted m w ++ match m w with
                   | (w1, Ok a) => emitted (k a) w1
                   | (_, Raise _) => []
                   end.
Proof.
  intros Hm Hk. apply emitted_intro. unfold bind.
  destruct (only_emitted _ m w Hm) as [Hd _].
  destruct (m w) as [w1 [a|e]]; simpl in *.
  - destruct (only_emitted _ (k a) w1 (Hk a)) as [Hd2 _].
    by rewrite Hd2, Hd, app_assoc.
  - by rewrite app_nil_r.
Qed.

Ltac only_step :=
  match goal with
  | |- only _ (ret _) => apply only_ret
  | |- only _ (raise _) => apply only_raise
  | |- only _ (emit _) => apply only_emit
  | |- only _ (print _) => apply only_emit
  | |- only _ (call _) => apply only_call
  | |- only _ (makedirs _) => apply only_call
  | |- only _ (inspect _) => apply only_inspect
  | |- only _ (json_load _) => apply only_json_load
  | |- only _ draw_uuid => apply only_draw_uuid
  | |- only _ (assert _ _) => apply only_assert
  | |- only _ (bind (ret _) _) => apply only_bind_ret; cbv beta
  | |- only _ (bind (raise _) _) => apply only_bind_raise
  | |- only _ (bind (bind (raise _) _) _) => apply only_bind_bind_raise
  | |- only _ (bind _ _) => apply only_bind; [|intros ?]
  | |- only _ (try_except _ _) => apply only_try_except; [|intros ?]
  | |- only _ (for_each _ _) => apply only_for_each; intros ?
  | |- only _ (if ?b then _ else _) => destruct b eqn:?
  | |- only _ (match ?x with _ => _ end) => destruct x eqn:?
  end.

Ltac only_tac := repeat only_step.

(** Which events each stage of [process_video] can append. *)

Lemma only_os_remove (P : event → Prop) p :
  P (CallRemove p) → only P (os_remove p).
Proof. intros. unfold os_remove. only_tac. done. Qed.

Lemma only_rmtree (P : event → Prop) p :
  P (CallRmtree p) → only P (rmtree p).
Proof. intros. unfold rmtree. only_tac. done. Qed.

Lemma only_pv_prepare (P : event → Prop) o : only P (pv_prepare o).
Proof.
  unfold pv_prepare, pv_frame_output_folder, pv_extract, pv_image_file_names.
  only_tac.
Qed.

Lemma only_pv_detect (P : event → Prop) o folder images Fs :
  (∀ m, is_warning (Print m) = false → P (Print m)) →
  (∀ a b c d e f, P (CallDetector a b c d e f)) →
  (∀ a b c d e, P (CallWriteResults a b c d e)) →
  only P (pv_detect o folder images Fs).
Proof.
  intros. unfold pv_detect, reuse_results, run_detector, write_results.
  only_tac; auto.
Qed.

Lemma only_pv_pipeline (P : event → Prop) o :
  (∀ m, is_warning (Print m) = false → P (Print m)) →
  (∀ a b c d e f, P (CallDetector a b c d e f)) →
  (∀ a b c d e, P (CallWriteResults a b c d e)) →
  only P (pv_pipeline o).
Proof.
  intros. unfold pv_pipeline.
  apply only_bind; [apply only_pv_prepare|]. intros [[[[? ?] ?] ?] ?].
  apply only_bind; [by apply only_pv_detect|]. intros ?. only_tac.
Qed.


(** A run is the pair of the world it leaves and what it returns. *)
Lemma run_eq {A} (m : M A) w r : snd (m w) = r → m w = (fst (m w), r).
Proof. intros <-. by destruct (m w). Qed.

Lemma bind_Ok_inv {A B} (m : M A) (k : A → M B) w w' b :
  bind m k w = (w', Ok b) →
  ∃ w1 a, m w = (w1, Ok a) ∧ k a w1 = (w', Ok b).
Proof.
  unfold bind. destruct (m w) as [w1 [a|e]]; [eauto | discriminate].
Qed.

Lemma rendering_rate_Ok frame_sample Fs w r :
  snd (rendering_rate frame_sample Fs w) = Ok r →
  r = stated_rate frame_sample Fs.
Proof.
  unfold rendering_rate, stated_rate, true_div.
  destruct frame_sample as [n|]; [destruct (n =? 0)%Z|]; simpl; congruence.
Qed.

Lemma only_pv_cleanup_rendered (P : event → Prop) o dir created detected :
  (∀ m, P (Print m)) → (∀ p, P (CallRemove p)) →
  (keep_rendered_frames o = false →
   force_rendered_frame_folder_deletion o = true
   ∨ (created = true ∧ pv_output_video_file o ≠ dir) →
   P (CallRmtree dir)) →
  only P (pv_cleanup_rendered o dir created detected).
Proof.
  intros HP HR HT. unfold pv_cleanup_rendered, pv_delete_rendered.
  destruct (keep_rendered_frames o) eqn:Hk; [only_tac|].
  apply only_try_except; [|intros ?; by apply only_emit].
  destruct (force_rendered_frame_folder_deletion o) eqn:Hf; simpl.
  { apply only_rmtree. auto. }
  destruct created; simpl.
  2:{ apply only_for_each. intros. by apply only_os_remove. }
  destruct (String.eqb_spec (pv_output_video_file o) dir); simpl.
  - apply only_for_each. intros. by apply only_os_remove.
  - apply only_rmtree. auto.
Qed.

Lemma only_pv_render_frames (P : event → Prop) o folder :
  (∀ a b c d, P (CallVisualize a b c d)) →
  only P (pv_render_frames o folder).
Proof.
  intros. unfold pv_render_frames.
  destruct (pv_rendering_output_dir o). only_tac. done.
Qed.

Lemma pv_render_frames_Ok o folder w w' dir created detected :
  pv_render_frames o folder w = (w', Ok (dir, created, detected)) →
  (dir, created) = pv_rendering_output_dir o.
Proof.
  unfold pv_render_frames. destruct (pv_rendering_output_dir o) as [d c].
  intros H.
  apply bind_Ok_inv in H as (? & ? & _ & H).
  apply bind_Ok_inv in H as (? & ? & _ & H).
  apply bind_Ok_inv in H as (? & ? & _ & H).
  unfold ret in H. congruence.
Qed.

Lemma only_pv_render (P : event → Prop) o folder Fs :
  (∀ m, P (Print m)) →
  (∀ a b c d, P (CallVisualize a b c d)) →
  (∀ frames,
     P (CallFramesToVideo frames (stated_rate (frame_sample o) Fs)
          (pv_output_video_file o) (fourcc o))) →
  (∀ p, P (CallRemove p)) →
  (keep_rendered_frames o = false →
   force_rendered_frame_folder_deletion o = true
   ∨ (frame_rendering_folder o = None
      ∧ pv_output_video_file o ≠ fst (pv_rendering_output_dir o)) →
   P (CallRmtree (fst (pv_rendering_output_dir o)))) →
  only P (pv_render o folder Fs).
Proof.
  intros HP HV HS HR HT. unfold pv_render.
  apply only_bind_res with
    (R := λ r, (fst (fst r), snd (fst r)) = pv_rendering_output_dir o).
  { by apply only_pv_render_frames. }
  { intros w [[dir created] detected] Hr. simpl.
    destruct (pv_render_frames o folder w) as [w' r] eqn:Hrun.
    simpl in Hr. subst r. by eapply pv_render_frames_Ok. }
  intros [[dir created] detected] Hdir. simpl in Hdir.
  apply only_bind_res with (R := λ r, r = stated_rate (frame_sample o) Fs).
  { unfold rendering_rate, true_div. only_tac. }
  { intros w r. apply rendering_rate_Ok. }
  intros ? ->. unfold stitch. only_tac; auto.
  apply only_pv_cleanup_rendered; auto.
  intros Hk Hc. rewrite <- Hdir in HT. simpl in HT. apply HT; [done|].
  destruct Hc as [?|[-> ?]]; [by left|right]. split; [|done].
  unfold pv_rendering_output_dir in Hdir.
  destruct (frame_rendering_folder o); [congruence|done].
Qed.

(** The extraction clean-up calls [rmtree] under the force flag only: for a
    folder the run created, line 214 goes on to read the misspelt
    attribute and raises before any removal. *)
Lemma only_pv_cleanup_extracted (P : event → Prop) o folder created frames :
  (∀ m, P (Print m)) →
  (keep_extracted_frames o = false →
   force_extracted_frame_folder_deletion o = false → created = false →
   ∀ p, P (CallRemove p)) →
  (keep_extracted_frames o = false →
   force_extracted_frame_folder_deletion o = true →
   P (CallRmtree folder)) →
  only P (pv_cleanup_extracted o folder created frames).
Proof.
  intros HP HR HT.
  unfold pv_cleanup_extracted, pv_delete_extracted,
    pv_delete_folder_condition, getattr_ouput_json_file.
  destruct (keep_extracted_frames o) eqn:Hk; [only_tac|].
  apply only_try_except; [|intros ?; by apply only_emit].
  destruct (force_extracted_frame_folder_deletion o) eqn:Hf.
  { only_tac; [done|]. apply only_rmtree. auto. }
  destruct created; only_tac; auto using only_os_remove, only_rmtree.
Qed.


Lemma only_pv_finish (P : event → Prop) o folder created frames Fs results :
  (∀ m, P (Print m)) →
  (∀ a b c d, P (CallVisualize a b c d)) →
  (render_output_video o = true → ∀ frames',
     P (CallFramesToVideo frames' (stated_rate (frame_sample o) Fs)
          (pv_output_video_file o) (fourcc o))) →
  (∀ p, P (CallRemove p)) →
  (render_output_video o = true → keep_rendered_frames o = false →
   force_rendered_frame_folder_deletion o = true
   ∨ (frame_rendering_folder o = None
      ∧ pv_output_video_file o ≠ fst (pv_rendering_output_dir o)) →
   P (CallRmtree (fst (pv_rendering_output_dir o)))) →
  (keep_extracted_frames o = false →
   force_extracted_frame_folder_deletion o = true →
   P (CallRmtree folder)) →
  only P (pv_finish o folder created frames Fs results).
Proof.
  intros HP HV HS HR HT1 HT2. unfold pv_finish.
  apply only_bind.
  { destruct (render_output_video o); [|apply only_ret].
    apply only_pv_render; auto. }
  intros _. apply only_bind; [apply only_pv_cleanup_extracted; auto|].
  intros _. apply only_ret.
Qed.

Lemma logs_pv_pipeline o : only (λ _, True) (pv_pipeline o).
Proof. by apply only_pv_pipeline. Qed.

Lemma logs_pv_finish o folder created frames Fs results :
  only (λ _, True) (pv_finish o folder created frames Fs results).
Proof. by apply only_pv_finish. Qed.

Lemma emitted_process_video o w :
  emitted (process_video o) w
  = emitted (pv_pipeline o) w
    ++ match pv_pipeline o w with
       | (w1, Ok (folder, created, frames, Fs, results)) =>
           emitted (pv_finish o folder created frames Fs results) w1
       | (_, Raise _) => []
       end.
Proof.
  unfold process_video. rewrite emitted_bind.
  - destruct (pv_pipeline o w) as [w1 [[[[[? ?] ?] ?] ?]|?]]; done.
  - apply logs_pv_pipeline.
  - intros [[[[? ?] ?] ?] ?]. apply logs_pv_finish.
Qed.

Lemma process_video_run o w :
  process_video o w
  = match pv_pipeline o w with
    | (w1, Ok (folder, created, frames, Fs, results)) =>
        pv_finish o folder created frames Fs results w1
    | (w1, Raise e) => (w1, Raise e)
    end.
Proof.
  unfold process_video, bind.
  destruct (pv_pipeline o w) as [w1 [[[[[? ?] ?] ?] ?]|?]]; done.
Qed.

(** The folder the pipeline reports is the caller's when one was given, and
    is marked as created exactly when none was. *)
Lemma pv_frame_output_folder_Ok o w w1 folder created :
  pv_frame_output_folder o w = (w1, Ok (folder, created)) →
  match frame_folder o with
  | Some f => folder = f ∧ created = false
  | None => created = true
  end.
Proof.
  unfold pv_frame_output_folder. intros H.
  apply bind_Ok_inv in H as (? & ? & _ & H).
  apply bind_Ok_inv in H as (? & ? & _ & H).
  apply bind_Ok_inv in H as (? & ? & _ & H).
  apply bind_Ok_inv in H as (? & [f c] & Hf & H).
  apply bind_Ok_inv in H as (? & ? & _ & H).
  unfold ret in H. injection H as _ -> ->.
  destruct (frame_folder o).
  - unfold ret in Hf. by injection Hf as _ -> ->.
  - apply bind_Ok_inv in Hf as (? & ? & _ & Hf).
    unfold ret in Hf. by injection Hf as _ _ ->.
Qed.

Lemma pv_prepare_Ok o w w1 folder created frames Fs images :
  pv_prepare o w = (w1, Ok (folder, created, frames, Fs, images)) →
  match frame_folder o with
  | Some f => folder = f ∧ created = false
  | None => created = true
  end.
Proof.
  unfold pv_prepare. intros H.
  apply bind_Ok_inv in H as (? & [f c] & Hf & H).
  apply bind_Ok_inv in H as (? & [? ?] & _ & H).
  apply bind_Ok_inv in H as (? & ? & _ & H).
  unfold ret in H. injection H as _ -> -> _ _ _.
  by eapply pv_frame_output_folder_Ok.
Qed.

Lemma pv_pipeline_Ok o w w1 folder created frames Fs results :
  pv_pipeline o w = (w1, Ok (folder, created, frames, Fs, results)) →
  match frame_folder o with
  | Some f => folder = f ∧ created = false
  | None => created = true
  end.
Proof.
  unfold pv_pipeline. intros H.
  apply bind_Ok_inv in H as (? & [[[[f c] ?] ?] ?] & Hp & H).
  apply bind_Ok_inv in H as (? & ? & _ & H).
  unfold ret in H. injection H as _ -> -> _ _ _.
  by eapply pv_prepare_Ok.
Qed.


Lemma Forall_In_false (f : event → bool) d e :
  Forall (λ e, f e = false) d → In e d → f e = true → False.
Proof.
  intros HF Hin He. rewrite Forall_forall in HF.
  apply list_elem_of_In in Hin. specialize (HF e Hin). congruence.
Qed.

Lemma In_emitted_bind {A B} (m : M A) (k : A → M B) w w1 a e :
  only (λ _, True) m → (∀ a, only (λ _, True) (k a)) →
  m w = (w1, Ok a) → In e (emitted (k a) w1) → In e (emitted (bind m k) w).
Proof.
  intros Hm Hk Hrun Hin. rewrite emitted_bind, Hrun by done.
  apply in_or_app. by right.
Qed.

Lemma emitted_pv_cleanup_extracted_forced o folder created frames w :
  keep_extracted_frames o = false →
  force_extracted_frame_folder_deletion o = true →
  In (CallRmtree folder)
    (emitted (pv_cleanup_extracted o folder created frames) w).
Proof.
  intros Hk Hf.
  unfold emitted, pv_cleanup_extracted, pv_delete_extracted,
    pv_delete_folder_condition.
  rewrite Hk, Hf.
  cbv beta iota delta
    [try_except bind ret print rmtree emit call fs_rmtree]. simpl.
  destruct (fs w !! folder) as [[|?]|]; simpl;
    rewrite <- ?app_assoc, drop_app_length; simpl; auto.
Qed.

(** ** Recursive removal *)

(** The rendering clean-up does call [rmtree] on the rendering folder when
    line 195 says so. *)
Lemma emitted_pv_cleanup_rendered_tree o dir created detected w :
  keep_rendered_frames o = false →
  force_rendered_frame_folder_deletion o = true
  ∨ (created = true ∧ pv_output_video_file o ≠ dir) →
  In (CallRmtree dir) (emitted (pv_cleanup_rendered o dir created detected) w).
Proof.
  intros Hk Hc.
  assert (Hcond : force_rendered_frame_folder_deletion o
                  || created && negb (String.eqb (pv_output_video_file o) dir)
                  = true).
  { destruct Hc as [->|[-> Hne]]; [done|].
    apply String.eqb_neq in Hne. rewrite Hne. apply orb_true_r. }
  unfold emitted, pv_cleanup_rendered, pv_delete_rendered.
  rewrite Hk, Hcond.
  cbv beta iota delta
    [try_except bind ret print rmtree emit call fs_rmtree]. simpl.
  destruct (fs w !! dir) as [[|?]|]; simpl;
    rewrite <- ?app_assoc, drop_app_length; simpl; auto.
Qed.

(** With a frame folder created by the run and no force flag, evaluating the
    condition of line 214 raises, and the clean-up ends with a warning:
    no file is removed. *)
Lemma pv_cleanup_extracted_created_folder o folder frames w :
  keep_extracted_frames o = false →
  force_extracted_frame_folder_deletion o = false →
  pv_cleanup_extracted o folder true frames w
  = ({| fs := fs w;
        log := log w
               ++ [Print (WarnRemovingExtractedFrames folder
                            (AttributeError "ouput_json_file"))];
        uuids_drawn := uuids_drawn w |}, Ok tt).
Proof.
  intros Hk Hf.
  unfold pv_cleanup_extracted, pv_delete_extracted,
    pv_delete_folder_condition, getattr_ouput_json_file, try_except.
  by rewrite Hk, Hf.
Qed.



(** ** Calls of the detector *)

Lemma detector_calls_app d1 d2 :
  detector_calls (d1 ++ d2) = (detector_calls d1 + detector_calls d2)%nat.
Proof. unfold detector_calls. by rewrite List.filter_app, length_app. Qed.

Lemma detector_calls_none d :
  Forall (λ e, is_detector_call e = false) d → detector_calls d = 0%nat.
Proof.
  unfold detector_calls. induction 1 as [|e d He _ IH]; simpl; [done|].
  by rewrite He.
Qed.

Lemma detector_calls_only {A} (m : M A) w :
  only (λ e, is_detector_call e = false) m →
  detector_calls (emitted m w) = 0%nat.
Proof.
  intros Hm. apply detector_calls_none. by apply (only_emitted _ m w).
Qed.

Lemma emitted_bind_pure {A B} (m : M A) (k : A → M B) w a :
  m w = (w, Ok a) → emitted (bind m k) w = emitted (k a) w.
Proof. intros Hm. unfold emitted, bind. by rewrite Hm. Qed.

Lemma reuse_results_run o file w :
  reuse_results o file w
  = (w, Ok (reuse_results_if_available o && isfile file (fs w))).
Proof. unfold reuse_results. by destruct (reuse_results_if_available o). Qed.

(** The detector is called once, and what it returns is persisted with the
    frame rate. *)
Lemma emitted_run_and_persist o (file folder : path) images
    (Fs : frame_rate) w {A} (f : list im_result → A) :
  let step :=
    (results <- run_detector o images ;;
     write_results o results file folder Fs ;;
     ret (f results)) in
  detector_calls (emitted step w) = 1%nat
  ∧ (∀ results fs2,
       load_and_run_detector_batch (model_file o) images
         (json_confidence_threshold o) (n_cores o) (negb (verbose o))
         (class_mapping_filename o) (fs w) = (Ok results, fs2) →
       In (CallWriteResults results file folder (model_file o) Fs)
         (emitted step w)).
Proof.
  intros step. subst step. unfold emitted, run_detector, write_results.
  cbv beta iota delta [bind ret emit call]. simpl.
  destruct (load_and_run_detector_batch _ _ _ _ _ _ (fs w))
    as [[results|e] fs2]; simpl.
  - destruct (write_results_to_file _ _ _ _ _ fs2) as [[[]|e] fs3];
      simpl; rewrite <- ?app_assoc, drop_app_length; simpl;
      (split; [done|]); intros ? ? [= <- _]; auto.
  - rewrite drop_app_length. split; [done|]. intros ? ? [=].
Qed.

Lemma emitted_pv_detect o folder images Fs w :
  let reuse :=
    reuse_results_if_available o && isfile (pv_output_json_file o) (fs w) in
  detector_calls (emitted (pv_detect o folder images Fs) w)
  = (if reuse then 0 else 1)%nat
  ∧ (reuse = false → ∀ results fs2,
       load_and_run_detector_batch (model_file o) images
         (json_confidence_threshold o) (n_cores o) (negb (verbose o))
         (class_mapping_filename o) (fs w) = (Ok results, fs2) →
       In (CallWriteResults results (pv_output_json_file o) folder
             (model_file o) (RateOfVideo Fs))
         (emitted (pv_detect o folder images Fs) w)).
Proof.
  intros reuse. unfold pv_detect.
  rewrite (emitted_bind_pure _ _ _ _ (reuse_results_run _ _ _)).
  fold reuse. destruct reuse.
  - split; [|done]. apply detector_calls_only. only_tac. done.
  - split; [|intros _]; apply emitted_run_and_persist.
Qed.

(** Which events each stage of [process_video_folder] can append. *)

Lemma only_pvf_extract (P : event → Prop) o :
  P (Print ExtractingFrames) → only P (pvf_extract o).
Proof.
  intros. unfold pvf_extract, pvf_validate, pvf_frame_output_folder.
  only_tac; done.
Qed.

Lemma only_pvf_detect (P : event → Prop) o frames_json folder images Fs :
  (∀ m, is_warning (Print m) = false → P (Print m)) →
  (∀ a b c d e f, P (CallDetector a b c d e f)) →
  (∀ a b c d e, P (CallWriteResults a b c d e)) →
  only P (pvf_detect o frames_json folder images Fs).
Proof.
  intros. unfold pvf_detect, reuse_results, run_detector, write_results.
  only_tac; auto.
Qed.

Lemma only_pvf_aggregate (P : event → Prop) frames_json video_json :
  (∀ m, is_warning (Print m) = false → P (Print m)) →
  (∀ a b, P (CallAggregate a b)) →
  only P (pvf_aggregate frames_json video_json).
Proof. intros. unfold pvf_aggregate. only_tac; auto. Qed.

Lemma index_of_Ok x l w i : snd (index_of x l w) = Ok i → list_index x l = Some i.
Proof.
  unfold index_of. destruct (list_index x l); simpl; congruence.
Qed.

Lemma subscript_Ok {A} (l : list A) i w a :
  snd (subscript l i w) = Ok a → l !! i = Some a.
Proof. unfold subscript. destruct (l !! i); simpl; congruence. Qed.

Lemma global_Ok {A} name (value : option A) w a :
  snd (global name value w) = Ok a → value = Some a.
Proof. unfold global. destruct value; simpl; congruence. Qed.

(** The one call of the video assembler the worker can make: for its
    video, found in the global list, at the rate listed for it. *)
Lemma only_process_single_video (P : event → Prop) g video o dir detected
    in_place output_folder Fs frame_sample :
  (∀ m, is_warning (Print m) = false → P (Print m)) →
  (∀ names i video_fs output,
     video_filenames g = Some names →
     list_index video names = Some i → Fs !! i = Some video_fs →
     (if in_place : bool
      then ∃ video_abs,
             input_video_file_abs g = Some video_abs
             ∧ output = insert_before_extension video_abs "annotated" "_"
      else output = join output_folder (relpath video (input_video_file o))) →
     P (CallFramesToVideo
          (video_frame_files_of
             (join dir (relpath video (input_video_file o))) detected)
          (stated_rate frame_sample video_fs) output (fourcc o))) →
  only P (process_single_video g video o dir detected in_place
            output_folder Fs frame_sample).
Proof.
  intros HP HS. unfold process_single_video.
  apply only_bind_res with (R := λ names, video_filenames g = Some names).
  { unfold global. only_tac. }
  { intros w names. apply global_Ok. }
  intros names Hnames.
  apply only_bind_res with (R := λ i, list_index video names = Some i).
  { unfold index_of. only_tac. }
  { intros w i. apply index_of_Ok. }
  intros i Hi.
  apply only_bind_res with (R := λ video_fs, Fs !! i = Some video_fs).
  { unfold subscript. only_tac. }
  { intros w a. apply subscript_Ok. }
  intros video_fs Hfs.
  apply only_bind_res with (R := λ r, r = stated_rate frame_sample video_fs).
  { unfold rendering_rate, true_div. only_tac. }
  { intros w r. apply rendering_rate_Ok. }
  intros ? ->.
  apply only_bind; [only_tac|]. intros found.
  apply only_bind; [only_tac|]. intros _.
  apply only_bind; [only_tac|]. intros _.
  destruct in_place.
  - apply only_bind_res
      with (R := λ output, ∃ video_abs,
                    input_video_file_abs g = Some video_abs
                    ∧ output
                      = insert_before_extension video_abs "annotated" "_").
    { unfold global. only_tac. }
    { intros w output. unfold global, bind, ret, raise.
      destruct (input_video_file_abs g) as [video_abs|]; simpl; [|done].
      intros [= <-]. by exists video_abs. }
    intros output Houtput. unfold stitch. only_tac; eauto.
  - apply only_bind_ret. unfold stitch. only_tac; eauto.
Qed.

Lemma only_pvf_render_frames (P : event → Prop) o frames_json folder tl :
  (∀ a b c d, P (CallVisualize a b c d)) →
  only P (pvf_render_frames o frames_json folder tl).
Proof.
  intros. unfold pvf_render_frames. only_tac; auto.
Qed.

Lemma only_pvf_output_video_folder (P : event → Prop) o :
  only P (pvf_output_video_folder o).
Proof. unfold pvf_output_video_folder. only_tac. Qed.

Lemma only_pvf_render (P : event → Prop) o frames_json folder tl :
  (∀ a b c d, P (CallVisualize a b c d)) →
  only P (pvf_render o frames_json folder tl).
Proof.
  intros. unfold pvf_render.
  apply only_bind; [by apply only_pvf_render_frames|]. intros _.
  apply only_bind; [by apply only_pvf_output_video_folder|]. intros _.
  apply only_ret.
Qed.

Lemma only_pvf_process_frames (P : event → Prop) o video_json frames_json
    folder tl frames Fs :
  (∀ m, is_warning (Print m) = false → P (Print m)) →
  (∀ a b c d e f, P (CallDetector a b c d e f)) →
  (∀ a b c d e, P (CallWriteResults a b c d e)) →
  (∀ a b, P (CallAggregate a b)) →
  (∀ a b c d, P (CallVisualize a b c d)) →
  only P (pvf_process_frames o video_json frames_json folder tl frames Fs).
Proof.
  intros. unfold pvf_process_frames.
  apply only_bind; [by apply only_pvf_detect|]. intros _.
  apply only_bind; [by apply only_pvf_aggregate|]. intros _.
  destruct (render_output_video o); [|apply only_ret].
  by apply only_pvf_render.
Qed.

(** What a folder run can append to the log: what it prints, and the calls
    of the detector, of the two writers of results and of the renderer. *)
Lemma only_process_video_folder (P : event → Prop) o :
  (∀ m, is_warning (Print m) = false → P (Print m)) →
  (∀ a b c d e f, P (CallDetector a b c d e f)) →
  (∀ a b c d e, P (CallWriteResults a b c d e)) →
  (∀ a b, P (CallAggregate a b)) →
  (∀ a b c d, P (CallVisualize a b c d)) →
  only P (process_video_folder o).
Proof.
  intros HP HD HW HA HV. unfold process_video_folder.
  apply only_bind; [by apply only_pvf_extract; auto|].
  intros [[[[video_json frames_json] folder] tl] [[ff Fs] vf]].
  destruct (length (concat ff) =? 0)%nat.
  - destruct (length vf =? 0)%nat; by apply only_emit; auto.
  - by apply only_pvf_process_frames.
Qed.

Lemma emitted_pvf_detect o frames_json folder images Fs w :
  let reuse := reuse_results_if_available o && isfile frames_json (fs w) in
  detector_calls (emitted (pvf_detect o frames_json folder images Fs) w)
  = (if reuse then 0 else 1)%nat
  ∧ (reuse = false → ∀ results fs2,
       load_and_run_detector_batch (model_file o) images
         (json_confidence_threshold o) (n_cores o) (negb (verbose o))
         (class_mapping_filename o) (fs w) = (Ok results, fs2) →
       In (CallWriteResults results frames_json folder (model_file o)
             (RatesOfVideos Fs))
         (emitted (pvf_detect o frames_json folder images Fs) w)).
Proof.
  intros reuse. unfold pvf_detect.
  rewrite (emitted_bind_pure _ _ _ _ (reuse_results_run _ _ _)).
  fold reuse. destruct reuse.
  - split; [|done]. apply detector_calls_only. only_tac. done.
  - rewrite emitted_bind.
    2:{ by apply only_emit. }
    2:{ intros _. unfold run_detector, write_results. only_tac; done. }
    simpl.
    set (w' := {| fs := fs w; log := log w ++ [Print RunningMegaDetector];
                  uuids_drawn := uuids_drawn w |}).
    destruct (emitted_run_and_persist o frames_json folder images
                (RatesOfVideos Fs) w' Some) as [Hcalls Hwrite].
    split.
    + rewrite detector_calls_app, Hcalls.
      replace (emitted (print RunningMegaDetector) w)
        with [Print RunningMegaDetector]; [done|].
      symmetry. by apply emitted_intro.
    + intros _ results fs2 Hrun. apply in_or_app. right.
      by apply (Hwrite results fs2).
Qed.

Lemma emitted_bind_ret {A B} (m : M A) (f : A → B) w :
  only (λ _, True) m → emitted (a <- m ;; ret (f a)) w = emitted m w.
Proof.
  intros Hm. rewrite emitted_bind; [|done|intros; apply only_ret].
  destruct (m w) as [w1 [a|e]]; [|by rewrite app_nil_r].
  replace (emitted (ret (f a)) w1) with (@nil event);
    [by rewrite app_nil_r|].
  symmetry. apply emitted_intro. simpl. by rewrite app_nil_r.
Qed.

Lemma logs_pv_detect o folder images Fs :
  only (λ _, True) (pv_detect o folder images Fs).
Proof. by apply only_pv_detect. Qed.

Lemma emitted_pv_pipeline o w w1 folder created frames Fs images :
  pv_prepare o w = (w1, Ok (folder, created, frames, Fs, images)) →
  emitted (pv_pipeline o) w
  = emitted (pv_prepare o) w ++ emitted (pv_detect o folder images Fs) w1.
Proof.
  intros Hprep. unfold pv_pipeline. rewrite emitted_bind, Hprep.
  - f_equal. apply emitted_bind_ret, logs_pv_detect.
  - apply only_pv_prepare.
  - intros [[[[? ?] ?] ?] ?].
    apply only_bind; [apply logs_pv_detect | intros; apply only_ret].
Qed.

Lemma detector_calls_process_video o w w1 folder created frames Fs images :
  pv_prepare o w = (w1, Ok (folder, created, frames, Fs, images)) →
  detector_calls (emitted (process_video o) w)
  = detector_calls (emitted (pv_detect o folder images Fs) w1).
Proof.
  intros Hprep.
  rewrite emitted_process_video, (emitted_pv_pipeline _ _ _ _ _ _ _ _ Hprep).
  rewrite !detector_calls_app.
  rewrite (detector_calls_only (pv_prepare o)) by apply only_pv_prepare.
  replace (detector_calls
             match pv_pipeline o w with
             | (w2, Ok (f, c, fr, F, r)) => emitted (pv_finish o f c fr F r) w2
             | (_, Raise _) => []
             end) with 0%nat; [lia|].
  destruct (pv_pipeline o w) as [w2 [[[[[? ?] ?] ?] ?]|?]]; [|done].
  symmetry. apply detector_calls_only. by apply only_pv_finish.
Qed.

Lemma logs_pvf_extract o : only (λ _, True) (pvf_extract o).
Proof. by apply only_pvf_extract. Qed.

Lemma logs_pvf_process_frames o video_json frames_json folder tl frames Fs :
  only (λ _, True)
    (pvf_process_frames o video_json frames_json folder tl frames Fs).
Proof. by apply only_pvf_process_frames. Qed.

(** A folder run that extracted some frame goes on to process them. *)
Lemma emitted_process_video_folder o w w1 video_json frames_json folder tl
    frame_filenames Fs video_filenames :
  pvf_extract o w
  = (w1, Ok (video_json, frames_json, folder, tl,
             (frame_filenames, Fs, video_filenames))) →
  concat frame_filenames ≠ [] →
  emitted (process_video_folder o) w
  = emitted (pvf_extract o) w
    ++ emitted (pvf_process_frames o video_json frames_json folder tl
                  (concat frame_filenames) Fs) w1.
Proof.
  intros Hext Hne. unfold process_video_folder.
  rewrite emitted_bind, Hext.
  - destruct (concat frame_filenames); done.
  - apply logs_pvf_extract.
  - intros [[[[? ?] ?] ?] [[? ?] ?]].
    destruct (length (concat l) =? 0)%nat.
    + destruct (length l1 =? 0)%nat; by apply only_emit.
    + apply logs_pvf_process_frames.
Qed.

(** ** Reuse of results *)


(** ** Where a folder run ends *)

Lemma only_at_bind {A B} P (m : M A) (k : A → M B) w :
  only_at P m w → (∀ w1 a, m w = (w1, Ok a) → only_at P (k a) w1) →
  only_at P (bind m k) w.
Proof.
  intros (d1 & Hd1 & HP1) Hk. unfold only_at, bind.
  destruct (m w) as [w1 [a|e]]; simpl in *.
  - destruct (Hk w1 a eq_refl) as (d2 & Hd2 & HP2).
    exists (d1 ++ d2). rewrite Hd2, Hd1, app_assoc. split; [done|].
    by apply Forall_app.
  - by exists d1.
Qed.

Lemma only_at_emitted {A} P (m : M A) w :
  only_at P m w → Forall P (emitted m w).
Proof.
  intros (d & Hd & HP). unfold emitted. by rewrite Hd, drop_app_length.
Qed.

Lemma process_video_folder_run o w w1 video_json frames_json folder tl
    frame_filenames Fs video_filenames :
  pvf_extract o w
  = (w1, Ok (video_json, frames_json, folder, tl,
             (frame_filenames, Fs, video_filenames))) →
  concat frame_filenames ≠ [] →
  process_video_folder o w
  = pvf_process_frames o video_json frames_json folder tl
      (concat frame_filenames) Fs w1.
Proof.
  intros Hext Hne. unfold process_video_folder, bind. rewrite Hext.
  destruct (concat frame_filenames); done.
Qed.

(** A folder run calls neither the video assembler nor [os.remove] nor
    [shutil.rmtree], and prints no warning. *)
Lemma process_video_folder_stops_short o w :
  Forall (λ ev, is_stitch ev = false ∧ is_removal ev = false
                ∧ is_warning ev = false)
    (emitted (process_video_folder o) w).
Proof.
  apply only_emitted. by apply only_process_video_folder.
Qed.

(** As the module stands, the worker raises on its first line. *)
Lemma process_single_video_unbound video o dir detected in_place
    output_folder Fs frame_sample w :
  process_single_video unbound video o dir detected in_place output_folder
    Fs frame_sample w
  = (w, Raise (NameError "video_filenames")).
Proof. done. Qed.


(** ** Clean-up and the outcome of a run *)

Lemma snd_bind_ext {A B} (m : M A) (k k' : A → M B) w :
  (∀ a w1, snd (k a w1) = snd (k' a w1)) →
  snd (bind m k w) = snd (bind m k' w).
Proof. intros Hk. unfold bind. destruct (m w) as [w1 [a|e]]; auto. Qed.

Lemma snd_bind_worlds {A B} (m m' : M A) (k k' : A → M B) w w' :
  snd (m w) = snd (m' w') → (∀ a w1 w2, snd (k a w1) = snd (k' a w2)) →
  snd (bind m k w) = snd (bind m' k' w').
Proof.
  intros Hm Hk. unfold bind.
  destruct (m w) as [w1 [a|e]], (m' w') as [w2 [a'|e']];
    simpl in Hm; try discriminate; injection Hm as <-; auto.
Qed.

Lemma pv_cleanup_rendered_returns o dir created detected w :
  snd (pv_cleanup_rendered o dir created detected w) = Ok tt.
Proof.
  unfold pv_cleanup_rendered, try_except.
  destruct (keep_rendered_frames o); [done|].
  by destruct (pv_delete_rendered o dir created detected w) as [w1 [[]|e]].
Qed.

Lemma pv_cleanup_extracted_returns o folder created frames w :
  snd (pv_cleanup_extracted o folder created frames w) = Ok tt.
Proof.
  unfold pv_cleanup_extracted, try_except.
  destruct (keep_extracted_frames o); [done|].
  by destruct (pv_delete_extracted o folder created frames w) as [w1 [[]|e]].
Qed.

Lemma pv_render_outcome_keep_all o folder Fs w :
  snd (pv_render o folder Fs w) = snd (pv_render (keep_all o) folder Fs w).
Proof.
  unfold pv_render.
  apply snd_bind_ext. intros [[dir created] detected] w1.
  apply snd_bind_ext. intros rate w2.
  apply snd_bind_ext. intros _ w3.
  apply snd_bind_ext. intros _ w4.
  by rewrite !pv_cleanup_rendered_returns.
Qed.

Lemma pv_finish_outcome_keep_all o folder created frames Fs results w :
  snd (pv_finish o folder created frames Fs results w)
  = snd (pv_finish (keep_all o) folder created frames Fs results w).
Proof.
  unfold pv_finish. apply snd_bind_worlds.
  - simpl. destruct (render_output_video o); [|done].
    apply pv_render_outcome_keep_all.
  - intros _ w1 w2. unfold bind.
    pose proof (pv_cleanup_extracted_returns o folder created frames w1) as H1.
    pose proof (pv_cleanup_extracted_returns (keep_all o) folder created
                  frames w2) as H2.
    destruct (pv_cleanup_extracted o folder created frames w1) as [? [[]|?]],
      (pv_cleanup_extracted (keep_all o) folder created frames w2)
        as [? [[]|?]];
      simpl in *; congruence.
Qed.


(** ** Removing the extracted frames *)

(** Removing files that are all there removes them one by one. *)
Lemma for_each_os_remove frames w :
  NoDup frames → (∀ f, f ∈ frames → isfile f (fs w) = true) →
  for_each frames os_remove w
  = ({| fs := foldl (λ fs f, delete f fs) (fs w) frames;
        log := log w ++ map CallRemove frames;
        uuids_drawn := uuids_drawn w |}, Ok tt).
Proof.
  revert w. induction frames as [|f frames IH]; intros w Hnd Hfiles.
  - simpl. unfold ret. rewrite app_nil_r. by destruct w.
  - apply NoDup_cons in Hnd as [Hnotin Hnd].
    cbn [for_each]. unfold bind at 1. unfold os_remove.
    cbv beta iota delta [bind emit call fs_remove]. simpl.
    pose proof (Hfiles f (list_elem_of_here _ _)) as Hf. unfold isfile in Hf.
    destruct (fs w !! f) as [[|c]|] eqn:Hlook; try discriminate. simpl.
    rewrite IH; simpl.
    + by rewrite <- app_assoc.
    + done.
    + intros g Hg. unfold isfile. rewrite lookup_delete_ne.
      * apply (Hfiles g). by apply list_elem_of_further.
      * intros ->. done.
Qed.

Lemma lookup_foldl_delete (frames : list path) (m : FS) p :
  foldl (λ fs f, delete f fs) m frames !! p
  = if bool_decide (p ∈ frames) then None else m !! p.
Proof.
  revert m. induction frames as [|f frames IH]; intros m; simpl; [done|].
  rewrite IH. destruct (decide (p = f)) as [->|Hne].
  - rewrite lookup_delete_eq. rewrite (bool_decide_eq_true_2 (f ∈ f :: frames)).
    + by destruct (bool_decide (f ∈ frames)).
    + apply list_elem_of_here.
  - rewrite lookup_delete_ne by done.
    destruct (bool_decide (p ∈ frames)) eqn:Hin.
    + apply bool_decide_eq_true in Hin.
      rewrite bool_decide_eq_true_2; [done|]. by apply list_elem_of_further.
    + apply bool_decide_eq_false in Hin.
      rewrite bool_decide_eq_false_2; [done|].
      intros [?|?]%elem_of_cons; done.
Qed.

(** With a frame folder of the caller's and no force flag, the clean-up
    removes the frame files, each once, and nothing else: every other path
    is as it was, and the folder is still there. *)
Lemma pv_cleanup_extracted_callers_folder o folder frames w :
  keep_extracted_frames o = false →
  force_extracted_frame_folder_deletion o = false →
  NoDup frames → (∀ f, f ∈ frames → isfile f (fs w) = true) →
  isdir folder (fs w) = true →
  let w' := fst (pv_cleanup_extracted o folder false frames w) in
  emitted (pv_cleanup_extracted o folder false frames) w
  = map CallRemove frames
  ∧ (∀ p, fs w' !! p = if bool_decide (p ∈ frames) then None else fs w !! p)
  ∧ isdir folder (fs w') = true.
Proof.
  intros Hk Hf Hnd Hfiles Hdir w'. subst w'.
  unfold emitted, pv_cleanup_extracted, pv_delete_extracted,
    pv_delete_folder_condition, try_except.
  rewrite Hk, Hf.
  change (bind (ret false) ?k) with (k false). cbv beta iota.
  rewrite (for_each_os_remove frames w Hnd Hfiles). simpl.
  rewrite drop_app_length. split; [done|].
  split; [intros p; apply lookup_foldl_delete|].
  unfold isdir in *. rewrite lookup_foldl_delete.
  destruct (bool_decide (folder ∈ frames)) eqn:Hin; [|done].
  apply bool_decide_eq_true in Hin. specialize (Hfiles folder Hin).
  unfold isfile in Hfiles.
  destruct (fs w !! folder) as [[|?]|]; discriminate.
Qed.



(** ** A folder without frames *)

(** C9.  When the extraction of a folder run returns no frame at all,
    [process_video_folder] returns without raising, and the one thing it
    does after extraction is to print which case it found: no videos in the
    folder, or videos none of which yielded a frame. *)
Theorem C9_no_frames_is_reported_not_raised o w w1 video_json frames_json
    folder tl frame_filenames Fs video_filenames :
  pvf_extract o w
  = (w1, Ok (video_json, frames_json, folder, tl,
             (frame_filenames, Fs, video_filenames))) →
  concat frame_filenames = [] →
  process_video_folder o w
  = ({| fs := fs w1;
        log := log w1
               ++ [Print (match video_filenames with
                          | [] => NoVideosFound (input_video_file o)
                          | _ :: _ => NoFramesExtracted (input_video_file o)
                          end)];
        uuids_drawn := uuids_drawn w1 |}, Ok tt).
Proof.
  intros Hext Hnone. unfold process_video_folder, bind.
  rewrite Hext, Hnone. simpl. by destruct video_filenames.
Qed.

(** ** The command line *)

(** C10.  The command line is a function of the options that does not read
    the two force-deletion flags and [verbose]: whatever they are set to,
    the command is that of the same options with the three at their
    defaults.  So no reader of the command can tell such configurations
    apart, and configurations that differ in those settings alone share one
    command. *)
Theorem C10_command_drops_force_flags_and_verbose o :
  (∀ force_extracted force_rendered verbose',
     options_to_command
       (with_unemitted force_extracted force_rendered verbose' o)
     = options_to_command o)
  ∧ options_to_command o
    = options_to_command (with_unemitted false false false o)
  ∧ (∀ (A : Type) (parse : string → A),
       parse (options_to_command o)
       = parse (options_to_command (with_unemitted false false false o)))
  ∧ with_unemitted true true true o ≠ with_unemitted false false false o.
Proof.
  split; [|split; [|split]]; try reflexivity; discriminate.
Qed.

(** ** Stitching *)

Lemma emitted_stitch frames rate output codec w :
  emitted (stitch frames rate output codec) w
  = [CallFramesToVideo frames rate output codec].
Proof.
  apply emitted_intro. unfold stitch, bind, emit, call. simpl.
  by destruct (frames_to_video frames rate output codec (fs w)) as [[[]|?] ?].
Qed.

Lemma logs_stitch frames rate output codec :
  only (λ _, True) (stitch frames rate output codec).
Proof. unfold stitch. only_tac. done. Qed.

Lemma rendering_rate_run frame_sample Fs w :
  frame_sample ≠ Some 0 →
  rendering_rate frame_sample Fs w = (w, Ok (stated_rate frame_sample Fs)).
Proof.
  intros Hne. unfold rendering_rate, stated_rate, true_div.
  destruct frame_sample as [n|]; [|done].
  destruct (Z.eqb_spec n 0) as [->|]; [by destruct Hne|done].
Qed.

Lemma In_emitted_bind_l {A B} (m : M A) (k : A → M B) w e :
  only (λ _, True) m → (∀ a, only (λ _, True) (k a)) →
  In e (emitted m w) → In e (emitted (bind m k) w).
Proof.
  intros Hm Hk Hin. rewrite emitted_bind by done. apply in_or_app. by left.
Qed.

Lemma logs_pv_cleanup_rendered o dir created detected :
  only (λ _, True) (pv_cleanup_rendered o dir created detected).
Proof. by apply only_pv_cleanup_rendered. Qed.

(** Once the frames are rendered and the stride is not zero, the rendering
    block stitches what the renderer returned, at the stated rate. *)
Lemma pv_render_stitches o folder Fs w w1 dir created detected :
  pv_render_frames o folder w = (w1, Ok (dir, created, detected)) →
  frame_sample o ≠ Some 0 →
  In (CallFramesToVideo detected (stated_rate (frame_sample o) Fs)
        (pv_output_video_file o) (fourcc o))
    (emitted (pv_render o folder Fs) w).
Proof.
  intros Hframes Hstride. unfold pv_render.
  eapply In_emitted_bind; [by apply only_pv_render_frames| |exact Hframes|].
  { intros [[? ?] ?]. unfold rendering_rate, true_div, stitch.
    only_tac; try done. apply logs_pv_cleanup_rendered. }
  cbv beta iota.
  rewrite (emitted_bind_pure _ _ _ _ (rendering_rate_run _ Fs w1 Hstride)).
  eapply In_emitted_bind; [by apply only_emit| |reflexivity|].
  { intros _. apply only_bind; [apply logs_stitch|].
    intros _. apply logs_pv_cleanup_rendered. }
  apply In_emitted_bind_l; [apply logs_stitch| |].
  { intros _. apply logs_pv_cleanup_rendered. }
  rewrite emitted_stitch. by left.
Qed.

Lemma index_of_run x l w i : list_index x l = Some i → index_of x l w = (w, Ok i).
Proof. intros H. unfold index_of. by rewrite H. Qed.

Lemma subscript_run {A} (l : list A) i a w :
  l !! i = Some a → subscript l i w = (w, Ok a).
Proof. intros H. unfold subscript. by rewrite H. Qed.

(** The worker stitches its video's frames at the video's rate once it
    finds the global list of videos, the video's folder and frames, and has
    an output folder to write to. *)
Lemma process_single_video_stitches g names video o dir detected
    output_folder Fs frame_sample w i video_fs fs' :
  video_filenames g = Some names →
  list_index video names = Some i → Fs !! i = Some video_fs →
  frame_sample ≠ Some 0 →
  let relative := relpath video (input_video_file o) in
  isdir (join dir relative) (fs w) = true →
  video_frame_files_of (join dir relative) detected ≠ [] →
  fs_makedirs (dirname (join output_folder relative)) (fs w) = (Ok tt, fs') →
  In (CallFramesToVideo (video_frame_files_of (join dir relative) detected)
        (stated_rate frame_sample video_fs) (join output_folder relative)
        (fourcc o))
    (emitted (process_single_video g video o dir detected false
                output_folder Fs frame_sample) w).
Proof.
  intros Hnames Hi Hfs Hstride relative Hdir Hframes Hmk.
  unfold process_single_video. rewrite Hnames.
  rewrite (emitted_bind_pure _ _ w names) by done.
  rewrite (emitted_bind_pure _ _ _ _ (index_of_run _ _ w _ Hi)).
  rewrite (emitted_bind_pure _ _ _ _ (subscript_run _ _ _ w Hfs)).
  rewrite (emitted_bind_pure _ _ _ _
             (rendering_rate_run _ video_fs w Hstride)).
  fold relative.
  rewrite (emitted_bind_pure _ _ w true) by (unfold inspect; by rewrite Hdir).
  rewrite (emitted_bind_pure _ _ w tt) by done.
  rewrite (emitted_bind_pure _ _ w tt).
  2:{ destruct (video_frame_files_of (join dir relative) detected); done. }
  rewrite (emitted_bind_pure _ _ w (join output_folder relative)) by done.
  eapply In_emitted_bind; [apply only_call| | |].
  { intros _. apply only_bind; [by apply only_emit|].
    intros _. apply logs_stitch. }
  { unfold makedirs, call. by rewrite Hmk. }
  eapply In_emitted_bind; [by apply only_emit| |reflexivity|].
  { intros _. apply logs_stitch. }
  rewrite emitted_stitch. by left.
Qed.

(** C8, as the code has it.  Every call of the video assembler that
    [process_video] makes is at the rate of the extracted video, divided by
    [frame_sample] when that is set, and with rendering enabled, frames
    rendered and a stride other than zero the call is made.  In folder mode
    no video is stitched at any rate: [process_video_folder] never calls
    the video assembler.  The worker [process_single_video] would stitch
    its video at the rate listed for it, divided by [frame_sample] when
    that is set (every call of the assembler it makes is at that rate, and
    it makes the call once it finds the global [video_filenames] and the
    video's rendered frames), but nothing calls the worker, and as the
    module stands a call raises a NameError on its first line. *)
Theorem C8_stitching_rate o w :
  (∀ frames rate output codec,
     In (CallFramesToVideo frames rate output codec)
       (emitted (process_video o) w) →
     ∃ w1 folder created extracted Fs results,
       pv_pipeline o w = (w1, Ok (folder, created, extracted, Fs, results))
       ∧ rate = stated_rate (frame_sample o) Fs)
  ∧ (∀ w1 folder created extracted Fs results w2 dir created' detected,
       render_output_video o = true →
       pv_pipeline o w = (w1, Ok (folder, created, extracted, Fs, results)) →
       pv_render_frames o folder w1 = (w2, Ok (dir, created', detected)) →
       frame_sample o ≠ Some 0 →
       In (CallFramesToVideo detected (stated_rate (frame_sample o) Fs)
             (pv_output_video_file o) (fourcc o))
         (emitted (process_video o) w))
  ∧ Forall (λ ev, is_stitch ev = false) (emitted (process_video_folder o) w)
  ∧ (∀ g video dir detected in_place output_folder Fs w0 frames rate output
       codec,
       In (CallFramesToVideo frames rate output codec)
         (emitted (process_single_video g video o dir detected in_place
                     output_folder Fs (frame_sample o)) w0) →
       ∃ names i video_fs,
         video_filenames g = Some names
         ∧ list_index video names = Some i
         ∧ Fs !! i = Some video_fs
         ∧ rate = stated_rate (frame_sample o) video_fs)
  ∧ (∀ g names video dir detected output_folder Fs w0 i video_fs fs',
       video_filenames g = Some names →
       list_index video names = Some i → Fs !! i = Some video_fs →
       frame_sample o ≠ Some 0 →
       let relative := relpath video (input_video_file o) in
       isdir (join dir relative) (fs w0) = true →
       video_frame_files_of (join dir relative) detected ≠ [] →
       fs_makedirs (dirname (join output_folder relative)) (fs w0)
       = (Ok tt, fs') →
       In (CallFramesToVideo
             (video_frame_files_of (join dir relative) detected)
             (stated_rate (frame_sample o) video_fs)
             (join output_folder relative) (fourcc o))
         (emitted (process_single_video g video o dir detected false
                     output_folder Fs (frame_sample o)) w0))
  ∧ (∀ video dir detected in_place output_folder Fs w0,
       process_single_video unbound video o dir detected in_place
         output_folder Fs (frame_sample o) w0
       = (w0, Raise (NameError "video_filenames"))).
Proof.
  split; [|split; [|split; [|split; [|split]]]].
  - intros frames rate output codec Hin.
    rewrite emitted_process_video in Hin.
    apply in_app_or in Hin as [Hin|Hin].
    { exfalso.
      destruct (only_emitted (λ e, is_stitch e = false) (pv_pipeline o) w)
        as [_ HF]; [by apply only_pv_pipeline|].
      by eapply Forall_In_false. }
    destruct (pv_pipeline o w) as [w1 [[[[[folder created] fr] Fs] res]|?]]
      eqn:Hpipe; [|done].
    exists w1, folder, created, fr, Fs, res. split; [done|].
    destruct (only_emitted
      (λ e, ∀ a b c d, e = CallFramesToVideo a b c d →
                       b = stated_rate (frame_sample o) Fs)
      (pv_finish o folder created fr Fs res) w1) as [_ HF].
    { apply only_pv_finish; try (intros; discriminate).
      intros _ ? ? ? ? ? Heq. by injection Heq as _ <- _ _. }
    rewrite Forall_forall in HF. apply list_elem_of_In in Hin.
    by eapply HF.
  - intros w1 folder created fr Fs res w2 dir created' detected
      Hrender Hpipe Hframes Hstride.
    rewrite emitted_process_video, Hpipe. apply in_or_app. right.
    unfold pv_finish. rewrite Hrender.
    apply In_emitted_bind_l.
    + by apply only_pv_render.
    + intros _. apply only_bind; [by apply only_pv_cleanup_extracted|].
      intros _. apply only_ret.
    + by eapply pv_render_stitches.
  - eapply Forall_impl; [apply process_video_folder_stops_short|].
    by intros ev [? _].
  - intros g video dir detected in_place outf Fs w0 frames rate output codec
      Hin.
    destruct (only_emitted
      (λ e, ∀ a b c d, e = CallFramesToVideo a b c d →
         ∃ names i video_fs,
           video_filenames g = Some names
           ∧ list_index video names = Some i
           ∧ Fs !! i = Some video_fs
           ∧ b = stated_rate (frame_sample o) video_fs)
      (process_single_video g video o dir detected in_place outf Fs
         (frame_sample o)) w0) as [_ HF].
    { apply only_process_single_video; try (intros; discriminate).
      intros names i video_fs out Hnames Hi Hfs _ ? ? ? ? Heq.
      injection Heq as _ <- _ _. by exists names, i, video_fs. }
    rewrite Forall_forall in HF. apply list_elem_of_In in Hin.
    by eapply HF.
  - intros. by eapply process_single_video_stitches.
  - intros. apply process_single_video_unbound.
Qed.

(** ** Attribution of rendered frames *)

Lemma video_frame_files_of_In folder detected fn :
  In fn (video_frame_files_of folder detected)
  ↔ In fn detected ∧ startswith fn folder = true.
Proof.
  exact (filter_In (λ fn, startswith fn folder) fn detected).
Qed.

(** Two prefixes of one string are prefixes of one another. *)
Lemma startswith_both fn d1 d2 :
  startswith fn d1 = true → startswith fn d2 = true →
  startswith d1 d2 = true ∨ startswith d2 d1 = true.
Proof.
  unfold startswith. revert d1 d2.
  induction fn as [|c fn IH]; intros [|c1 d1] [|c2 d2]; simpl;
    try (intros; auto; discriminate).
  destruct (Ascii.ascii_dec c1 c) as [->|]; [|discriminate].
  destruct (Ascii.ascii_dec c2 c) as [->|]; [|discriminate].
  destruct (Ascii.ascii_dec c c); [|done]. apply IH.
Qed.

(** The prefix match does keep the videos apart when no video's
    rendered-frame folder path is a prefix of another's. *)
Lemma video_frame_files_disjoint d1 d2 detected fn :
  startswith d1 d2 = false → startswith d2 d1 = false →
  In fn (video_frame_files_of d1 detected) →
  In fn (video_frame_files_of d2 detected) → False.
Proof.
  intros H12 H21 [_ H1]%video_frame_files_of_In [_ H2]%video_frame_files_of_In.
  destruct (startswith_both fn d1 d2 H1 H2); congruence.
Qed.

(** A prefix of a prefix is a prefix. *)
Lemma startswith_trans fn d2 d1 :
  startswith d2 d1 = true → startswith fn d2 = true →
  startswith fn d1 = true.
Proof.
  unfold startswith. revert d2 d1.
  induction fn as [|c fn IH]; intros [|c2 d2] [|c1 d1]; simpl;
    try (intros; auto; discriminate).
  destruct (Ascii.ascii_dec c1 c2) as [->|]; [|discriminate].
  destruct (Ascii.ascii_dec c2 c) as [->|]; [|discriminate].
  destruct (Ascii.ascii_dec c c); [|done]. apply IH.
Qed.


End Properties.

(** ** The theorems on concrete runs *)






(** C4 at the module as it stands: the match separates the frames of two
    videos of which neither folder is a prefix of the other, and a call of
    the worker raises before it matches anything. *)
Example worker_of_the_module_as_it_stands :
  video_frame_files_of "/work/rendered/a.mp4"
    ["/work/rendered/a.mp4/frame0.jpg"; "/work/rendered/b.mp4/frame0.jpg"]
  = ["/work/rendered/a.mp4/frame0.jpg"]
  ∧ @process_single_video (Demo.collaborators 1 Demo.clips []) unbound
      "/videos/clip.mp4" (Demo.folder_options true (-1)) "/work/rendered"
      ["/work/rendered/clip.mp4/frame0.jpg"] false "/out/videos" [30; 30]%Q
      None (Demo.start Demo.rendered_clips)
    = (Demo.start Demo.rendered_clips, Raise (NameError "video_filenames")).
Proof. split; reflexivity. Qed.



(** C8 at a 30 fps video sampled every fifth frame, stitched at 30/5 = 6
    fps; at a folder run with the same stride over a 30 fps video, which
    stitches nothing; and at the worker, for a 30 fps video, once with the
    list of videos bound and once as the module stands. *)
Lemma C8_witness :
  In (CallFramesToVideo
        (Demo.frames_in "/tmp/process_camera_trap_video/v.mp4_detections" 3)
        (@stated_rate Demo.single (frame_sample Demo.strided_render) 30)
        (pv_output_video_file Demo.strided_render)
        (fourcc Demo.strided_render))
    (emitted (@process_video Demo.single Demo.strided_render)
       (Demo.start Demo.one_video))
  ∧ (@stated_rate Demo.single (frame_sample Demo.strided_render) 30 == 6)%Q
  ∧ (∃ Fs, @stated_rate Demo.single (frame_sample Demo.strided_render) 30
           = @stated_rate Demo.single (frame_sample Demo.strided_render) Fs)
  ∧ Forall (λ ev, is_stitch ev = false)
      (emitted (@process_video_folder
                  (Demo.collaborators 1 ["/videos/a.mp4"] [])
                  Demo.strided_folder)
         (Demo.start (Demo.folder_of ["/videos/a.mp4"])))
  ∧ snd (@process_video_folder (Demo.collaborators 1 ["/videos/a.mp4"] [])
           Demo.strided_folder
           (Demo.start (Demo.folder_of ["/videos/a.mp4"]))) = Ok tt
  ∧ In (CallFramesToVideo ["/work/rendered/a.mp4/frame0.jpg"]
          (@stated_rate Demo.single (frame_sample Demo.strided_folder) 30)
          "/out/videos/a.mp4" None)
      (emitted (@process_single_video Demo.single
                  (Demo.bound ["/videos/a.mp4"])
                  "/videos/a.mp4" Demo.strided_folder "/work/rendered"
                  ["/work/rendered/a.mp4/frame0.jpg"] false "/out/videos"
                  [30%Q] (frame_sample Demo.strided_folder))
         (Demo.start Demo.rendered_a))
  ∧ @process_single_video Demo.single unbound
      "/videos/a.mp4" Demo.strided_folder "/work/rendered"
      ["/work/rendered/a.mp4/frame0.jpg"] false "/out/videos"
      [30%Q] (frame_sample Demo.strided_folder) (Demo.start Demo.rendered_a)
    = (Demo.start Demo.rendered_a, Raise (NameError "video_filenames")).
Proof.
  assert (Hsingle :
    In (CallFramesToVideo
          (Demo.frames_in "/tmp/process_camera_trap_video/v.mp4_detections" 3)
          (@stated_rate Demo.single (frame_sample Demo.strided_render) 30)
          (pv_output_video_file Demo.strided_render)
          (fourcc Demo.strided_render))
      (emitted (@process_video Demo.single Demo.strided_render)
         (Demo.start Demo.one_video))).
  { eapply (proj1 (proj2 (@C8_stitching_rate Demo.single Demo.strided_render
                            (Demo.start Demo.one_video)))).
    + reflexivity.
    + apply run_eq. vm_compute. reflexivity.
    + apply run_eq. vm_compute. reflexivity.
    + discriminate. }
  split; [exact Hsingle|]. split; [reflexivity|].
  split; [|split; [|split; [|split]]].
  - destruct (proj1 (@C8_stitching_rate Demo.single Demo.strided_render
                       (Demo.start Demo.one_video)) _ _ _ _ Hsingle)
      as (_ & _ & _ & _ & Fs & _ & _ & Hrate).
    by exists Fs.
  - apply (proj1 (proj2 (proj2
             (@C8_stitching_rate (Demo.collaborators 1 ["/videos/a.mp4"] [])
                Demo.strided_folder
                (Demo.start (Demo.folder_of ["/videos/a.mp4"])))))).
  - vm_compute. reflexivity.
  - eapply (proj1 (proj2 (proj2 (proj2 (proj2
              (@C8_stitching_rate Demo.single Demo.strided_folder
                 (Demo.start Demo.rendered_a))))))
              (Demo.bound ["/videos/a.mp4"]) ["/videos/a.mp4"]
              "/videos/a.mp4" "/work/rendered"
              ["/work/rendered/a.mp4/frame0.jpg"] "/out/videos" [30%Q]
              (Demo.start Demo.rendered_a) 0%nat 30%Q).
    + reflexivity.
    + reflexivity.
    + reflexivity.
    + discriminate.
    + vm_compute. reflexivity.
    + vm_compute. discriminate.
    + vm_compute. reflexivity.
  - apply (proj2 (proj2 (proj2 (proj2 (proj2
             (@C8_stitching_rate Demo.single Demo.strided_folder
                (Demo.start Demo.rendered_a))))))).
Defined.

(** The command of options with the three settings on names none of
    them. *)
Example options_to_command_names_no_force_flag :
  let cmd := @options_to_command Demo.single
               (with_unemitted true true true Demo.strided_render) in
  contains cmd "--render_output_video" = true
  ∧ contains cmd "--frame_sample 5" = true
  ∧ contains cmd "force" = false
  ∧ contains cmd "verbose" = false.
Proof. vm_compute. repeat split. Qed.

(** C9 at a folder without videos and at a folder whose videos yield no
    frame. *)
Lemma C9_witness :
  @process_video_folder (Demo.collaborators 2 [] [])
    (Demo.folder_options false (-1)) (Demo.start (Demo.folder_of []))
  = ({| fs := <["/work/frames" := Dir]>
                (<["/work" := Dir]>
                   (<["/out" := Dir]> (Demo.folder_of [])));
        log := [Print ExtractingFrames; Print (NoVideosFound "/videos")];
        uuids_drawn := 0 |}, Ok tt)
  ∧ snd (@process_video_folder (Demo.collaborators 0 Demo.five_videos [])
           (Demo.folder_options false (-1))
           (Demo.start (Demo.folder_of Demo.five_videos))) = Ok tt
  ∧ emitted (@process_video_folder (Demo.collaborators 0 Demo.five_videos [])
               (Demo.folder_options false (-1)))
      (Demo.start (Demo.folder_of Demo.five_videos))
    = [Print ExtractingFrames; Print (NoFramesExtracted "/videos")].
Proof.
  split; [|split].
  - etransitivity.
    + eapply (@C9_no_frames_is_reported_not_raised (Demo.collaborators 2 [] [])).
      * apply run_eq. vm_compute. reflexivity.
      * reflexivity.
    + vm_compute. reflexivity.
  - etransitivity.
    + eapply (f_equal snd).
      eapply (@C9_no_frames_is_reported_not_raised
                (Demo.collaborators 0 Demo.five_videos [])).
      * apply run_eq. vm_compute. reflexivity.
      * reflexivity.
    + reflexivity.
  - apply emitted_intro. etransitivity.
    + eapply (f_equal (λ r, log (fst r))).
      eapply (@C9_no_frames_is_reported_not_raised
                (Demo.collaborators 0 Demo.five_videos [])).
      * apply run_eq. vm_compute. reflexivity.
      * reflexivity.
    + vm_compute. reflexivity.
Defined.

(** * Further properties of process_video.py *)

Section Further.

Context {E : Collaborators}.

Ltac run_step :=
  match goal with
  | |- only _ (ret _) => apply only_ret
  | |- only _ (raise _) => apply only_raise
  | |- only _ (emit _) => apply only_emit
  | |- only _ (print _) => apply only_emit
  | |- only _ (call _) => apply only_call
  | |- only _ (makedirs _) => apply only_call
  | |- only _ (inspect _) => apply only_inspect
  | |- only _ (json_load _) => apply only_json_load
  | |- only _ draw_uuid => apply only_draw_uuid
  | |- only _ (assert _ _) => apply only_assert
  | |- only _ (bind (ret _) _) => apply only_bind_ret; cbv beta
  | |- only _ (bind (raise _) _) => apply only_bind_raise
  | |- only _ (bind (bind (raise _) _) _) => apply only_bind_bind_raise
  | |- only _ (bind _ _) => apply only_bind; [|intros ?]
  | |- only _ (try_except _ _) => apply only_try_except; [|intros ?]
  | |- only _ (for_each _ _) => apply only_for_each; intros ?
  | |- only _ (if ?b then _ else _) => destruct b eqn:?
  | |- only _ (match ?x with _ => _ end) => destruct x eqn:?
  end.

Ltac run_tac := repeat run_step.

(** ** A run that fails has removed nothing *)

(** If [m] raises from [w], every event it appended satisfies [P]. *)
Lemma only_if_raises_bind {A B} P (m : M A) (k : A → M B) w :
  only P m → (∀ a, only (λ _, True) (k a)) →
  (∀ w1 a, m w = (w1, Ok a) → only_if_raises P (k a) w1) →
  only_if_raises P (bind m k) w.
Proof.
  intros Hm Hlogs Hk e Hraise.
  rewrite emitted_bind; [|by eapply only_weaken; [|exact Hm]|done].
  apply Forall_app. split; [by apply (only_emitted P m w)|].
  unfold bind in Hraise.
  destruct (m w) as [w1 [a|e']] eqn:Hrun; [|done].
  by apply (Hk w1 a eq_refl e).
Qed.

Lemma only_if_raises_total {A} P (m : M A) w :
  (∀ e, snd (m w) ≠ Raise e) → only_if_raises P m w.
Proof. intros Hok e He. by destruct (Hok e). Qed.


Lemma only_if_raises_bind_total {A B} P (m : M A) (k : A → M B) w :
  only (λ _, True) m → (∀ a, only (λ _, True) (k a)) →
  only_if_raises P m w → (∀ a w1 e, snd (k a w1) ≠ Raise e) →
  only_if_raises P (bind m k) w.
Proof.
  intros Hm Hlogs Hraises Htotal e Hraise.
  rewrite emitted_bind by done. unfold bind in Hraise.
  destruct (m w) as [w1 [a|e']] eqn:Hrun.
  - by destruct (Htotal a w1 e).
  - rewrite app_nil_r. apply (Hraises e'). by rewrite Hrun.
Qed.

#[local] Abbreviation kept := (λ ev : event, is_removal ev = false).

Lemma logs_pv_render o folder Fs : only (λ _, True) (pv_render o folder Fs).
Proof. by apply only_pv_render. Qed.

Lemma logs_pv_cleanup_extracted o folder created frames :
  only (λ _, True) (pv_cleanup_extracted o folder created frames).
Proof. by apply only_pv_cleanup_extracted. Qed.

Lemma pv_render_failure_removes_nothing o folder Fs w :
  only_if_raises kept (pv_render o folder Fs) w.
Proof.
  unfold pv_render.
  apply only_if_raises_bind; [by apply only_pv_render_frames| |].
  { intros [[? ?] ?]. unfold rendering_rate, true_div, stitch.
    run_tac; try done. apply logs_pv_cleanup_rendered. }
  intros w1 [[dir created] detected] _.
  apply only_if_raises_bind.
  { unfold rendering_rate, true_div. run_tac. }
  { intros ?. unfold stitch. run_tac; try done.
    apply logs_pv_cleanup_rendered. }
  intros w2 rate _.
  apply only_if_raises_bind; [by apply only_emit| |].
  { intros ?. unfold stitch. run_tac; try done.
    apply logs_pv_cleanup_rendered. }
  intros w3 _ _.
  apply only_if_raises_bind.
  { unfold stitch. run_tac. done. }
  { intros ?. apply logs_pv_cleanup_rendered. }
  intros w4 _ _. apply only_if_raises_total. intros e.
  by rewrite pv_cleanup_rendered_returns.
Qed.

Lemma pv_finish_failure_removes_nothing o folder created frames Fs res w :
  only_if_raises kept (pv_finish o folder created frames Fs res) w.
Proof.
  unfold pv_finish. apply only_if_raises_bind_total.
  - destruct (render_output_video o); [apply logs_pv_render|apply only_ret].
  - intros _. apply only_bind; [apply logs_pv_cleanup_extracted|].
    intros _. apply only_ret.
  - destruct (render_output_video o).
    + apply pv_render_failure_removes_nothing.
    + apply only_if_raises_total. intros e. done.
  - intros _ w1 e. unfold bind.
    pose proof (pv_cleanup_extracted_returns o folder created frames w1) as H.
    by destruct (pv_cleanup_extracted o folder created frames w1)
      as [? [[]|?]].
Qed.

(** X1.  A run of [process_video] that raises, at whatever stage, has called
    neither [os.remove] nor [shutil.rmtree]: the function has no [finally], so
    the frames extracted and rendered so far stay where they are. *)
Theorem failed_process_video_removes_nothing o w e :
  snd (process_video o w) = Raise e →
  Forall (λ ev, is_removal ev = false) (emitted (process_video o) w).
Proof.
  revert e. change (only_if_raises kept (process_video o) w).
  unfold process_video.
  apply only_if_raises_bind; [by apply only_pv_pipeline| |].
  - intros [[[[? ?] ?] ?] ?]. apply logs_pv_finish.
  - intros w1 [[[[folder created] frames] Fs] res] _.
    apply pv_finish_failure_removes_nothing.
Qed.

(** ** Failures before any work *)

(** X3.  [process_video_folder] checks its arguments first (lines 237-243):
    when the input is not a folder, no output file is named, or the output file
    does not end in ".json", the run raises an AssertionError and has done
    nothing: no folder made, no name drawn, nothing printed. *)
Theorem folder_run_rejects_bad_arguments o w :
  isdir (input_video_file o) (fs w) = false
  ∨ output_json_file o = None
  ∨ (∃ j, output_json_file o = Some j ∧ endswith j ".json" = false) →
  ∃ msg, process_video_folder o w = (w, Raise (AssertionError msg)).
Proof.
  intros H.
  unfold process_video_folder, pvf_extract, pvf_validate, bind, inspect,
    assert, raise, ret.
  destruct (isdir (input_video_file o) (fs w)) eqn:Hdir; [|by eexists].
  destruct H as [H|[H|(j & H & Hj)]]; [done| |]; rewrite H; [by eexists|].
  rewrite Hj. by eexists.
Qed.

(** X4.  Line 137 compares [options.debug_max_frames] with 0 without a test for
    None (the folder run tests for it, line 286).  With no cap set, a
    single-video run never returns: once the frames are extracted it raises a
    TypeError, and the detector is never called. *)
Theorem process_video_needs_a_frame_cap o w :
  debug_max_frames o = None →
  (∀ results, snd (process_video o w) ≠ Ok results)
  ∧ (∀ w1 folder created w2 frames Fs,
       pv_frame_output_folder o w = (w1, Ok (folder, created)) →
       pv_extract o folder w1 = (w2, Ok (frames, Fs)) →
       process_video o w
       = (w2, Raise (TypeError
                       "'>' not supported between NoneType and int")))
  ∧ detector_calls (emitted (process_video o) w) = 0%nat.
Proof.
  intros Hcap.
  assert (Hprepare : ∀ r, snd (pv_prepare o w) ≠ Ok r).
  { intros r. unfold pv_prepare, pv_image_file_names, bind, raise.
    rewrite Hcap.
    destruct (pv_frame_output_folder o w) as [w1 [[folder created]|e]];
      [|done].
    by destruct (pv_extract o folder w1) as [w2 [[frames Fs]|e]]. }
  assert (Hpipeline : pv_pipeline o w
                      = (fst (pv_prepare o w),
                         match snd (pv_prepare o w) with
                         | Ok _ => Raise ZeroDivisionError
                         | Raise e => Raise e
                         end)).
  { unfold pv_pipeline, bind.
    destruct (pv_prepare o w) as [w1 [r|e]] eqn:Hp; [|done].
    by destruct (Hprepare r). }
  assert (Hraises : ∃ e, snd (pv_prepare o w) = Raise e).
  { destruct (snd (pv_prepare o w)) as [r|e] eqn:Hp; [|by eexists].
    by destruct (Hprepare r). }
  destruct Hraises as [e He]. rewrite He in Hpipeline.
  split; [|split].
  - intros results. by rewrite process_video_run, Hpipeline.
  - intros w1 folder created w2 frames Fs Hfolder Hextract.
    rewrite process_video_run, Hpipeline. revert He.
    unfold pv_prepare, pv_image_file_names, bind, raise.
    rewrite Hfolder, Hextract, Hcap. cbn. by intros [= <-].
  - rewrite emitted_process_video, Hpipeline, app_nil_r.
    unfold pv_pipeline. rewrite emitted_bind.
    + rewrite (run_eq _ _ _ He), app_nil_r.
      apply detector_calls_only, only_pv_prepare.
    + apply only_pv_prepare.
    + intros [[[[? ?] ?] ?] ?].
      apply only_bind; [apply logs_pv_detect|]. intros ?. apply only_ret.
Qed.

(** ** An output file without a folder *)

(** X5.  Line 246 calls [os.makedirs] on the directory part of the output file.
    For an output file named without a folder that part is the empty string,
    and [os.makedirs('')] raises: the folder run fails before it extracts a
    frame, and has changed nothing. *)
Theorem folder_run_needs_an_output_folder o w video_json :
  isdir (input_video_file o) (fs w) = true →
  output_json_file o = Some video_json →
  endswith video_json ".json" = true →
  dirname video_json = "" →
  process_video_folder o w = (w, Raise (FileNotFoundError "")).
Proof.
  intros Hdir Hout Hjson Hfolder.
  unfold process_video_folder, pvf_extract, pvf_validate, bind, inspect,
    assert, raise, ret, makedirs, call.
  rewrite Hdir, Hout, Hjson, Hfolder. cbn. by destruct w.
Qed.

(** ** What a single-video run returns *)

Lemma pv_finish_result o folder created frames Fs results w r :
  snd (pv_finish o folder created frames Fs results w) = Ok r → r = results.
Proof.
  unfold pv_finish, bind, ret.
  destruct ((if render_output_video o then pv_render o folder Fs else _) w)
    as [w1 [[]|e]]; [|done].
  destruct (pv_cleanup_extracted o folder created frames w1)
    as [w2 [[]|e]]; [|done].
  by intros [= <-].
Qed.

(** X6.  [process_video] returns [results], which lines 140-157 bind to two
    different things: the whole document read from the results file when an
    earlier file is reused, and the detector's list of per-image records when
    the detector runs. *)
Theorem process_video_returns_document_or_records o w w1 folder created
    frames Fs images r :
  pv_prepare o w = (w1, Ok (folder, created, frames, Fs, images)) →
  snd (process_video o w) = Ok r →
  if reuse_results_if_available o && isfile (pv_output_json_file o) (fs w1)
  then ∃ doc,
         fs w1 !! pv_output_json_file o = Some (File (ResultsFile doc))
         ∧ r = FromJson doc
  else ∃ results fs2,
         load_and_run_detector_batch (model_file o) images
           (json_confidence_threshold o) (n_cores o) (negb (verbose o))
           (class_mapping_filename o) (fs w1) = (Ok results, fs2)
         ∧ r = FromDetector results.
Proof.
  intros Hprepare. rewrite process_video_run.
  unfold pv_pipeline, bind at 1. rewrite Hprepare. cbv beta iota.
  unfold bind at 1. unfold pv_detect, bind at 1. rewrite reuse_results_run.
  destruct (reuse_results_if_available o
            && isfile (pv_output_json_file o) (fs w1)).
  - unfold bind, print, emit, json_load, ret, fs_json_load. cbn.
    destruct (fs w1 !! pv_output_json_file o) as [[|[|doc]]|]; try done.
    intros ->%pv_finish_result. by exists doc.
  - unfold run_detector, write_results, bind, emit, call, ret. cbn.
    destruct (load_and_run_detector_batch _ _ _ _ _ _ _)
      as [[results|e] fs2] eqn:Hdetect; [|done].
    destruct (write_results_to_file _ _ _ _ _ _) as [[[]|e] fs3]; [|done].
    intros ->%pv_finish_result. by exists results, fs2.
Qed.

(** X7.  When reuse is asked for and the results file exists but does not hold
    JSON, the run raises the decoder's error right after the frames are
    extracted: there is no fallback to the detector. *)
Theorem process_video_reuse_does_not_fall_back o w w1 folder created frames
    Fs images :
  pv_prepare o w = (w1, Ok (folder, created, frames, Fs, images)) →
  reuse_results_if_available o = true →
  fs w1 !! pv_output_json_file o = Some (File Blob) →
  process_video o w
  = ({| fs := fs w1;
        log := log w1 ++ [Print (LoadingResults (pv_output_json_file o))];
        uuids_drawn := uuids_drawn w1 |},
     Raise (JSONDecodeError (pv_output_json_file o))).
Proof.
  intros Hprepare Hreuse Hfile. rewrite process_video_run.
  unfold pv_pipeline, bind at 1. rewrite Hprepare. cbv beta iota.
  unfold bind at 1. unfold pv_detect, bind at 1. rewrite reuse_results_run, Hreuse.
  unfold isfile. rewrite Hfile.
  unfold bind, print, emit, json_load, ret, fs_json_load. cbn.
  by rewrite Hfile.
Qed.

(** ** Rendering a folder without a folder for the rendered frames *)

(** X8.  Line 330 builds the default folder for rendered frames from the local
    [tempdir], which lines 251-265 bind only when no frame folder is given.
    With a frame folder of the caller's, rendering on and no rendering folder,
    a run that gets through detection and aggregation raises an
    UnboundLocalError there: nothing is rendered, stitched or removed. *)
Theorem folder_rendering_reads_unbound_tempdir o w w1 video_json frames_json
    folder tl frame_filenames Fs video_filenames w2 results w3 caller's :
  frame_folder o = Some caller's →
  frame_rendering_folder o = None →
  render_output_video o = true →
  pvf_extract o w
  = (w1, Ok (video_json, frames_json, folder, tl,
             (frame_filenames, Fs, video_filenames))) →
  concat frame_filenames ≠ [] →
  pvf_detect o frames_json folder
    (pvf_image_file_names o (concat frame_filenames)) Fs w1
  = (w2, Ok results) →
  pvf_aggregate frames_json video_json w2 = (w3, Ok tt) →
  process_video_folder o w = (w3, Raise (UnboundLocalError "tempdir")).
Proof.
  intros Hfolder Hrendering Hrender Hextract Hframes Hdetect Haggregate.
  rewrite (process_video_folder_run _ _ _ _ _ _ _ _ _ _ Hextract Hframes).
  assert (tl = None) as ->.
  { revert Hextract.
    unfold pvf_extract, pvf_frame_output_folder. rewrite Hfolder.
    unfold bind at 1.
    destruct (pvf_validate o w) as [w0 [[vj fj]|e]]; [|done].
    unfold bind, ret, makedirs, call, print, emit. cbn.
    destruct (fs_makedirs caller's (fs w0)) as [[[]|e] fs1]; [|done].
    cbn. destruct (video_folder_to_frames _ _ _ _ _ _ _ _)
      as [[x|e] fs2]; [|done].
    by intros [= _ _ _ _ <- _]. }
  unfold pvf_process_frames, bind at 1. rewrite Hdetect.
  unfold bind at 1. rewrite Haggregate.
  rewrite Hrender. unfold pvf_render, pvf_render_frames.
  by rewrite Hrendering.
Qed.

(** ** The frame cap *)

Lemma pv_prepare_capped o w w1 folder created w2 frames Fs k :
  debug_max_frames o = Some k → (0 < k)%Z →
  pv_frame_output_folder o w = (w1, Ok (folder, created)) →
  pv_extract o folder w1 = (w2, Ok (frames, Fs)) →
  pv_prepare o w
  = (w2, Ok (folder, created, frames, Fs, take (Z.to_nat k) frames)).
Proof.
  intros Hcap Hk Hfolder Hextract.
  unfold pv_prepare, pv_image_file_names, bind, ret.
  rewrite Hfolder, Hextract, Hcap.
  by rewrite (proj2 (Z.ltb_lt 0 k) Hk).
Qed.

Lemma only_pv_detect_images o folder images Fs :
  only (cap_event o folder images) (pv_detect o folder images Fs).
Proof.
  unfold pv_detect, reuse_results, run_detector, write_results.
  run_tac; done.
Qed.

Lemma only_pv_finish_renderer o folder created frames images Fs results :
  only (cap_event o folder images)
    (pv_finish o folder created frames Fs results).
Proof.
  unfold pv_finish, pv_render, pv_render_frames, rendering_rate, true_div,
    stitch, pv_cleanup_rendered, pv_delete_rendered, pv_cleanup_extracted,
    pv_delete_extracted, pv_delete_folder_condition,
    getattr_ouput_json_file, os_remove, rmtree.
  destruct (pv_rendering_output_dir o) as [dir dir_created] eqn:Hdir.
  run_tac; try done. cbn. by rewrite Hdir.
Qed.

Lemma pv_detect_calls_the_detector o folder images Fs w :
  reuse_results_if_available o && isfile (pv_output_json_file o) (fs w)
  = false →
  In (CallDetector (model_file o) images (json_confidence_threshold o)
        (n_cores o) (negb (verbose o)) (class_mapping_filename o))
    (emitted (pv_detect o folder images Fs) w).
Proof.
  intros Hreuse. unfold pv_detect.
  rewrite (emitted_bind_pure _ _ _ _ (reuse_results_run _ _ _)), Hreuse.
  unfold emitted, run_detector, write_results.
  cbv beta iota delta [bind ret emit call]. simpl.
  destruct (load_and_run_detector_batch _ _ _ _ _ _ (fs w))
    as [[results|e] fs2]; simpl.
  - destruct (write_results_to_file _ _ _ _ _ fs2) as [[[]|e] fs3];
      simpl; rewrite <- ?app_assoc, drop_app_length; simpl; auto.
  - rewrite drop_app_length. simpl. auto.
Qed.


(** ** The keep flags *)

(** X11.  With both keep flags set, a run of [process_video] removes
    nothing, whatever the force flags are: neither clean-up gets as far as
    its test for the force flag. *)
Theorem keep_flags_keep_everything o w :
  keep_extracted_frames o = true → keep_rendered_frames o = true →
  Forall (λ ev, is_removal ev = false) (emitted (process_video o) w).
Proof.
  intros Hextracted Hrendered.
  apply (only_emitted (λ ev, is_removal ev = false)).
  unfold process_video.
  apply only_bind; [by apply only_pv_pipeline|].
  intros [[[[folder created] frames] Fs] results].
  unfold pv_finish, pv_render, pv_cleanup_extracted, pv_cleanup_rendered.
  rewrite Hextracted, Hrendered.
  apply only_bind; [|intros _; run_tac].
  destruct (render_output_video o); [|apply only_ret].
  apply only_bind; [by apply only_pv_render_frames|].
  intros [[dir created'] detected].
  unfold rendering_rate, true_div, stitch. run_tac; done.
Qed.

(** ** Stitching comes before clean-up *)

Lemma in_two_stages_first {A} P Q (m : M A) :
  only P m → in_two_stages P Q m.
Proof.
  intros Hm w. exists (emitted m w), []. rewrite app_nil_r.
  split; [done|]. split; [by apply only_emitted|done].
Qed.

Lemma in_two_stages_second {A} P Q (m : M A) :
  only Q m → in_two_stages P Q m.
Proof.
  intros Hm w. exists [], (emitted m w).
  split; [done|]. split; [done|by apply only_emitted].
Qed.

Lemma in_two_stages_bind_first {A B} P Q (m : M A) (k : A → M B) :
  only P m → (∀ a, only (λ _, True) (k a)) →
  (∀ a, in_two_stages P Q (k a)) → in_two_stages P Q (bind m k).
Proof.
  intros Hm Hlogs Hk w.
  rewrite emitted_bind; [|by eapply only_weaken; [|exact Hm]|done].
  destruct (m w) as [w1 [a|e]].
  - destruct (Hk a w1) as (d1 & d2 & -> & H1 & H2).
    exists (emitted m w ++ d1), d2. rewrite app_assoc.
    split; [done|]. split; [|done].
    apply Forall_app. split; [by apply only_emitted|done].
  - exists (emitted m w), []. split; [done|].
    split; [by apply only_emitted|done].
Qed.

Lemma in_two_stages_bind_second {A B} P Q (m : M A) (k : A → M B) :
  only (λ _, True) m → in_two_stages P Q m → (∀ a, only Q (k a)) →
  in_two_stages P Q (bind m k).
Proof.
  intros Hlogs Hm Hk w.
  rewrite emitted_bind;
    [|done|by intros a; eapply only_weaken; [|exact (Hk a)]].
  destruct (Hm w) as (d1 & d2 & -> & H1 & H2).
  destruct (m w) as [w1 [a|e]].
  - exists d1, (d2 ++ emitted (k a) w1). rewrite app_assoc.
    split; [done|]. split; [done|].
    apply Forall_app. split; [done|by apply only_emitted].
  - exists d1, d2. by rewrite app_nil_r.
Qed.

#[local] Abbreviation unstitched := (λ ev : event, is_stitch ev = false).

Lemma pv_render_in_two_stages o folder Fs :
  in_two_stages kept unstitched (pv_render o folder Fs).
Proof.
  unfold pv_render.
  apply in_two_stages_bind_first; [by apply only_pv_render_frames| |].
  { intros [[? ?] ?]. unfold rendering_rate, true_div, stitch.
    run_tac; try done. apply logs_pv_cleanup_rendered. }
  intros [[dir created] detected].
  apply in_two_stages_bind_first.
  { unfold rendering_rate, true_div. run_tac. }
  { intros ?. unfold stitch. run_tac; try done.
    apply logs_pv_cleanup_rendered. }
  intros rate.
  apply in_two_stages_bind_first; [by apply only_emit| |].
  { intros ?. unfold stitch. run_tac; try done.
    apply logs_pv_cleanup_rendered. }
  intros _.
  apply in_two_stages_bind_first.
  { unfold stitch. run_tac. done. }
  { intros ?. apply logs_pv_cleanup_rendered. }
  intros _. apply in_two_stages_second.
  by apply only_pv_cleanup_rendered.
Qed.

(** X12.  In a run of [process_video] the call of [frames_to_video] comes
    before every call of [os.remove] or [shutil.rmtree]: the events of a
    run split into a first part without removals and a second part without
    stitching.  No frame is removed while the video is still to be
    stitched. *)
Theorem removals_follow_stitching o w :
  ∃ before after,
    emitted (process_video o) w = before ++ after
    ∧ Forall (λ ev, is_removal ev = false) before
    ∧ Forall (λ ev, is_stitch ev = false) after.
Proof.
  revert w. change (in_two_stages kept unstitched (process_video o)).
  unfold process_video.
  apply in_two_stages_bind_first; [by apply only_pv_pipeline| |].
  { intros [[[[? ?] ?] ?] ?]. apply logs_pv_finish. }
  intros [[[[folder created] frames] Fs] results]. unfold pv_finish.
  apply in_two_stages_bind_second.
  + destruct (render_output_video o); [apply logs_pv_render|apply only_ret].
  + destruct (render_output_video o).
    * apply pv_render_in_two_stages.
    * apply in_two_stages_first, only_ret.
  + intros _. apply only_bind; [|intros _; apply only_ret].
    by apply only_pv_cleanup_extracted.
Qed.

(** ** The two result files of a folder run *)

Lemma length_append_string (a b : string) :
  String.length (a +:+ b) = (String.length a + String.length b)%nat.
Proof.
  induction a as [|c a IH]; [done|].
  change (S (String.length (a +:+ b))
          = S (String.length a + String.length b)).
  by rewrite IH.
Qed.

Lemma replace_from_length old new skip s :
  (0 < String.length old ≤ String.length new)%nat →
  (String.length s - skip ≤ String.length (replace_from old new skip s))%nat.
Proof.
  intros Hlen. revert skip.
  induction s as [|c r IH]; intros skip; [cbn; lia|].
  cbn [replace_from]. destruct skip as [|k].
  - destruct (startswith (String c r) old).
    + rewrite length_append_string.
      specialize (IH (String.length old - 1)%nat). cbn [String.length]. lia.
    + specialize (IH O). cbn [String.length]. lia.
  - specialize (IH k). cbn [String.length]. lia.
Qed.

Lemma replace_length_grows old new s :
  (0 < String.length old ≤ String.length new)%nat →
  contains s old = true →
  (String.length s + (String.length new - String.length old)
   ≤ String.length (replace s old new))%nat.
Proof.
  intros Hlen. unfold replace.
  induction s as [|c r IH]; intros Hin.
  - cbn in Hin. rewrite orb_false_r in Hin.
    destruct old; [cbn in Hlen; lia|done].
  - cbn [replace_from]. cbn [contains] in Hin.
    destruct (startswith (String c r) old) eqn:Hstart.
    + rewrite length_append_string.
      pose proof (replace_from_length old new (String.length old - 1) r Hlen).
      cbn [String.length]. lia.
    + cbn [String.length]. cbn in Hin. specialize (IH Hin). lia.
Qed.

Lemma substring_contains i suf s :
  String.substring i (String.length suf) s = suf → contains s suf = true.
Proof.
  revert s. induction i as [|i IH]; intros s Hsub.
  - destruct s as [|c r]; cbn [contains]; unfold startswith;
      apply orb_true_iff; left; by apply String.prefix_correct.
  - destruct s as [|c r].
    + destruct suf; [done|]. by cbn in Hsub.
    + cbn [contains]. apply orb_true_iff. right. by apply IH.
Qed.

Lemma endswith_contains s suf : endswith s suf = true → contains s suf = true.
Proof.
  unfold endswith. intros [_ Heq%String.eqb_eq]%andb_true_iff.
  by eapply substring_contains.
Qed.

(** X14.  Once the arguments of a folder run are accepted, the frame-level
    results go to a file of their own:  [replace('.json', '.frames.json')]
    (line 245) makes the name longer, so it differs from the name of the
    video-level results file, which is the output file the caller named. *)
Theorem frame_results_file_is_another_file o w w1 video_json frames_json :
  pvf_validate o w = (w1, Ok (video_json, frames_json)) →
  output_json_file o = Some video_json
  ∧ frames_json = replace video_json ".json" ".frames.json"
  ∧ (String.length video_json < String.length frames_json)%nat
  ∧ frames_json ≠ video_json.
Proof.
  unfold pvf_validate, bind, inspect, assert, raise, ret, makedirs, call.
  destruct (isdir (input_video_file o) (fs w)); [|done].
  destruct (output_json_file o) as [j|]; [|done].
  destruct (endswith j ".json") eqn:Hjson; [|done].
  cbn. destruct (fs_makedirs (dirname j) (fs w)) as [[[]|e] fs1]; [|done].
  intros [= _ <- <-].
  assert (String.length j < String.length (replace j ".json" ".frames.json"))%nat
    as Hlen.
  { pose proof (replace_length_grows ".json" ".frames.json" j) as H.
    cbn in H. specialize (H ltac:(lia) (endswith_contains _ _ Hjson)). lia. }
  repeat split; [done|]. intros Heq. rewrite Heq in Hlen. lia.
Qed.

End Further.

(** ** The further properties on concrete runs *)

Lemma failed_process_video_removes_nothing_witness :
  Forall (λ ev, is_removal ev = false)
    (emitted (@process_video Inputs.unwritable_video Demo.strided_render)
       (Demo.start Demo.one_video)).
Proof.
  apply (@failed_process_video_removes_nothing Inputs.unwritable_video _ _
           (CollaboratorError "cannot write video")).
  vm_compute. reflexivity.
Defined.

Lemma folder_run_rejects_bad_arguments_witness :
  ∃ msg,
    @process_video_folder Inputs.five (Demo.folder_options false (-1))
      (Demo.start Demo.one_video)
    = (Demo.start Demo.one_video, Raise (AssertionError msg)).
Proof.
  apply (@folder_run_rejects_bad_arguments Inputs.five).
  left. vm_compute. reflexivity.
Defined.

Lemma process_video_needs_a_frame_cap_witness :
  snd (@process_video Demo.single Inputs.uncapped (Demo.start Demo.one_video))
  = Raise (TypeError "'>' not supported between NoneType and int")
  ∧ detector_calls
      (emitted (@process_video Demo.single Inputs.uncapped)
         (Demo.start Demo.one_video)) = 0%nat.
Proof.
  destruct (@process_video_needs_a_frame_cap Demo.single Inputs.uncapped
              (Demo.start Demo.one_video) eq_refl) as (_ & Hrun & Hcalls).
  split; [|exact Hcalls].
  etransitivity.
  - eapply (f_equal snd), Hrun.
    + apply run_eq. vm_compute. reflexivity.
    + apply run_eq. vm_compute. reflexivity.
  - reflexivity.
Defined.

Lemma process_video_returns_document_or_records_witness :
  ∃ doc,
    snd (@process_video Demo.single Demo.reusing
           (Demo.start Demo.one_video_with_results)) = Ok (FromJson doc).
Proof.
  eassert (H : _).
  { eapply (@process_video_returns_document_or_records Demo.single
              Demo.reusing (Demo.start Demo.one_video_with_results)).
    - apply run_eq. vm_compute. reflexivity.
    - vm_compute. reflexivity. }
  vm_compute in H. destruct H as [doc [_ Hr]].
  exists doc. rewrite <- Hr. vm_compute. reflexivity.
Defined.

Lemma process_video_reuse_does_not_fall_back_witness :
  snd (@process_video Demo.single Demo.reusing
         (Demo.start Inputs.one_video_with_garbage))
  = Raise (JSONDecodeError "/data/v.mp4.json").
Proof.
  etransitivity.
  - eapply (f_equal snd),
      (@process_video_reuse_does_not_fall_back Demo.single Demo.reusing).
    + apply run_eq. vm_compute. reflexivity.
    + reflexivity.
    + vm_compute. reflexivity.
  - reflexivity.
Defined.

Lemma folder_rendering_reads_unbound_tempdir_witness :
  snd (@process_video_folder Inputs.five Inputs.no_rendering_folder
         (Demo.start (Demo.folder_of Demo.five_videos)))
  = Raise (UnboundLocalError "tempdir").
Proof.
  etransitivity.
  - eapply (f_equal snd),
      (@folder_rendering_reads_unbound_tempdir Inputs.five
         Inputs.no_rendering_folder).
    + reflexivity.
    + reflexivity.
    + reflexivity.
    + apply run_eq. vm_compute. reflexivity.
    + vm_compute. discriminate.
    + apply run_eq. vm_compute. reflexivity.
    + apply run_eq. vm_compute. reflexivity.
  - reflexivity.
Defined.


Lemma keep_flags_keep_everything_witness :
  Forall (λ ev, is_removal ev = false)
    (emitted (@process_video Demo.single Inputs.keeping)
       (Demo.start Demo.one_video))
  ∧ force_extracted_frame_folder_deletion Inputs.keeping = true
  ∧ force_rendered_frame_folder_deletion Inputs.keeping = true
  ∧ stitch_outputs
      (emitted (@process_video Demo.single Inputs.keeping)
         (Demo.start Demo.one_video))
    = ["/data/v.mp4.detections.mp4"].
Proof.
  split; [|split; [|split]].
  - apply (@keep_flags_keep_everything Demo.single Inputs.keeping);
      reflexivity.
  - reflexivity.
  - reflexivity.
  - vm_compute. reflexivity.
Defined.

Lemma removals_follow_stitching_witness :
  (∃ before after,
     emitted (@process_video Demo.single Demo.strided_render)
       (Demo.start Demo.one_video) = before ++ after
     ∧ Forall (λ ev, is_removal ev = false) before
     ∧ Forall (λ ev, is_stitch ev = false) after)
  ∧ stitch_outputs
      (emitted (@process_video Demo.single Demo.strided_render)
         (Demo.start Demo.one_video))
    = ["/data/v.mp4.detections.mp4"]
  ∧ length (List.filter is_removal
              (emitted (@process_video Demo.single Demo.strided_render)
                 (Demo.start Demo.one_video))) = 4%nat.
Proof.
  split; [|split].
  - apply (@removals_follow_stitching Demo.single Demo.strided_render
             (Demo.start Demo.one_video)).
  - vm_compute. reflexivity.
  - vm_compute. reflexivity.
Defined.

Lemma frame_results_file_is_another_file_witness :
  output_json_file (Demo.folder_options false (-1))
  = Some "/out/results.json"
  ∧ "/out/results.frames.json"
    = replace "/out/results.json" ".json" ".frames.json"
  ∧ (String.length "/out/results.json"
     < String.length "/out/results.frames.json")%nat
  ∧ "/out/results.frames.json" ≠ "/out/results.json".
Proof.
  eapply (frame_results_file_is_another_file (Demo.folder_options false (-1))
            (Demo.start (Demo.folder_of []))).
  apply run_eq. vm_compute. reflexivity.
Defined.

Lemma folder_run_needs_an_output_folder_witness :
  @process_video_folder Inputs.five
    (Demo.options "/videos" (Some "results.json") None None None
       false false false false false false None (-1))
    (Demo.start (Demo.folder_of Demo.five_videos))
  = (Demo.start (Demo.folder_of Demo.five_videos),
     Raise (FileNotFoundError "")).
Proof.
  apply (@folder_run_needs_an_output_folder Inputs.five _ _ "results.json");
    vm_compute; reflexivity.
Defined.

(** * Properties of merge_detections.py *)

Section Merged.

Import Merge.
#[local] Open Scope result_scope.

Variable get_iou : list Q → list Q → outcome Q.
Variable int : string → outcome Z.
Variable mul : Q → Q → Q.

(** ** Loops that may raise *)

Lemma and_then_Ok {A B} (r : outcome A) (k : A → outcome B) b :
  and_then r k = Ok b → ∃ a, r = Ok a ∧ k a = Ok b.
Proof. destruct r as [a|e]; [|done]. by exists a. Qed.

Lemma for_state_invariant {A S} (f : S → A → outcome S) (I : S → Prop) l :
  (∀ s x s', x ∈ l → I s → f s x = Ok s' → I s') →
  ∀ s s', I s → for_state f l s = Ok s' → I s'.
Proof.
  induction l as [|x l IH]; intros Hstep s s' Hs; cbn.
  - by intros [= <-].
  - intros (s1 & Hx & Hrest)%and_then_Ok.
    apply (IH (λ s x s' Hin, Hstep s x s' (list_elem_of_further _ _ _ Hin))
             s1); [|done].
    by eapply Hstep; [apply list_elem_of_here| |].
Qed.

Lemma keep_if_Ok {A} (f : A → outcome bool) l l' :
  keep_if f l = Ok l' → ∀ x, x ∈ l' → x ∈ l ∧ f x = Ok true.
Proof.
  revert l'. induction l as [|y l IH]; intros l'; cbn.
  - intros [= <-] x Hx. by apply elem_of_nil in Hx.
  - intros (b & Hb & (rest & Hrest & [= <-])%and_then_Ok)%and_then_Ok x Hx.
    destruct b.
    + apply elem_of_cons in Hx as [->|Hx].
      * split; [apply list_elem_of_here|done].
      * destruct (IH rest Hrest x Hx).
        split; [by apply list_elem_of_further|done].
    + destruct (IH rest Hrest x Hx).
      split; [by apply list_elem_of_further|done].
Qed.

(** ** The largest confidence *)

Lemma fold_max_ge (l : list Q) (x : Q) :
  let m := fold_left (λ m y, if Qle_bool y m then m else y) l x in
  (x <= m)%Q ∧ (∀ y, y ∈ l → (y <= m)%Q) ∧ (m = x ∨ m ∈ l).
Proof.
  revert x. induction l as [|z l IH]; intros x; cbn.
  - split; [apply Qle_refl|]. split; [|by left].
    intros y Hy. by apply elem_of_nil in Hy.
  - destruct (Qle_bool z x) eqn:Hzx.
    + destruct (IH x) as (Hx & Hl & Hm). apply Qle_bool_iff in Hzx.
      split; [done|]. split.
      * intros y [->|Hy]%elem_of_cons; [|by apply Hl].
        by eapply Qle_trans.
      * destruct Hm as [Hm|Hm]; [by left|right].
        by apply list_elem_of_further.
    + destruct (IH z) as (Hz & Hl & Hm).
      assert (x <= z)%Q as Hxz.
      { apply Qlt_le_weak, Qnot_le_lt. intros H%Qle_bool_iff. congruence. }
      split; [by eapply Qle_trans|]. split.
      * intros y [->|Hy]%elem_of_cons; [done|by apply Hl].
      * right. destruct Hm as [->|Hm];
          [apply list_elem_of_here|by apply list_elem_of_further].
Qed.

Lemma py_max_Ok (l : list Q) :
  l ≠ [] →
  ∃ m, py_max l = Ok m ∧ m ∈ l ∧ ∀ y, y ∈ l → (y <= m)%Q.
Proof.
  destruct l as [|x l]; [done|]. intros _. cbn.
  destruct (fold_max_ge l x) as (Hx & Hl & Hm).
  eexists. split; [done|]. split.
  - destruct Hm as [->|Hm];
      [apply list_elem_of_here|by apply list_elem_of_further].
  - intros y [->|Hy]%elem_of_cons; [done|by apply Hl].
Qed.

(** ** What is transferred into one image *)

Lemma nomatch_true o det targets :
  nomatch get_iou o det targets = Ok true →
  ∀ target_detection,
    target_detection ∈ targets →
    ∃ iou, get_iou (bbox det) (bbox target_detection) = Ok iou
           ∧ (iou < iou_threshold o)%Q.
Proof.
  induction targets as [|t targets IH]; cbn.
  - intros _ t Ht. by apply elem_of_nil in Ht.
  - intros (iou & Hiou & Hrest)%and_then_Ok.
    destruct (Qle_bool (iou_threshold o) iou) eqn:Hle; [done|].
    intros t' [->|Ht']%elem_of_cons; [|by apply IH].
    exists iou. split; [done|].
    apply Qnot_le_lt. intros H%Qle_bool_iff. congruence.
Qed.

Lemma transfer_from_category_Ok o name threshold targets filtered l :
  transfer_from_category get_iou o name threshold targets filtered = Ok l →
  ∀ det', det' ∈ l →
    ∃ det, det ∈ filtered ∧ det' = mark name det
           ∧ (threshold <= conf det)%Q
           ∧ (merge_empty_only o = false →
              nomatch get_iou o det targets = Ok true).
Proof.
  revert l. induction filtered as [|d filtered IH]; intros l; cbn.
  - intros [= <-] det' H. by apply elem_of_nil in H.
  - intros (transfer & Htransfer
            & (rest & Hrest & [= <-])%and_then_Ok)%and_then_Ok det' Hin.
    assert (det' ∈ rest →
            ∃ det, det ∈ d :: filtered ∧ det' = mark name det
                   ∧ (threshold <= conf det)%Q
                   ∧ (merge_empty_only o = false →
                      nomatch get_iou o det targets = Ok true)) as Hrec.
    { intros H. destruct (IH rest Hrest det' H) as (det & ? & ?).
      exists det. split; [by apply list_elem_of_further|done]. }
    destruct transfer; [|by apply Hrec].
    apply elem_of_cons in Hin as [->|Hin]; [|by apply Hrec].
    exists d. split; [apply list_elem_of_here|]. split; [done|].
    destruct (Qle_bool threshold (conf d)) eqn:Hle; [|done].
    split; [by apply Qle_bool_iff|].
    intros Hmode. by rewrite Hmode in Htransfer.
Qed.

Lemma max_target_confidence_Ok targets :
  ∃ m, max_target_confidence targets = Ok m
       ∧ ∀ det, det ∈ targets → (conf det <= m)%Q.
Proof.
  unfold max_target_confidence. destruct targets as [|t targets].
  - exists 0%Q. split; [done|]. intros det H. by apply elem_of_nil in H.
  - destruct (py_max_Ok (map conf (t :: targets))) as (m & Hm & _ & Hle);
      [done|].
    exists m. split; [done|].
    intros det Hdet. apply Hle. by apply list_elem_of_fmap_2.
Qed.

Lemma within_size_true o det :
  within_size mul o det = Ok true →
  ∃ s, size mul det = Ok s
       ∧ (min_detection_size o <= s)%Q ∧ (s <= max_detection_size o)%Q.
Proof.
  unfold within_size. intros (s & Hs & [= Hb])%and_then_Ok.
  apply andb_true_iff in Hb as [Hmax%Qle_bool_iff Hmin%Qle_bool_iff].
  by exists s.
Qed.

Lemma transfer_category_Ok o name threshold target_detections
    source_detections c l :
  transfer_category get_iou mul o name threshold target_detections
    source_detections c = Ok l →
  Forall (transferable get_iou mul o name threshold target_detections
            source_detections c) l.
Proof.
  unfold transfer_category.
  set (this := List.filter (λ det, String.eqb (category det) c)
                 target_detections).
  destruct (max_target_confidence_Ok this) as (m & -> & Hmax). cbn.
  assert (Hthis : ∀ t, t ∈ target_detections → category t = c → t ∈ this).
  { intros t Ht Hc. apply list_elem_of_In, filter_In.
    split; [by apply list_elem_of_In|]. by apply String.eqb_eq. }
  destruct (merge_empty_only o
            && Qle_bool (target_confidence_threshold o) m) eqn:Hskip.
  { by intros [= <-]. }
  intros (filtered & Hfiltered & Htransfer)%and_then_Ok.
  apply Forall_forall. intros det' Hdet'.
  destruct (transfer_from_category_Ok _ _ _ _ _ _ Htransfer det' Hdet')
    as (det & Hdet & -> & Hconf & Hnomatch).
  destruct (keep_if_Ok _ _ _ Hfiltered det Hdet) as [Hraw Hsize].
  apply list_elem_of_In, filter_In in Hraw as [Hin Hc%String.eqb_eq].
  exists det. split; [by apply list_elem_of_In|]. split; [done|].
  split; [done|]. split; [done|]. split; [by apply within_size_true|].
  intros t Ht Htc. destruct (merge_empty_only o) eqn:Hmode.
  - cbn in Hskip. eapply Qle_lt_trans; [by apply Hmax, Hthis|].
    apply Qnot_le_lt. intros H%Qle_bool_iff. congruence.
  - by apply (nomatch_true o det this (Hnomatch eq_refl)), Hthis.
Qed.

Lemma detections_to_transfer_Ok o name threshold target_detections
    source_detections detection_categories to_transfer :
  detections_to_transfer get_iou mul o name threshold target_detections
    source_detections detection_categories = Ok to_transfer →
  Forall (λ det', ∃ c, c ∈ detection_categories
                       ∧ transferable get_iou mul o name threshold
                           target_detections source_detections c det')
    to_transfer.
Proof.
  unfold detections_to_transfer.
  apply (for_state_invariant _
           (Forall (λ det', ∃ c, c ∈ detection_categories
                                 ∧ transferable get_iou mul o name threshold
                                     target_detections source_detections c
                                     det'))); [|done].
  intros acc c acc' Hc Hacc (l & Hl%transfer_category_Ok & [= <-])%and_then_Ok.
  apply Forall_app. split; [done|].
  eapply Forall_impl; [exact Hl|]. intros det' H. by exists c.
Qed.

(** ** The images a file name refers to *)

Lemma fn_to_image_from (l : list Image) (k : nat) (m : gmap string nat) fn i :
  foldl (λ index entry, <[file (snd entry) := fst entry]> index) m
    (zip (seq k (length l)) l) !! fn = Some i →
  (∃ im, (k ≤ i)%nat ∧ l !! (i - k)%nat = Some im ∧ file im = fn
         ∧ ∀ j im', (i - k < j)%nat → l !! j = Some im' → file im' ≠ fn)
  ∨ (m !! fn = Some i ∧ ∀ im, im ∈ l → file im ≠ fn).
Proof.
  revert k m. induction l as [|x l IH]; intros k m; cbn.
  - intros H. right. split; [done|]. intros im Him.
    by apply elem_of_nil in Him.
  - intros [(im & Hk & Him & Hfile & Hlast)|[Hm Hnone]]%IH.
    + left. exists im. split; [lia|].
      replace (i - k)%nat with (S (i - S k)) by lia.
      split; [done|]. split; [done|].
      intros [|j] im' Hj; [lia|]. cbn. apply Hlast. lia.
    + destruct (decide (file x = fn)) as [Hx|Hx].
      * rewrite Hx, lookup_insert_eq in Hm. injection Hm as <-.
        left. exists x. rewrite Nat.sub_diag.
        split; [done|]. split; [done|]. split; [done|].
        intros [|j] im' Hj; [lia|]. cbn. intros Him'.
        apply Hnone. by eapply list_elem_of_lookup_2.
      * rewrite lookup_insert_ne in Hm by done. right. split; [done|].
        intros im [->|Him]%elem_of_cons; [done|by apply Hnone].
Qed.

Lemma fn_to_image_lookup images fn i :
  fn_to_image images !! fn = Some i →
  ∃ im, images !! i = Some im ∧ file im = fn
        ∧ ∀ j im', (i < j)%nat → images !! j = Some im' → file im' ≠ fn.
Proof.
  unfold fn_to_image.
  intros [(im & _ & Him & Hfile & Hlast)|[Hm _]]%fn_to_image_from.
  - rewrite Nat.sub_0_r in *. by exists im.
  - by rewrite lookup_empty in Hm.
Qed.

Lemma elem_of_enumerate {A} (l : list A) k i x :
  (i, x) ∈ zip (seq k (length l)) l → (k ≤ i)%nat ∧ l !! (i - k)%nat = Some x.
Proof.
  revert k. induction l as [|y l IH]; intros k; cbn.
  - intros H. by apply elem_of_nil in H.
  - intros [[= -> ->]|[Hk Hx]%IH]%elem_of_cons.
    + by rewrite Nat.sub_diag.
    + split; [lia|]. by replace (i - k)%nat with (S (i - S k)) by lia.
Qed.

(** ** One image of a source *)

Lemma merge_image_Ok o detection_categories name threshold
    index images source_im images' :
  merge_image get_iou mul o detection_categories name threshold index images
    source_im = Ok images' →
  ∃ i target_im,
    index !! file source_im = Some i ∧ images !! i = Some target_im
    ∧ (images' = images
       ∨ ∃ source_detections target_detections added max_detection_conf',
           detections source_im = Some source_detections
           ∧ detections target_im = Some target_detections
           ∧ added ≠ []
           ∧ Forall (λ det', ∃ c, c ∈ detection_categories
                                  ∧ transferable get_iou mul o name threshold
                                      target_detections source_detections c
                                      det') added
           ∧ match max_detection_conf target_im with
             | None => max_detection_conf' = None
             | Some _ =>
                 ∃ m, max_detection_conf' = Some m
                      ∧ m ∈ map conf (target_detections ++ added)
                      ∧ ∀ det, det ∈ target_detections ++ added →
                               (conf det <= m)%Q
             end
           ∧ images'
             = <[i := {| file := file target_im;
                         detections := Some (target_detections ++ added);
                         max_detection_conf := max_detection_conf' |}]>
                 images).
Proof.
  unfold merge_image.
  destruct (index !! file source_im) as [i|] eqn:Hi; [|done].
  destruct (images !! i) as [target_im|] eqn:Htarget; [|done].
  intros Hrun. exists i, target_im. split; [done|]. split; [done|].
  destruct (detections source_im) as [source_detections|] eqn:Hsource;
    [|left; by injection Hrun].
  destruct (detections target_im) as [target_detections|] eqn:Hdets;
    [|left; by injection Hrun].
  apply and_then_Ok in Hrun as (added & Hadded & Hrun).
  destruct added as [|det added]; [left; by injection Hrun|].
  cbn [length Nat.ltb Nat.leb] in Hrun.
  apply and_then_Ok in Hrun as (mdc & Hmdc & [= <-]).
  right. exists source_detections, target_detections, (det :: added), mdc.
  split; [done|]. split; [done|]. split; [done|].
  split; [by apply detections_to_transfer_Ok|]. split; [|done].
  destruct (max_detection_conf target_im) as [old|] eqn:Hold;
    [|by injection Hmdc].
  apply and_then_Ok in Hmdc as (m & Hm & [= <-]).
  destruct (py_max_Ok (map conf (target_detections ++ det :: added)))
    as (m' & Hm' & Hin & Hle).
  { by destruct target_detections. }
  rewrite Hm in Hm'. injection Hm' as <-.
  exists m. split; [done|]. split; [done|].
  intros d Hd. apply Hle. by apply list_elem_of_fmap_2.
Qed.

(** X15.  The body of the loop over a source's images changes at most one image
    of the target, the one its file name refers to, and keeps that image's
    name.  When it has something to transfer, it appends it to the image's
    detections.  Every detection it appends comes from the source image,
    belongs to one of the processed categories, reaches the source's confidence
    threshold, has a box of an admitted size and carries the source's name in
    [transferred_from]; with [merge_empty_only] the target had no detection of
    that category at or above the target threshold, and without it no detection
    the target had in that category overlaps it with an IoU at or above the IoU
    threshold.  An image that carries [max_detection_conf] gets it set to the
    largest confidence among all its detections. *)
Theorem merge_image_extends_one_image o detection_categories name threshold
    index images source_im images' :
  merge_image get_iou mul o detection_categories name threshold index images
    source_im = Ok images' →
  length images' = length images
  ∧ ∃ i,
      index !! file source_im = Some i
      ∧ (∀ j, j ≠ i → images' !! j = images !! j)
      ∧ ∃ before after,
          images !! i = Some before ∧ images' !! i = Some after
          ∧ file after = file before
          ∧ (after = before
             ∨ ∃ source_detections target_detections added,
                 detections source_im = Some source_detections
                 ∧ detections before = Some target_detections
                 ∧ added ≠ []
                 ∧ detections after = Some (target_detections ++ added)
                 ∧ Forall (λ det', ∃ c, c ∈ detection_categories
                                        ∧ transferable get_iou mul o name
                                            threshold target_detections
                                            source_detections c det')
                     added
                 ∧ match max_detection_conf before with
                   | None => max_detection_conf after = None
                   | Some _ =>
                       ∃ m, max_detection_conf after = Some m
                            ∧ m ∈ map conf (target_detections ++ added)
                            ∧ ∀ det, det ∈ target_detections ++ added →
                                     (conf det <= m)%Q
                   end).
Proof.
  intros (i & before & Hi & Hbefore & Hstep)%merge_image_Ok.
  destruct Hstep
    as [->|(sdets & tdets & added & mdc & Hsdets & Htdets & Hadded & Hall
            & Hmax & ->)].
  - split; [done|]. exists i. split; [done|]. split; [done|].
    exists before, before. repeat (split; [done|]). by left.
  - split; [by rewrite length_insert|]. exists i. split; [done|].
    split; [intros j Hj; by rewrite list_lookup_insert_ne|].
    eexists before, _. split; [done|]. split.
    { apply list_lookup_insert_eq. by eapply lookup_lt_Some. }
    split; [done|]. right. exists sdets, tdets, added.
    by repeat (split; [done|]).
Qed.

(** ** The merged document *)

Lemma merge_source_Ok o fs raw detection_categories index images detector'
    transferred i source_file images' detector'' transferred' :
  merge_source get_iou mul o fs raw detection_categories index
    (images, detector', transferred) (i, source_file)
  = Ok (images', detector'', transferred') →
  ∃ source_data threshold,
    json_load source_file fs = Ok source_data
    ∧ source_confidence_thresholds o !! i = Some threshold
    ∧ dict_eqb (Merge.detection_categories source_data) raw = true
    ∧ for_state
        (merge_image get_iou mul o detection_categories
           (default (basename source_file) (detector (info source_data)))
           threshold index)
        (Merge.images source_data) images = Ok images'
    ∧ detector''
      = detector' +:+ " + "
        +:+ default (basename source_file) (detector (info source_data))
    ∧ transferred' = transferred ++ [basename source_file].
Proof.
  unfold merge_source.
  intros (source_data & Hload & Hrun)%and_then_Ok.
  apply and_then_Ok in Hrun as ([] & Hcheck & Hrun).
  apply and_then_Ok in Hrun as (threshold & Hthreshold & Hrun).
  apply and_then_Ok in Hrun as (images'' & Himages & [= <- <- <-]).
  exists source_data, threshold. split; [done|]. split.
  { by destruct (source_confidence_thresholds o !! i) as [t|];
      [injection Hthreshold as ->|]. }
  split; [|done]. unfold check in Hcheck.
  by destruct (dict_eqb _ _).
Qed.

Lemma merged_Ok o source_files target_file fs out :
  merged get_iou int mul o source_files target_file fs = Ok out →
  ∃ output_data detection_categories images' detector' transferred',
    json_load target_file fs = Ok output_data
    ∧ select_categories int o
        (map fst (Merge.detection_categories output_data))
      = Ok detection_categories
    ∧ for_state
        (merge_source get_iou mul o fs (Merge.detection_categories output_data)
           detection_categories (fn_to_image (images output_data)))
        (zip (seq 0 (length source_files)) source_files)
        (images output_data,
         default "MDv4 (assumed)" (detector (info output_data)),
         default [] (detections_transferred_from (info output_data)))
      = Ok (images', detector', transferred')
    ∧ out = {| images := images';
               info := {| detector := Some detector';
                          detections_transferred_from := Some transferred' |};
               detection_categories :=
                 Merge.detection_categories output_data |}.
Proof.
  unfold merged.
  intros (output_data & Hload & Hrun)%and_then_Ok.
  apply and_then_Ok in Hrun as (cats & Hcats & Hrun).
  apply and_then_Ok in Hrun as ([[images' detector'] transferred'] & Hloop
                                & [= <-]).
  by exists output_data, cats, images', detector', transferred'.
Qed.

Lemma transferable_fewer_targets o name threshold targets targets' sources c
    det' :
  (∀ t, t ∈ targets' → t ∈ targets) →
  transferable get_iou mul o name threshold targets sources c det' →
  transferable get_iou mul o name threshold targets' sources c det'.
Proof.
  intros Hsub (det & Hin & Hmark & Hc & Hconf & Hsize & Htargets).
  exists det. repeat (split; [done|]). intros t Ht. by apply Htargets, Hsub.
Qed.

Lemma grown_refl P im : grown P im im.
Proof.
  split; [done|]. destruct (detections im) as [dets|] eqn:Hdets; [|done].
  exists []. by rewrite app_nil_r.
Qed.

Lemma Forall2_grown_refl P images : Forall2 (grown P) images images.
Proof. induction images; constructor; [apply grown_refl|done]. Qed.

Lemma merge_image_grows o fs source_files detection_categories images0 i
    source_file threshold source_data source_im images images' :
  source_files !! i = Some source_file →
  source_confidence_thresholds o !! i = Some threshold →
  json_load source_file fs = Ok source_data →
  source_im ∈ Merge.images source_data →
  Forall2 (grown (taken_from_a_source get_iou mul o fs source_files
                    detection_categories)) images0 images →
  merge_image get_iou mul o detection_categories
    (default (basename source_file) (detector (info source_data)))
    threshold (fn_to_image images0) images source_im = Ok images' →
  Forall2 (grown (taken_from_a_source get_iou mul o fs source_files
                    detection_categories)) images0 images'.
Proof.
  intros Hsource Hthreshold Hload Hin Hgrown
    (k & target_im & Hk & Htarget
     & [->|(sdets & tdets & added & mdc & Hsdets & Htdets & _ & Hadded & _
            & ->)])%merge_image_Ok; [done|].
  apply fn_to_image_lookup in Hk as (before & Hbefore & Hfile & _).
  pose proof (Forall2_lookup_lr _ _ _ _ _ _ Hgrown Hbefore Htarget)
    as [Hname Hdets].
  rewrite <- (list_insert_id images0 k before Hbefore).
  apply Forall2_insert; [done|].
  split; [done|].
  destruct (detections before) as [dets0|] eqn:Hdets0.
  - destruct Hdets as (added0 & Hdets & Hadded0).
    rewrite Htdets in Hdets. injection Hdets as ->.
    exists (added0 ++ added). rewrite app_assoc. split; [done|].
    apply Forall_app. split; [done|].
    eapply Forall_impl; [exact Hadded|]. intros det' (c & Hc & Hdet').
    exists i, source_file, threshold, source_data, source_im, sdets, c.
    repeat (split; [done|]).
    eapply transferable_fewer_targets; [|done].
    intros t Ht. apply elem_of_app. by left.
  - subst target_im. congruence.
Qed.

(** X16.  The merged document keeps the target's images, in order and under
    their names, and its categories.  An image without a list of detections is
    carried over as it is; any other keeps its detections and may get more at
    the end, each of them taken from an image of the same name in one of the
    source files: marked with that source's detector name (or file name), at or
    above that source's confidence threshold, of a processed category and an
    admitted size, and not in the way of any detection the target image had. *)
Theorem merged_images_grow o source_files target_file fs out :
  merged get_iou int mul o source_files target_file fs = Ok out →
  ∃ output_data detection_categories,
    json_load target_file fs = Ok output_data
    ∧ select_categories int o
        (map fst (Merge.detection_categories output_data))
      = Ok detection_categories
    ∧ Merge.detection_categories out
      = Merge.detection_categories output_data
    ∧ Forall2 (grown (taken_from_a_source get_iou mul o fs source_files
                        detection_categories))
        (images output_data) (images out).
Proof.
  intros (output_data & cats & images' & detector' & transferred' & Hload
          & Hcats & Hloop & ->)%merged_Ok.
  exists output_data, cats. repeat (split; [done|]). cbn.
  set (P := taken_from_a_source get_iou mul o fs source_files cats).
  refine (for_state_invariant _
            (λ state, Forall2 (grown P) (images output_data)
                        (fst (fst state))) _ _ _ _ _ Hloop);
    [|apply Forall2_grown_refl].
  intros [[images1 detector1] transferred1] [i source_file]
    [[images2 detector2] transferred2]
    [_ Hsource]%elem_of_enumerate Hgrown
    (source_data & threshold & Hsd & Hthreshold & _ & Himages
     & _)%merge_source_Ok.
  rewrite Nat.sub_0_r in Hsource. cbn in *.
  refine (for_state_invariant _
            (λ images, Forall2 (grown P) (Merge.images output_data) images)
            _ _ _ _ Hgrown Himages).
  intros images3 source_im images4 Hin Hgrown3 Hstep.
  by eapply merge_image_grows.
Qed.

(** X17.  When two images of the target carry the same file name, the dict of
    lines 78-82 refers to the later one: the earlier one is never changed,
    whatever the sources hold for that name. *)
Theorem merged_changes_the_last_of_a_name o source_files target_file fs out
    output_data i j im im' :
  merged get_iou int mul o source_files target_file fs = Ok out →
  json_load target_file fs = Ok output_data →
  images output_data !! i = Some im →
  images output_data !! j = Some im' →
  (i < j)%nat → file im = file im' →
  images out !! i = Some im.
Proof.
  intros (output_data' & cats & images' & detector' & transferred' & Hload
          & Hcats & Hloop & ->)%merged_Ok Hload' Hi Hj Hij Hfile.
  rewrite Hload in Hload'. injection Hload' as ->. cbn.
  set (index := fn_to_image (images output_data)) in *.
  assert (Hfree : ∀ fn, index !! fn ≠ Some i).
  { intros fn (im0 & Him0 & <- & Hlast)%fn_to_image_lookup.
    rewrite Hi in Him0. injection Him0 as <-.
    by apply (Hlast j im' Hij Hj). }
  rewrite <- Hi.
  refine (for_state_invariant _
            (λ state, fst (fst state) !! i = images output_data !! i)
            _ _ _ _ _ Hloop); [|done].
  intros [[images1 detector1] transferred1] [k source_file]
    [[images2 detector2] transferred2] _ Hsame
    (source_data & threshold & _ & _ & _ & Himages & _)%merge_source_Ok.
  cbn in *.
  refine (for_state_invariant _
            (λ images, images !! i = Merge.images output_data !! i)
            _ _ _ _ Hsame Himages).
  intros images3 source_im images4 _ Hsame3
    (k' & target_im & Hk' & _ & Hstep)%merge_image_Ok.
  destruct Hstep as [Heq|(? & ? & ? & ? & _ & _ & _ & _ & _ & Heq)];
    rewrite Heq; [done|].
  rewrite list_lookup_insert_ne; [done|].
  intros Hk. apply (Hfree (file source_im)). by rewrite <- Hk.
Qed.

(** ** What is recorded about the sources *)

Lemma merge_sources_info o fs raw detection_categories index source_files :
  ∀ k images detector' transferred images' detector'' transferred',
    for_state
      (merge_source get_iou mul o fs raw detection_categories index)
      (zip (seq k (length source_files)) source_files)
      (images, detector', transferred)
    = Ok (images', detector'', transferred') →
    ∃ names,
      Forall2 (λ source_file name,
                 ∃ source_data,
                   json_load source_file fs = Ok source_data
                   ∧ name = default (basename source_file)
                              (detector (info source_data)))
        source_files names
      ∧ detector''
        = foldl (λ d name, d +:+ " + " +:+ name) detector' names
      ∧ transferred' = transferred ++ map basename source_files.
Proof.
  induction source_files as [|source_file source_files IH];
    intros k images detector' transferred images' detector'' transferred';
    cbn.
  - intros [= <- <- <-]. exists []. by rewrite app_nil_r.
  - intros ([[images1 detector1] transferred1] & Hstep & Hrest)%and_then_Ok.
    apply merge_source_Ok in Hstep
      as (source_data & threshold & Hload & _ & _ & _ & -> & ->).
    apply IH in Hrest as (names & Hnames & -> & ->).
    exists (default (basename source_file) (detector (info source_data))
            :: names).
    split; [constructor; [by exists source_data|done]|].
    split; [done|]. by rewrite <- app_assoc.
Qed.

(** X18.  The merged document names every source, whether or not anything was
    taken from it: the base name of each source file is appended to
    [info['detections_transferred_from']] (which starts empty when the target
    has none), and [info['detector']] is the target's detector ("MDv4
    (assumed)" when the target names none) followed by " + " and the detector
    of each source, for which the base name of the file stands in when the
    source names none. *)
Theorem merged_names_every_source o source_files target_file fs out :
  merged get_iou int mul o source_files target_file fs = Ok out →
  ∃ output_data names,
    json_load target_file fs = Ok output_data
    ∧ Forall2 (λ source_file name,
                 ∃ source_data,
                   json_load source_file fs = Ok source_data
                   ∧ name = default (basename source_file)
                              (detector (info source_data)))
        source_files names
    ∧ detector (info out)
      = Some (foldl (λ d name, d +:+ " + " +:+ name)
                (default "MDv4 (assumed)" (detector (info output_data)))
                names)
    ∧ detections_transferred_from (info out)
      = Some (default [] (detections_transferred_from (info output_data))
              ++ map basename source_files).
Proof.
  intros (output_data & cats & images' & detector' & transferred' & Hload
          & Hcats & Hloop & ->)%merged_Ok.
  apply merge_sources_info in Hloop as (names & Hnames & -> & ->).
  by exists output_data, names.
Qed.

(** ** What a merge requires of the sources *)

Lemma for_state_steps {A S} (f : S → A → outcome S) l s s' :
  for_state f l s = Ok s' →
  ∀ x, x ∈ l → ∃ s1 s2, f s1 x = Ok s2.
Proof.
  revert s. induction l as [|y l IH]; intros s; cbn.
  - intros _ x Hx. by apply elem_of_nil in Hx.
  - intros (s1 & Hy & Hrest)%and_then_Ok x [->|Hx]%elem_of_cons.
    + by exists s, s1.
    + by eapply IH.
Qed.

(** X19.  A merge goes through only if every source file holds a results
    document with the categories of the target, and no image that the target
    lacks: a single image of a source that is unknown to the target makes the
    whole merge fail (line 135). *)
Theorem merged_requires_matching_sources o source_files target_file fs out :
  merged get_iou int mul o source_files target_file fs = Ok out →
  ∃ output_data,
    json_load target_file fs = Ok output_data
    ∧ ∀ source_file,
        source_file ∈ source_files →
        ∃ source_data,
          json_load source_file fs = Ok source_data
          ∧ dict_eqb (Merge.detection_categories source_data)
              (Merge.detection_categories output_data) = true
          ∧ ∀ source_im,
              source_im ∈ images source_data →
              ∃ target_im,
                target_im ∈ images output_data
                ∧ file target_im = file source_im.
Proof.
  intros (output_data & cats & images' & detector' & transferred' & Hload
          & Hcats & Hloop & ->)%merged_Ok.
  exists output_data. split; [done|]. intros source_file Hin.
  apply list_elem_of_lookup_1 in Hin as [i Hi].
  assert ((i, source_file)
          ∈ zip (seq 0 (length source_files)) source_files) as Hzip.
  { apply list_elem_of_lookup_2 with i. apply lookup_zip_with_Some.
    exists i, source_file. split; [done|]. split; [|done].
    apply lookup_seq. split; [done|]. by eapply lookup_lt_Some. }
  destruct (for_state_steps _ _ _ _ Hloop _ Hzip)
    as ([[images1 detector1] transferred1]
        & [[images2 detector2] transferred2] & Hstep).
  apply merge_source_Ok in Hstep
    as (source_data & threshold & Hsd & _ & Heq & Himages & _).
  exists source_data. split; [done|]. split; [done|].
  intros source_im Him.
  destruct (for_state_steps _ _ _ _ Himages _ Him) as (images3 & images4 & H).
  apply merge_image_Ok in H as (k & _ & Hk & _).
  apply fn_to_image_lookup in Hk as (target_im & Htarget & Hfile & _).
  exists target_im. split; [by eapply list_elem_of_lookup_2|done].
Qed.

(** ** Sources without a confident detection *)

(** X20.  When no detection of any source reaches the confidence threshold of
    its source, a merge that goes through leaves every image of the target
    exactly as it was. *)
Theorem sources_below_threshold_change_no_image o source_files target_file
    fs out :
  merged get_iou int mul o source_files target_file fs = Ok out →
  (∀ i source_file threshold source_data source_im source_detections det,
     source_files !! i = Some source_file →
     source_confidence_thresholds o !! i = Some threshold →
     json_load source_file fs = Ok source_data →
     source_im ∈ images source_data →
     detections source_im = Some source_detections →
     det ∈ source_detections →
     (conf det < threshold)%Q) →
  ∃ output_data,
    json_load target_file fs = Ok output_data
    ∧ images out = images output_data.
Proof.
  intros (output_data & cats & images' & detector' & transferred' & Hload
          & Hcats & Hloop & ->)%merged_Ok Hbelow.
  exists output_data. split; [done|]. cbn.
  refine (for_state_invariant _
            (λ state, fst (fst state) = images output_data)
            _ _ _ _ _ Hloop); [|done].
  intros [[images1 detector1] transferred1] [i source_file]
    [[images2 detector2] transferred2]
    [_ Hsource]%elem_of_enumerate Hsame
    (source_data & threshold & Hsd & Hthreshold & _ & Himages
     & _)%merge_source_Ok.
  rewrite Nat.sub_0_r in Hsource. cbn in *.
  refine (for_state_invariant _
            (λ images, images = Merge.images output_data)
            _ _ _ _ Hsame Himages).
  intros images3 source_im images4 Hin Hsame3
    (k & target_im & _ & _ & Hstep)%merge_image_Ok.
  destruct Hstep
    as [Heq|(sdets & tdets & added & mdc & Hsdets & _ & Hadded & Hall & _)];
    [congruence|].
  destruct added as [|det' added]; [done|].
  apply Forall_cons in Hall
    as [(c & _ & det & Hdet & _ & _ & Hconf & _) _].
  pose proof (Hbelow i source_file threshold source_data source_im sdets det
                Hsource Hthreshold Hsd Hin Hsdets Hdet) as Hlt.
  by apply Qlt_not_le in Hlt.
Qed.

(** ** The target confidence threshold *)

Lemma for_state_ext {A S} (f g : S → A → outcome S) l s :
  (∀ s x, f s x = g s x) → for_state f l s = for_state g l s.
Proof.
  intros Hfg. revert s. induction l as [|x l IH]; intros s; cbn; [done|].
  rewrite Hfg. destruct (g s x); cbn; [apply IH|done].
Qed.

Lemma keep_if_ext {A} (f g : A → outcome bool) l :
  (∀ x, f x = g x) → keep_if f l = keep_if g l.
Proof.
  intros Hfg. induction l as [|x l IH]; cbn; [done|].
  by rewrite Hfg, IH.
Qed.

Lemma nomatch_target_threshold t o det targets :
  nomatch get_iou (with_target_confidence_threshold t o) det targets
  = nomatch get_iou o det targets.
Proof.
  induction targets as [|target targets IH]; cbn; [done|].
  destruct (get_iou _ _); cbn; [|done]. by rewrite IH.
Qed.

Lemma transfer_from_category_target_threshold t o name threshold targets
    filtered :
  transfer_from_category get_iou (with_target_confidence_threshold t o) name
    threshold targets filtered
  = transfer_from_category get_iou o name threshold targets filtered.
Proof.
  induction filtered as [|det filtered IH]; cbn; [done|].
  by rewrite IH, nomatch_target_threshold.
Qed.

Lemma transfer_category_target_threshold t o name threshold targets sources
    c :
  merge_empty_only o = false →
  transfer_category get_iou mul (with_target_confidence_threshold t o) name
    threshold targets sources c
  = transfer_category get_iou mul o name threshold targets sources c.
Proof.
  intros Hmode. unfold transfer_category.
  change (merge_empty_only (with_target_confidence_threshold t o))
    with (merge_empty_only o).
  change (within_size mul (with_target_confidence_threshold t o))
    with (within_size mul o).
  rewrite Hmode. cbn [andb].
  destruct (max_target_confidence _); [|done]. unfold and_then.
  destruct (keep_if _ _); [|done].
  apply transfer_from_category_target_threshold.
Qed.

(** X21.  Without [merge_empty_only] the target confidence threshold has no
    effect at all, whatever the detections of the target: line 164 is the only
    place that reads it, behind [options.merge_empty_only and]. *)
Theorem target_threshold_counts_for_empty_only t o source_files target_file
    output_file fs :
  merge_empty_only o = false →
  merge_detections get_iou int mul source_files target_file output_file
    (Some (with_target_confidence_threshold t o)) fs
  = merge_detections get_iou int mul source_files target_file output_file
      (Some o) fs.
Proof.
  intros Hmode. unfold merge_detections.
  cbv beta iota zeta delta [default from_option id].
  change (validate (with_target_confidence_threshold t o))
    with (validate o).
  destruct (validate o source_files target_file fs); [|done].
  destruct (makedirs (dirname output_file) fs) as [[[]|e] fs1]; [|done].
  assert (merged get_iou int mul (with_target_confidence_threshold t o)
            source_files target_file fs1
          = merged get_iou int mul o source_files target_file fs1) as ->; [|done].
  unfold merged. destruct (json_load target_file fs1); cbn; [|done].
  change (select_categories int (with_target_confidence_threshold t o))
    with (select_categories int o).
  destruct (select_categories int o _) as [cats|]; cbn; [|done].
  erewrite for_state_ext; [done|].
  intros [[images detector'] transferred] [i source_file].
  unfold merge_source.
  destruct (json_load source_file fs1); cbn; [|done].
  destruct (check _ _); cbn; [|done].
  destruct (source_confidence_thresholds o !! i) as [threshold|]; cbn;
    [|done].
  erewrite for_state_ext; [done|].
  intros images1 source_im. unfold merge_image.
  destruct (_ !! file source_im) as [k|]; [|done].
  destruct (images1 !! k) as [target_im|]; [|done].
  destruct (detections source_im) as [sdets|]; [|done].
  destruct (detections target_im) as [tdets|]; [|done].
  unfold detections_to_transfer. erewrite for_state_ext; [done|].
  intros acc c. by rewrite transfer_category_target_threshold.
Qed.

(** ** Checks, and what is written *)

Lemma check_sources_Ok fs (source_files : list path) :
  (∀ fn, fn ∈ source_files → isfile fn fs = true) →
  for_state (λ _ fn, check (isfile fn fs) "Could not find source file")
    source_files tt = Ok tt.
Proof.
  induction source_files as [|fn source_files IH]; intros Hall; [done|].
  cbn. rewrite (Hall fn) by apply list_elem_of_here. cbn.
  apply IH. intros fn' Hfn'. by apply Hall, list_elem_of_further.
Qed.

Lemma check_sources_Raise fs (source_files : list path) fn :
  fn ∈ source_files → isfile fn fs = false →
  for_state (λ _ fn, check (isfile fn fs) "Could not find source file")
    source_files tt
  = Raise (AssertionError "Could not find source file").
Proof.
  induction source_files as [|fn' source_files IH]; intros Hin Hfn.
  - by apply elem_of_nil in Hin.
  - cbn. destruct (isfile fn' fs) eqn:Hfn'; [|done]. cbn.
    apply elem_of_cons in Hin as [->|Hin]; [congruence|by apply IH].
Qed.

(** X22.  Lines 54-69 check the arguments before anything is read: when both
    category lists are given, when the number of thresholds is not the number
    of source files, or when a source file or the target file does not exist,
    the call raises an AssertionError and no file or folder is touched. *)
Theorem merge_detections_checks_its_arguments source_files target_file
    output_file options fs :
  let o := default default_options options in
  (is_Some (categories_to_exclude o) ∧ is_Some (categories_to_include o))
  ∨ length source_files ≠ length (source_confidence_thresholds o)
  ∨ (∃ fn, fn ∈ source_files ∧ isfile fn fs = false)
  ∨ isfile target_file fs = false →
  ∃ msg,
    merge_detections get_iou int mul source_files target_file output_file
      options fs
    = (Raise (AssertionError msg), fs).
Proof.
  intros o Hbad. unfold merge_detections. fold o.
  enough (∃ msg, validate o source_files target_file fs
                 = Raise (AssertionError msg)) as [msg ->] by by exists msg.
  unfold validate.
  destruct (bool_decide (is_Some (categories_to_exclude o))
            && bool_decide (is_Some (categories_to_include o))) eqn:Hboth;
    [by eexists|].
  cbn.
  destruct (length source_files
            =? length (source_confidence_thresholds o))%nat eqn:Hlen;
    [|by eexists].
  cbn. apply Nat.eqb_eq in Hlen.
  destruct Hbad as [[Hex Hin]|[Hne|[(fn & Hfn & Hmissing)|Htarget]]].
  - rewrite !bool_decide_eq_true_2 in Hboth by done. done.
  - done.
  - rewrite (check_sources_Raise fs source_files fn) by done. by eexists.
  - destruct (for_state _ source_files tt) as [[]|e] eqn:Hsources.
    + cbn. rewrite Htarget. by eexists.
    + cbn. clear -Hsources. exists "Could not find source file".
      induction source_files as [|fn source_files IH]; [done|].
      cbn in Hsources. destruct (isfile fn fs); cbn in Hsources.
      * by apply IH.
      * by injection Hsources as <-.
Qed.

(** X23.  A call changes no path but the output file, the folder it is in
    and the folders above that one, and to a path other than the output
    file it does one thing only: it makes a folder where there was nothing.
    When it raises, the same holds of the output file: whatever the stage
    of the failure, an earlier file of that name stays as it was.  When it
    returns, the output file holds the merged document, computed from the
    files as they are once the output folder has been made. *)
Theorem merge_detections_writes_only_the_output source_files target_file
    output_file options fs r fs' :
  merge_detections get_iou int mul source_files target_file output_file options
    fs = (r, fs') →
  (∀ p, p ≠ output_file ∨ (∃ e, r = Raise e) →
     fs' !! p = fs !! p
     ∨ (fs !! p = None ∧ fs' !! p = Some Folder
        ∧ (p = dirname output_file
           ∨ p ∈ folders_above (dirname output_file))))
  ∧ (r = Ok tt →
     ∃ fs1 out,
       makedirs (dirname output_file) fs = (Ok tt, fs1)
       ∧ merged get_iou int mul (default default_options options)
           source_files target_file fs1 = Ok out
       ∧ fs' = <[output_file := Json out]> fs1).
Proof.
  unfold merge_detections.
  destruct (validate _ _ _ _); [|intros [= <- <-]; split; [by left|done]].
  destruct (makedirs (dirname output_file) fs) as [made fs1] eqn:Hmade.
  pose proof (λ p, os_makedirs_lookup Folder is_folder _ _ _ _ p Hmade)
    as Hfs1.
  destruct made as [[]|e]; [|intros [= <- <-]; split; [auto|done]].
  destruct (merged _ _ _ _ _ _ _) as [out|e] eqn:Hmerged;
    [|intros [= <- <-]; split; [auto|done]].
  unfold json_dump.
  destruct (fs1 !! output_file) as [[]|]; intros [= <- <-];
    (split; [|first [done | intros _; by exists fs1, out]]); auto;
    (intros p [Hp|[e [=]]]; rewrite lookup_insert_ne by done; auto).
Qed.

(** X24.  An output file named without a folder cannot be written: line 71
    calls [os.makedirs] on [os.path.dirname(output_file)], which is the empty
    string then, and [os.makedirs('')] raises.  The call fails once its
    arguments have been checked, and touches nothing. *)
Theorem merge_detections_needs_an_output_folder source_files target_file
    output_file options fs :
  dirname output_file = "" →
  validate (default default_options options) source_files target_file fs
  = Ok tt →
  merge_detections get_iou int mul source_files target_file output_file options
    fs
  = (Raise (FileNotFoundError ""), fs).
Proof.
  intros Hdir Hvalid. unfold merge_detections. by rewrite Hvalid, Hdir.
Qed.

End Merged.

(** ** The properties of the merge on concrete files *)

Lemma pair_eq {A B} (x : A * B) a : fst x = a → x = (a, snd x).
Proof. intros <-. by destruct x. Qed.

Lemma merge_image_extends_one_image_witness :
  ∃ images',
    Merge.merge_image MergeDemo.get_iou MergeDemo.mul Merge.default_options ["1"; "2"]
      "MDv4" (8 # 10) (Merge.fn_to_image (Merge.images MergeDemo.target))
      (Merge.images MergeDemo.target)
      {| Merge.file := "b.jpg";
         Merge.detections :=
           Some [MergeDemo.found "2" (9 # 10)
                   (MergeDemo.box 0 0 (1 # 4) (1 # 4))];
         Merge.max_detection_conf := None |} = Ok images'
    ∧ length images' = 3%nat.
Proof.
  eexists. split; [vm_compute; reflexivity|].
  eapply (proj1 (merge_image_extends_one_image MergeDemo.get_iou
                   MergeDemo.mul Merge.default_options ["1"; "2"] "MDv4" (8 # 10)
                   (Merge.fn_to_image (Merge.images MergeDemo.target))
                   (Merge.images MergeDemo.target)
                   {| Merge.file := "b.jpg";
                      Merge.detections :=
                        Some [MergeDemo.found "2" (9 # 10)
                                (MergeDemo.box 0 0 (1 # 4) (1 # 4))];
                      Merge.max_detection_conf := None |} _ _)).
  Unshelve. vm_compute. reflexivity.
Defined.

Lemma merged_images_grow_witness :
  ∃ out output_data detection_categories,
    Merge.merged MergeDemo.get_iou MergeDemo.int MergeDemo.mul Merge.default_options
      ["/in/source.json"] "/in/target.json" MergeDemo.files = Ok out
    ∧ Merge.json_load "/in/target.json" MergeDemo.files = Ok output_data
    ∧ Forall2 (Merge.grown
                 (Merge.taken_from_a_source MergeDemo.get_iou MergeDemo.mul
                    Merge.default_options MergeDemo.files
                    ["/in/source.json"] detection_categories))
        (Merge.images output_data) (Merge.images out).
Proof.
  eassert (Hrun : Merge.merged MergeDemo.get_iou MergeDemo.int MergeDemo.mul
                    Merge.default_options ["/in/source.json"]
                    "/in/target.json" MergeDemo.files = Ok _)
    by (vm_compute; reflexivity).
  destruct (merged_images_grow _ _ _ _ _ _ _ _ Hrun)
    as (output_data & cats & Hload & _ & _ & Hgrown).
  eexists _, output_data, cats. split; [exact Hrun|]. by split.
Defined.

Lemma merged_changes_the_last_of_a_name_witness :
  ∃ out,
    Merge.merged MergeDemo.get_iou MergeDemo.int MergeDemo.mul Merge.default_options
      ["/in/source.json"] "/in/target.json" MergeDemo.twice = Ok out
    ∧ Merge.images out !! 0%nat
      = Some {| Merge.file := "a.jpg"; Merge.detections := Some [];
                Merge.max_detection_conf := None |}.
Proof.
  eassert (Hrun : Merge.merged MergeDemo.get_iou MergeDemo.int MergeDemo.mul
                    Merge.default_options ["/in/source.json"]
                    "/in/target.json" MergeDemo.twice = Ok _)
    by (vm_compute; reflexivity).
  eexists. split; [exact Hrun|].
  eapply (merged_changes_the_last_of_a_name _ _ _ _ _ _ _ _ _ 0 1 _ _ Hrun).
  - vm_compute. reflexivity.
  - reflexivity.
  - reflexivity.
  - lia.
  - reflexivity.
Defined.

Lemma merged_names_every_source_witness :
  ∃ out,
    Merge.merged MergeDemo.get_iou MergeDemo.int MergeDemo.mul Merge.default_options
      ["/in/source.json"] "/in/target.json" MergeDemo.files = Ok out
    ∧ Merge.detections_transferred_from (Merge.info out)
      = Some ["source.json"].
Proof.
  eassert (Hrun : Merge.merged MergeDemo.get_iou MergeDemo.int MergeDemo.mul
                    Merge.default_options ["/in/source.json"]
                    "/in/target.json" MergeDemo.files = Ok _)
    by (vm_compute; reflexivity).
  destruct (merged_names_every_source _ _ _ _ _ _ _ _ Hrun)
    as (output_data & names & Hload & _ & _ & Hfrom).
  eexists. split; [exact Hrun|].
  rewrite Hfrom. vm_compute in Hload. injection Hload as <-.
  vm_compute. reflexivity.
Defined.

Lemma merged_requires_matching_sources_witness :
  ∃ target_im,
    target_im ∈ Merge.images MergeDemo.target
    ∧ Merge.file target_im = "b.jpg".
Proof.
  eassert (Hrun : Merge.merged MergeDemo.get_iou MergeDemo.int MergeDemo.mul
                    Merge.default_options ["/in/source.json"]
                    "/in/target.json" MergeDemo.files = Ok _)
    by (vm_compute; reflexivity).
  destruct (merged_requires_matching_sources _ _ _ _ _ _ _ _ Hrun)
    as (output_data & Hload & Hsources).
  vm_compute in Hload. injection Hload as <-.
  destruct (Hsources "/in/source.json") as (source_data & Hsd & _ & Himages).
  { apply list_elem_of_here. }
  vm_compute in Hsd. injection Hsd as <-.
  apply (Himages
           {| Merge.file := "b.jpg";
              Merge.detections :=
                Some [MergeDemo.found "2" (9 # 10)
                        (MergeDemo.box 0 0 (1 # 4) (1 # 4))];
              Merge.max_detection_conf := Some (9 # 10)%Q |}).
  apply list_elem_of_further, list_elem_of_here.
Defined.

Lemma sources_below_threshold_change_no_image_witness :
  ∃ out,
    Merge.merged MergeDemo.get_iou MergeDemo.int MergeDemo.mul
      MergeDemo.strict ["/in/source.json"] "/in/target.json"
      MergeDemo.files = Ok out
    ∧ Merge.images out = Merge.images MergeDemo.target.
Proof.
  eassert (Hrun : Merge.merged MergeDemo.get_iou MergeDemo.int MergeDemo.mul
                    MergeDemo.strict ["/in/source.json"]
                    "/in/target.json" MergeDemo.files = Ok _)
    by (vm_compute; reflexivity).
  destruct (sources_below_threshold_change_no_image _ _ _ _ _ _ _ _ Hrun)
    as (output_data & Hload & Himages).
  - intros i source_file threshold source_data source_im dets det Hi
      Hthreshold Hsd Him Hdets Hdet.
    destruct i as [|i]; [|by destruct i].
    injection Hi as <-. injection Hthreshold as <-.
    vm_compute in Hsd. injection Hsd as <-.
    assert (Forall (λ im, ∀ dets,
                      Merge.detections im = Some dets →
                      Forall (λ det, (Merge.conf det < 1)%Q) dets)
              (Merge.images MergeDemo.source)) as Hall.
    { repeat constructor; intros ? [= <-]; repeat constructor. }
    rewrite Forall_forall in Hall. specialize (Hall source_im Him dets Hdets).
    rewrite Forall_forall in Hall. exact (Hall det Hdet).
  - eexists. split; [exact Hrun|].
    rewrite Himages. vm_compute in Hload. by injection Hload as <-.
Defined.

Lemma target_threshold_counts_for_empty_only_witness :
  Merge.merge_detections MergeDemo.get_iou MergeDemo.int MergeDemo.mul ["/in/source.json"]
    "/in/target.json" "/out/merged.json"
    (Some (Merge.with_target_confidence_threshold 0 Merge.default_options))
    MergeDemo.files
  = Merge.merge_detections MergeDemo.get_iou MergeDemo.int MergeDemo.mul
      ["/in/source.json"] "/in/target.json" "/out/merged.json"
      (Some Merge.default_options) MergeDemo.files.
Proof.
  apply target_threshold_counts_for_empty_only. reflexivity.
Defined.

Lemma merge_detections_checks_its_arguments_witness :
  ∃ msg,
    Merge.merge_detections MergeDemo.get_iou MergeDemo.int MergeDemo.mul
      ["/in/source.json"; "/in/source.json"] "/in/target.json"
      "/out/merged.json" None MergeDemo.files
    = (Raise (AssertionError msg), MergeDemo.files).
Proof.
  apply merge_detections_checks_its_arguments.
  right. left. cbn. lia.
Defined.

Lemma merge_detections_writes_only_the_output_witness :
  let after :=
    snd (Merge.merge_detections MergeDemo.get_iou MergeDemo.int MergeDemo.mul
           ["/in/source.json"] "/in/target.json" "/out/deep/merged.json"
           None MergeDemo.files) in
  after !! "/in/target.json" = MergeDemo.files !! "/in/target.json"
  ∧ MergeDemo.files !! "/out" = None
  ∧ after !! "/out" = Some Merge.Folder
  ∧ after !! "/out/deep" = Some Merge.Folder
  ∧ folders_above "/out/deep" = ["/out"; "/"].
Proof.
  intros after. split; [|vm_compute; repeat split].
  destruct (proj1 (merge_detections_writes_only_the_output MergeDemo.get_iou
                     MergeDemo.int MergeDemo.mul ["/in/source.json"]
                     "/in/target.json" "/out/deep/merged.json" None
                     MergeDemo.files _ _ (pair_eq _ _ eq_refl))
              "/in/target.json") as [Hsame|(Hnone & _)].
  - left. discriminate.
  - exact Hsame.
  - vm_compute in Hnone. discriminate.
Defined.

Lemma merge_detections_needs_an_output_folder_witness :
  Merge.merge_detections MergeDemo.get_iou MergeDemo.int MergeDemo.mul ["/in/source.json"]
    "/in/target.json" "merged.json" None MergeDemo.files
  = (Raise (FileNotFoundError ""), MergeDemo.files).
Proof.
  apply merge_detections_needs_an_output_folder; vm_compute; reflexivity.
Defined.

(** * Properties of timelapse_csv_set_to_json.py *)

Section Imported.

Import Timelapse.
#[local] Open Scope script_scope.

Variable lower : string → string.

(** ** The file list *)

Lemma then_Done {A B} (r : result A) (k : A → result B) b :
  then_ r k = Done b → ∃ a, r = Done a ∧ k a = Done b.
Proof. destruct r as [a|e]; [|done]. by exists a. Qed.

Lemma for_rows_invariant {A S} (f : S → A → result S) (I : S → Prop) l :
  (∀ s x s', x ∈ l → I s → f s x = Done s' → I s') →
  ∀ s s', I s → for_rows f l s = Done s' → I s'.
Proof.
  induction l as [|x l IH]; intros Hstep s s' Hs; cbn.
  - by intros [= <-].
  - intros (s1 & Hx & Hrest)%then_Done.
    apply (IH (λ s x s' Hin, Hstep s x s' (list_elem_of_further _ _ _ Hin))
             s1); [|done].
    by eapply Hstep; [apply list_elem_of_here| |].
Qed.

Lemma endswith_one_suffix s a b :
  String.length a = String.length b →
  endswith s a = true → endswith s b = true → a = b.
Proof.
  unfold endswith. intros ->.
  intros [_ Ha%String.eqb_eq]%andb_true_iff [_ Hb%String.eqb_eq]%andb_true_iff.
  congruence.
Qed.

Lemma in_image_files all_files fn :
  fn ∈ (classify lower all_files).1.1
  ↔ fn ∈ all_files
    ∧ endswith (lower fn) ".csv" = false
    ∧ endswith (lower fn) ".jpg" || endswith (lower fn) ".png" = true
    ∧ matches_required_image_regex fn = true.
Proof.
  unfold classify.
  set (step := λ '(image_files, csv_files, non_matching_files) fn, _).
  set (wanted := λ fn : string,
         endswith (lower fn) ".csv" = false
         ∧ endswith (lower fn) ".jpg" || endswith (lower fn) ".png" = true
         ∧ matches_required_image_regex fn = true).
  enough (∀ l (acc : gset string * list string * list string),
            fn ∈ (foldl step acc l).1.1
            ↔ fn ∈ acc.1.1 ∨ (fn ∈ l ∧ wanted fn)) as H.
  { rewrite H. cbn. split; [|by right].
    intros [Hempty|?]; [|done]. by apply not_elem_of_empty in Hempty. }
  induction l as [|x l IH]; intros [[images csvs] others].
  - cbn. split; [by left|]. intros [?|[H _]]; [done|].
    by apply elem_of_nil in H.
  - cbn [foldl]. rewrite IH. unfold step, wanted. cbn beta iota.
    destruct (endswith (lower x) ".csv") eqn:Hcsv; cbn.
    { split; [intros [?|[? ?]]; [by left|right]|intros [?|[Hin Hw]]].
      - split; [by apply list_elem_of_further|done].
      - by left.
      - apply elem_of_cons in Hin as [->|Hin]; [|by right].
        destruct Hw. congruence. }
    destruct (endswith (lower x) ".jpg" || endswith (lower x) ".png")
      eqn:Himage; cbn.
    2:{ split; [intros [?|[? ?]]; [by left|right]|intros [?|[Hin Hw]]].
        - split; [by apply list_elem_of_further|done].
        - by left.
        - apply elem_of_cons in Hin as [->|Hin]; [|by right].
          destruct Hw as (_ & ? & _). congruence. }
    destruct (matches_required_image_regex x) eqn:Hmatch; cbn.
    + split.
      * intros [[->%elem_of_singleton|?]%elem_of_union|[? ?]].
        -- right. split; [apply list_elem_of_here|done].
        -- by left.
        -- right. split; [by apply list_elem_of_further|done].
      * intros [?|[[->|Hin]%elem_of_cons Hw]].
        -- left. apply elem_of_union. by right.
        -- left. apply elem_of_union. left. by apply elem_of_singleton.
        -- by right.
    + split; [intros [?|[? ?]]; [by left|right]|intros [?|[Hin Hw]]].
      * split; [by apply list_elem_of_further|done].
      * by left.
      * apply elem_of_cons in Hin as [->|Hin]; [|by right].
        destruct Hw as (_ & _ & ?). congruence.
Qed.

Lemma check_image_files_stops image_files :
  (∃ fn, fn ∈ image_files ∧ endswith (lower fn) ".jpg" = false)
  ↔ check_image_files lower image_files = Stopped (Exn (AssertionError "")).
Proof.
  unfold check_image_files.
  transitivity (∃ fn, fn ∈ elements image_files
                      ∧ endswith (lower fn) ".jpg" = false).
  { by setoid_rewrite elem_of_elements. }
  induction (elements image_files) as [|x l IH]; cbn.
  - split; [|done]. intros (fn & H & _). by apply elem_of_nil in H.
  - destruct (endswith (lower x) ".jpg") eqn:Hx; cbn.
    + rewrite <- IH. split; intros (fn & Hin & Hfn).
      * apply elem_of_cons in Hin as [->|Hin]; [congruence|by exists fn].
      * exists fn. split; [by apply list_elem_of_further|done].
    + split; [done|]. intros _. exists x.
      split; [apply list_elem_of_here|done].
Qed.

(** X25.  The cell that reads the file list takes .jpg and .png files as images
    (line 66) and then asserts that every image ends in .jpg (lines 76-77).  So
    the script stops there with an AssertionError exactly when the list names a
    .png file that matches the required prefix. *)
Theorem a_png_image_stops_the_script all_files :
  (∃ fn, fn ∈ all_files
         ∧ matches_required_image_regex fn = true
         ∧ endswith (lower fn) ".png" = true)
  ↔ read_file_list lower all_files = Stopped (Exn (AssertionError "")).
Proof.
  unfold read_file_list.
  pose proof (in_image_files all_files) as Himages.
  destruct (classify lower all_files) as [[images csvs] others]. cbn in *.
  transitivity (check_image_files lower images
                = Stopped (Exn (AssertionError ""))).
  2:{ destruct (check_image_files lower images); cbn; [done|].
      split; congruence. }
  rewrite <- check_image_files_stops.
  split; intros (fn & H1 & H2).
  - destruct H2 as [Hmatch Hpng]. exists fn. split.
    + apply Himages. split; [done|]. rewrite Hpng, orb_true_r.
      split; [|done].
      destruct (endswith (lower fn) ".csv") eqn:Hcsv; [|done].
      by pose proof (endswith_one_suffix _ ".png" ".csv" eq_refl Hpng Hcsv).
    + destruct (endswith (lower fn) ".jpg") eqn:Hjpg; [|done].
      by pose proof (endswith_one_suffix _ ".png" ".jpg" eq_refl Hpng Hjpg).
  - apply Himages in H1 as (Hin & _ & Himage & Hmatch).
    rewrite H2 in Himage. by exists fn.
Qed.

(** ** The main loop *)

Variable split_path : string → list string.
Variable uuid1 : nat → string.
Variable csv_filename_to_camera_folder : gmap string string.
Variable camera_folders_to_image_folders : gmap string (list string).
Variable image_files : gset string.
Variable valid_csv_files : list string.

#[local] Abbreviation row_step :=
  (process_row lower split_path uuid1 csv_filename_to_camera_folder
     camera_folders_to_image_folders image_files valid_csv_files).

(** X26.  When no image folder is found for a row, lines 284-289 note the
    folder and go on to the next row, but only the first time: the [continue]
    is inside the test for a folder not yet noted.  A second row for the same
    folder falls through to line 291 and adds a string to None.  Two such rows
    stop the loop with a TypeError, whatever follows them. *)
Theorem a_second_row_of_an_unknown_folder_stops_the_loop s row row'
    camera_folder candidate_image_folders image_folder rest :
  csv_filename_to_camera_folder !! source_file row = Some camera_folder →
  source_file row' = source_file row →
  camera_folders_to_image_folders !! camera_folder
  = Some candidate_image_folders →
  image_folder_of split_path row = Done image_folder →
  image_folder_of split_path row' = Done image_folder →
  find_image_folder candidate_image_folders image_folder = None →
  for_rows row_step (row :: row' :: rest) s
  = Stopped (Exn (TypeError
      "unsupported operand type(s) for +: 'NoneType' and 'str'")).
Proof.
  intros Hcamera Hsame Hcandidates Hfolder Hfolder' Hnone.
  cbn [for_rows]. unfold process_row at 1.
  rewrite Hfolder. cbn [then_]. rewrite Hcamera, Hcandidates, Hnone.
  destruct (bool_decide _) eqn:Hignored; [done|].
  cbn [then_]. unfold process_row at 1.
  rewrite Hfolder'. cbn [then_]. rewrite Hsame, Hcamera, Hcandidates, Hnone.
  cbn [ignored_image_folders].
  rewrite bool_decide_eq_true_2; [done|].
  apply elem_of_union. left. by apply elem_of_singleton.
Qed.

Lemma lookup_name_None name categories :
  lookup_name name categories = None → name ∉ map fst categories.
Proof.
  induction categories as [|[n i] categories IH]; cbn.
  - intros _ H. by apply elem_of_nil in H.
  - destruct (String.eqb_spec n name) as [->|Hne]; [done|].
    intros H [->|Hin]%elem_of_cons; [done|by apply IH].
Qed.

Lemma lookup_name_Some name categories i :
  lookup_name name categories = Some i → i ∈ map snd categories.
Proof.
  induction categories as [|[n j] categories IH]; cbn; [done|].
  destruct (String.eqb n name).
  - intros [= ->]. apply list_elem_of_here.
  - intros H. by apply list_elem_of_further, IH.
Qed.

Lemma category_name_of_Done row name ambiguous :
  category_name_of lower row = Done (name, ambiguous) → name ≠ "none".
Proof.
  unfold category_name_of.
  intros (species & _ & ([n a] & _ & [= <- <-])%then_Done)%then_Done.
  by destruct (String.eqb_spec n "none") as [->|Hne].
Qed.

Lemma annotate_Done s row image_relative_path s' :
  annotate lower uuid1 s row image_relative_path = Done s' →
  ∃ im name ambiguous category_id,
    category_name_of lower row = Done (name, ambiguous)
    ∧ ((image_id_to_image s !! image_id_of image_relative_path = Some im
        ∧ id im = image_id_of image_relative_path
        ∧ images s' = images s
        ∧ image_id_to_image s' = image_id_to_image s)
       ∨ (image_id_to_image s !! image_id_of image_relative_path = None
          ∧ im = {| id := image_id_of image_relative_path;
                    file_name := image_relative_path; seq_id := "-1" |}
          ∧ images s' = images s ++ [im]
          ∧ image_id_to_image s'
            = <[image_id_of image_relative_path := im]>
                (image_id_to_image s)))
    ∧ ((lookup_name name (category_name_to_category s) = Some category_id
        ∧ category_name_to_category s' = category_name_to_category s
        ∧ next_category_id s' = next_category_id s)
       ∨ (lookup_name name (category_name_to_category s) = None
          ∧ category_id = next_category_id s
          ∧ category_name_to_category s'
            = category_name_to_category s ++ [(name, next_category_id s)]
          ∧ next_category_id s' = (next_category_id s + 1)%Z))
    ∧ annotations s'
      = annotations s
        ++ [{| ann_id := uuid1 (uuids s); image_id := id im;
               category_id := category_id |}].
Proof.
  unfold annotate.
  intros ([[[[im paths] ids] images'] duplicates] & Hknown
          & ([name ambiguous] & Hname & Hrest)%then_Done)%then_Done.
  destruct (image_id_to_image s !! image_id_of image_relative_path)
    as [known|] eqn:Hid.
  - apply then_Done in Hknown as ([] & Hassert & [= <- <- <- <- <-]).
    unfold assert_ in Hassert.
    destruct (String.eqb_spec (id known) (image_id_of image_relative_path))
      as [Heq|]; [|done].
    destruct (lookup_name name (category_name_to_category s))
      as [category_id|] eqn:Hcategory; injection Hrest as <-.
    + exists known, name, ambiguous, category_id. split; [done|].
      split; [by left|]. split; [by left|done].
    + exists known, name, ambiguous, (next_category_id s). split; [done|].
      split; [by left|]. split; [by right|done].
  - injection Hknown as <- <- <- <- <-.
    destruct (lookup_name name (category_name_to_category s))
      as [category_id|] eqn:Hcategory; injection Hrest as <-.
    + eexists _, name, ambiguous, category_id. split; [done|].
      split; [by right|]. split; [by left|done].
    + eexists _, name, ambiguous, (next_category_id s). split; [done|].
      split; [by right|]. split; [by right|done].
Qed.

Lemma process_row_Done s row s' :
  row_step s row = Done s' →
  (images s' = images s ∧ image_id_to_image s' = image_id_to_image s
   ∧ annotations s' = annotations s
   ∧ category_name_to_category s' = category_name_to_category s
   ∧ next_category_id s' = next_category_id s)
  ∨ ∃ image_relative_path,
      image_relative_path ∈ image_files
      ∧ annotate lower uuid1 s row image_relative_path = Done s'.
Proof.
  unfold process_row. intros (image_folder & _ & Hrun)%then_Done.
  destruct (csv_filename_to_camera_folder !! source_file row)
    as [camera_folder|].
  - destruct (camera_folders_to_image_folders !! camera_folder)
      as [candidates|]; [|done].
    destruct (find_image_folder candidates image_folder) as [folder|].
    + destruct (bool_decide_reflect
                  (folder +:+ "/" +:+ File row ∈ image_files)) as [Hin|].
      * right. by eexists.
      * left. by injection Hrun as <-.
    + destruct (bool_decide _); [done|]. left. by injection Hrun as <-.
  - destruct (bool_decide _); [left; by injection Hrun as <-|].
    apply then_Done in Hrun as ([] & _ & [= <-]). by left.
Qed.

(** X27.  However many rows the loop gets through, the categories stay numbered
    in the order they were met: the ids are 0, 1, 2, ... without a gap,
    [next_category_id] is the next one, no name occurs twice, the empty
    category comes first with id 0, and no category is called "none" (line 349
    turns that name into "empty"). *)
Theorem categories_are_numbered_in_order rows s :
  main_loop lower split_path uuid1 csv_filename_to_camera_folder
    camera_folders_to_image_folders image_files valid_csv_files rows
  = Done s →
  categories_numbered s.
Proof.
  unfold main_loop. apply for_rows_invariant.
  2:{ repeat split; cbn.
      - apply NoDup_singleton.
      - by intros [= ]%list_elem_of_singleton. }
  intros s0 row s1 _ (Hids & Hnext & Hnames & Hempty & Hnone)
    [(_ & _ & _ & Hcats & Hnext')
    |(path & _ & (im & name & ambiguous & cid & Hname & _ & Hcat
                  & _)%annotate_Done)]%process_row_Done.
  { unfold categories_numbered. by rewrite Hcats, Hnext'. }
  destruct Hcat as [(_ & Hcats & Hnext')|(Hnew & -> & Hcats & Hnext')];
    unfold categories_numbered; rewrite Hcats, Hnext'; [done|].
  rewrite !map_app, length_app, Nat.add_1_r, seq_S, map_app. cbn.
  split; [by rewrite Hids, Hnext|]. split; [lia|]. split.
  { apply NoDup_app. split; [done|]. split; [|apply NoDup_singleton].
    intros x Hx ->%list_elem_of_singleton.
    by apply (lookup_name_None _ _ Hnew). }
  split.
  { rewrite lookup_app_l; [done|]. by eapply lookup_lt_Some. }
  intros [H|Heq%list_elem_of_singleton]%elem_of_app; [done|].
  by apply (category_name_of_Done _ _ _ Hname).
Qed.

(** X28.  Every image the loop has made has an id of its own, and every
    annotation refers to one of these images and to one of the categories: the
    database is consistent after any number of rows. *)
Theorem annotations_refer_to_images_and_categories rows s :
  main_loop lower split_path uuid1 csv_filename_to_camera_folder
    camera_folders_to_image_folders image_files valid_csv_files rows
  = Done s →
  consistent s.
Proof.
  unfold main_loop. apply for_rows_invariant.
  2:{ split; [apply NoDup_nil_2|].
      split; [intros i im H; cbn in H; by rewrite lookup_empty in H|].
      split; [intros im H; by apply elem_of_nil in H|].
      intros ann H. by apply elem_of_nil in H. }
  intros s0 row s1 _ (Hids & Hdict & Himages & Hanns)
    [(Him & Hid & Hann & Hcats & _)
    |(path & _ & (im & name & ambiguous & cid & _ & Himage & Hcat
                  & Hann)%annotate_Done)]%process_row_Done.
  { unfold consistent. by rewrite Him, Hid, Hann, Hcats. }
  assert (Hcats : ∀ i, i ∈ map snd (category_name_to_category s0) →
                       i ∈ map snd (category_name_to_category s1)).
  { intros i Hi. destruct Hcat as [(_ & -> & _)|(_ & _ & -> & _)]; [done|].
    rewrite map_app. apply elem_of_app. by left. }
  assert (Hcid : cid ∈ map snd (category_name_to_category s1)).
  { destruct Hcat as [(Hfound & -> & _)|(_ & -> & -> & _)].
    - by eapply lookup_name_Some.
    - rewrite map_app. apply elem_of_app. right. apply list_elem_of_here. }
  unfold consistent. rewrite Hann.
  destruct Himage as [(Hknown & Hid & -> & ->)|(Hnew & -> & -> & ->)].
  - split; [done|]. split; [done|]. split; [done|].
    intros ann [Hold| ->%list_elem_of_singleton]%elem_of_app.
    + destruct (Hanns ann Hold). split; [done|by apply Hcats].
    + cbn. split; [|done]. apply list_elem_of_fmap_2.
      by destruct (Hdict _ _ Hknown).
  - set (im := {| id := image_id_of path; file_name := path;
                  seq_id := "-1" |}).
    assert (Hfresh : image_id_of path ∉ map id (images s0)).
    { intros (im' & Hid' & Hin)%list_elem_of_fmap.
      apply Himages in Hin. rewrite <- Hid' in Hin. congruence. }
    split.
    { rewrite map_app. apply NoDup_app. split; [done|].
      split; [|apply NoDup_singleton].
      by intros x Hx ->%list_elem_of_singleton. }
    split.
    { intros i im' Hlookup.
      destruct (decide (i = image_id_of path)) as [->|Hne].
      - rewrite lookup_insert_eq in Hlookup. injection Hlookup as <-.
        split; [done|]. apply elem_of_app. right. apply list_elem_of_here.
      - rewrite lookup_insert_ne in Hlookup by done.
        destruct (Hdict _ _ Hlookup). split; [done|].
        apply elem_of_app. by left. }
    split.
    { intros im' [Hold| ->%list_elem_of_singleton]%elem_of_app.
      - rewrite lookup_insert_ne; [by apply Himages|].
        intros Heq. apply Hfresh. rewrite Heq.
        by apply list_elem_of_fmap_2.
      - apply lookup_insert_eq. }
    intros ann [Hold| ->%list_elem_of_singleton]%elem_of_app.
    + destruct (Hanns ann Hold). split; [|by apply Hcats].
      rewrite map_app. apply elem_of_app. by left.
    + cbn. split; [|done]. rewrite map_app. apply elem_of_app. right.
      apply list_elem_of_here.
Qed.

(** ** The ids of the images *)

Lemma startswith_single a r c :
  startswith (String a r) (String c "") = bool_decide (c = a).
Proof.
  unfold startswith. cbn. destruct (Ascii.ascii_dec c a) as [->|Hne].
  - rewrite bool_decide_eq_true_2 by done. by destruct r.
  - by rewrite bool_decide_eq_false_2.
Qed.

Lemma contains_single_cons a r c :
  contains (String a r) (String c "")
  = bool_decide (c = a) || contains r (String c "").
Proof. cbn [contains]. by rewrite startswith_single. Qed.

Lemma contains_single_append a b c :
  contains (a +:+ b) (String c "")
  = contains a (String c "") || contains b (String c "").
Proof.
  induction a as [|x a IH]; [done|].
  change (String x a +:+ b) with (String x (a +:+ b)).
  rewrite !contains_single_cons, IH. by rewrite orb_assoc.
Qed.

Lemma replace_single_removes c new s :
  contains new (String c "") = false →
  contains (replace s (String c "") new) (String c "") = false.
Proof.
  intros Hnew. unfold replace. induction s as [|a r IH]; [done|].
  cbn [replace_from String.length Nat.sub]. rewrite startswith_single.
  destruct (bool_decide_reflect (c = a)) as [->|Hne].
  - by rewrite contains_single_append, Hnew, IH.
  - rewrite contains_single_cons, IH.
    by rewrite bool_decide_eq_false_2.
Qed.

Lemma replace_single_keeps d c new s :
  contains new (String d "") = false →
  contains s (String d "") = false →
  contains (replace s (String c "") new) (String d "") = false.
Proof.
  intros Hnew. unfold replace. induction s as [|a r IH]; [done|].
  rewrite contains_single_cons. intros [Ha Hr]%orb_false_iff.
  cbn [replace_from String.length Nat.sub]. rewrite startswith_single.
  destruct (bool_decide (c = a)).
  - by rewrite contains_single_append, Hnew, IH.
  - by rewrite contains_single_cons, Ha, IH.
Qed.

Lemma image_id_of_no_separator image_relative_path :
  contains (image_id_of image_relative_path) "/" = false
  ∧ contains (image_id_of image_relative_path) backslash = false.
Proof.
  unfold image_id_of. split.
  - apply replace_single_keeps; [done|]. by apply replace_single_removes.
  - by apply replace_single_removes.
Qed.

(** X29.  Every image of the database stands for a file of the file list, and
    its id is that file's path with the separators replaced (line 296): an id
    holds neither a slash nor a backslash. *)
Theorem image_ids_hold_no_separator rows s im :
  main_loop lower split_path uuid1 csv_filename_to_camera_folder
    camera_folders_to_image_folders image_files valid_csv_files rows
  = Done s →
  im ∈ images s →
  file_name im ∈ image_files
  ∧ id im = image_id_of (file_name im)
  ∧ contains (id im) "/" = false
  ∧ contains (id im) backslash = false.
Proof.
  intros Hrun Him.
  enough (file_name im ∈ image_files ∧ id im = image_id_of (file_name im))
    as [Hfile Hid].
  { split; [done|]. split; [done|]. rewrite Hid.
    apply image_id_of_no_separator. }
  revert im Him. revert Hrun. unfold main_loop.
  apply (for_rows_invariant _
           (λ s, ∀ im, im ∈ images s →
                       file_name im ∈ image_files
                       ∧ id im = image_id_of (file_name im))).
  2:{ intros im H. by apply elem_of_nil in H. }
  intros s0 row s1 _ Hinv
    [(Him & _)
    |(path & Hpath & (im' & name & ambiguous & cid & _ & Himage & _
                      & _)%annotate_Done)]%process_row_Done.
  { by rewrite Him. }
  destruct Himage as [(_ & _ & -> & _)|(_ & -> & -> & _)]; [done|].
  intros im [Hold| ->%list_elem_of_singleton]%elem_of_app; [by apply Hinv|].
  done.
Qed.

End Imported.

(** ** The properties of the import on concrete tables *)

Lemma state_of_done (r : Timelapse.result Timelapse.State) :
  Timelapse.is_done r = true → r = Timelapse.Done (Timelapse.state_of r).
Proof. by destruct r. Qed.

Lemma a_png_image_stops_the_script_witness :
  Timelapse.read_file_list TimelapseDemo.lower
    ["Processed Images/OK1/Camera_1/100RECNX/img_1.PNG"; "OK1_1_a.csv"]
  = Timelapse.Stopped (Timelapse.Exn (AssertionError "")).
Proof.
  apply (proj1 (a_png_image_stops_the_script TimelapseDemo.lower _)).
  exists "Processed Images/OK1/Camera_1/100RECNX/img_1.PNG".
  split; [apply list_elem_of_here|]. split; vm_compute; reflexivity.
Defined.

Lemma a_second_row_of_an_unknown_folder_stops_the_loop_witness :
  Timelapse.main_loop TimelapseDemo.lower TimelapseDemo.split_path
    TimelapseDemo.uuid1 TimelapseDemo.csv_filename_to_camera_folder
    TimelapseDemo.camera_folders_to_image_folders TimelapseDemo.image_files
    TimelapseDemo.valid_csv_files
    [TimelapseDemo.misfiled; TimelapseDemo.misfiled]
  = Timelapse.Stopped
      (Timelapse.Exn
         (TypeError
            "unsupported operand type(s) for +: 'NoneType' and 'str'")).
Proof.
  eapply (a_second_row_of_an_unknown_folder_stops_the_loop
            TimelapseDemo.lower TimelapseDemo.split_path TimelapseDemo.uuid1
            TimelapseDemo.csv_filename_to_camera_folder
            TimelapseDemo.camera_folders_to_image_folders
            TimelapseDemo.image_files TimelapseDemo.valid_csv_files).
  - vm_compute. reflexivity.
  - reflexivity.
  - vm_compute. reflexivity.
  - vm_compute. reflexivity.
  - vm_compute. reflexivity.
  - vm_compute. reflexivity.
Defined.

Lemma categories_are_numbered_in_order_witness :
  ∃ s,
    Timelapse.main_loop TimelapseDemo.lower TimelapseDemo.split_path
      TimelapseDemo.uuid1 TimelapseDemo.csv_filename_to_camera_folder
      TimelapseDemo.camera_folders_to_image_folders
      TimelapseDemo.image_files TimelapseDemo.valid_csv_files
      TimelapseDemo.three_rows = Timelapse.Done s
    ∧ Timelapse.categories_numbered s.
Proof.
  eexists. split.
  - apply state_of_done. vm_compute. reflexivity.
  - eapply categories_are_numbered_in_order. apply state_of_done. vm_compute. reflexivity.
Defined.

Lemma annotations_refer_to_images_and_categories_witness :
  ∃ s,
    Timelapse.main_loop TimelapseDemo.lower TimelapseDemo.split_path
      TimelapseDemo.uuid1 TimelapseDemo.csv_filename_to_camera_folder
      TimelapseDemo.camera_folders_to_image_folders
      TimelapseDemo.image_files TimelapseDemo.valid_csv_files
      TimelapseDemo.three_rows = Timelapse.Done s
    ∧ Timelapse.consistent s.
Proof.
  eexists. split.
  - apply state_of_done. vm_compute. reflexivity.
  - eapply annotations_refer_to_images_and_categories. apply state_of_done. vm_compute. reflexivity.
Defined.

Lemma image_ids_hold_no_separator_witness :
  contains "Processed Images_OK1_Camera~1_100RECNX_img~1.jpg" "/" = false.
Proof.
  eapply (image_ids_hold_no_separator TimelapseDemo.lower
            TimelapseDemo.split_path TimelapseDemo.uuid1
            TimelapseDemo.csv_filename_to_camera_folder
            TimelapseDemo.camera_folders_to_image_folders
            TimelapseDemo.image_files TimelapseDemo.valid_csv_files
            TimelapseDemo.three_rows _
            {| Timelapse.id :=
                 "Processed Images_OK1_Camera~1_100RECNX_img~1.jpg";
               Timelapse.file_name :=
                 "Processed Images/OK1/Camera_1/100RECNX/img_1.jpg";
               Timelapse.seq_id := "-1" |}).
  - apply state_of_done. vm_compute. reflexivity.
  - vm_compute. left.
Defined.
